(** * Band portal backend: donation workflow and subscriber registration

  A shallow embedding of the request handlers of

  - [routes/public.js]  ([POST /donate], [POST /webhook/mtn],
                         [POST /contact-message]),
  - [routes/admin.js]   ([PUT /donations/:id/status], [POST /register],
                         [POST /login], [DELETE /contact-message/:id]),
  - [routes/events.js]  ([POST /subscribe] and the events),
  - [routes/blogs.js], the donations router, [middleware/auth.js],
  - [utils/mtn.js]      ([createMtnPaymentRequest]),

  over an explicit model of the tables they touch.  Handlers are
  functions from a request and a store to a response and a store; the
  queries they issue run in a small error monad whose failures are the
  constraint violations of the tables, and an expression that throws is
  an expression without a value. *)

From Stdlib Require Import Ascii String ZArith NArith.
From stdpp Require Import base strings list gmap pretty.

Local Open Scope string_scope.
Local Open Scope list_scope.

(** ** JavaScript values and strings *)

Module JS.

(** The primitive values a parsed JSON body holds in a field, plus
    [Undefined] for a field that is absent.  Numbers are the integers a
    double holds exactly, up to 2^53 in magnitude, which print in plain
    decimal.  Strings are the byte strings of their UTF-8 encoding.  The
    arrays and objects of a body are the [json] values below. *)
Inductive value : Type :=
| Undefined
| Null
| Bool (b : bool)
| Num (n : Z)
| Str (s : string).

#[global] Instance value_eq_dec : EqDecision value.
Proof. solve_decision. Defined.

(** ToBoolean. *)
Definition truthy (v : value) : bool :=
  match v with
  | Undefined | Null => false
  | Bool b => b
  | Num n => negb (n =? 0)%Z
  | Str s => negb (String.eqb s "")
  end.

(** [a || b]. *)
Definition or (a b : value) : value := if truthy a then a else b.

(** [!a]. *)
Definition not (a : value) : bool := negb (truthy a).

(** [String(v)], the conversion behind template literals and
    [RegExp.prototype.test]. *)
Definition String_ (v : value) : string :=
  match v with
  | Undefined => "undefined"
  | Null => "null"
  | Bool true => "true"
  | Bool false => "false"
  | Num n => pretty n
  | Str s => s
  end.

(** [v.toString()]: a property access, so a TypeError ([None]) on
    [undefined] and [null]. *)
Definition toString (v : value) : option string :=
  match v with
  | Undefined | Null => None
  | _ => Some (String_ v)
  end.

(** [typeof v === 'string']. *)
Definition is_string (v : value) : bool :=
  match v with Str _ => true | _ => false end.

Definition lower_char (c : ascii) : ascii :=
  let n := N_of_ascii c in
  if ((65 <=? n) && (n <=? 90))%N then ascii_of_N (n + 32) else c.

(** [s.toLowerCase()] on the ASCII letters.  The only characters outside
    ASCII whose lower case reaches ASCII are U+212A (to k) and U+0130 (to
    i followed by U+0307); neither can complete one of the three words the
    webhook looks for, so the classification below is the same. *)
Fixpoint toLowerCase (s : string) : string :=
  match s with
  | EmptyString => EmptyString
  | String c t => String (lower_char c) (toLowerCase t)
  end.

(** [hay.includes(needle)]. *)
Fixpoint includes (hay needle : string) : bool :=
  String.prefix needle hay ||
  match hay with
  | EmptyString => false
  | String _ t => includes t needle
  end.

(** [s.slice(from, to)] for [0 <= from <= to]. *)
Definition slice (from to : nat) (s : string) : string :=
  String.substring from (to - from) s.

Unset Elimination Schemes.

(** A value of a parsed JSON body: a primitive, an array, or an object
    with its own properties.  The properties of an object parsed from
    JSON hold no function, and its prototype is [Object.prototype]. *)
Inductive json : Type :=
| Prim (v : value)
| Arr (elements : list json)
| Obj (members : list (string * json)).

Set Elimination Schemes.

(** ToBoolean: every array and every object is truthy. *)
Definition json_truthy (v : json) : bool :=
  match v with
  | Prim p => truthy p
  | Arr _ | Obj _ => true
  end.

(** [a || b]. *)
Definition json_or (a b : json) : json := if json_truthy a then a else b.

(** The object has an own property named [k]. *)
Definition has_own (k : string) (members : list (string * json)) : bool :=
  existsb (λ m : string * json, String.eqb m.1 k) members.

(** [texts.join(',')] over the texts of the elements, [None] for an element
    whose conversion throws. *)
Fixpoint join (texts : list (option string)) : option string :=
  match texts with
  | [] => Some ""
  | t :: rest =>
      match rest with
      | [] => t
      | _ :: _ =>
          match t, join rest with
          | Some a, Some b => Some (a +:+ "," +:+ b)
          | _, _ => None
          end
      end
  end.

(** ToString, [None] where it throws a TypeError.  An array is the join of
    its elements, [null] and [undefined] counting as empty.  An object goes
    through its [toString] property: the inherited one answers
    ["[object Object]"]; an own one is no function, and then neither it
    nor [valueOf] yields a primitive. *)
Fixpoint to_text (v : json) : option string :=
  match v with
  | Prim p => Some (String_ p)
  | Arr elements =>
      join (map (λ x, match x with
                      | Prim Undefined | Prim Null => Some ""
                      | _ => to_text x
                      end) elements)
  | Obj members =>
      if has_own "toString" members then None else Some "[object Object]"
  end.

(** [v.toString()]: the property is looked up first, on the value itself
    and then on its prototype, and called. *)
Definition json_toString (v : json) : option string :=
  match v with
  | Prim p => toString p
  | Arr _ | Obj _ => to_text v
  end.

End JS.

(** ** Regular expressions

    A matcher by derivatives for the fragment the sources use: literal
    characters, the class [\S], concatenation and [+].  A pattern is
    matched against the whole string, as between [^] and [$]. *)

Module Regex.

Inductive re : Type :=
| Chr (c : ascii)
| NonSpace
| Seq (r1 r2 : re)
| Plus (r : re).

(** The derivative of a pattern is a sum of sequences of patterns; a
    sequence is a list of patterns to match one after the other. *)
Fixpoint deriv1 (is_space : ascii → bool) (c : ascii) (r : re) : list (list re) :=
  match r with
  | Chr d => if Ascii.eqb c d then [[]] else []
  | NonSpace => if is_space c then [] else [[]]
  | Seq r1 r2 => map (λ k, k ++ [r2]) (deriv1 is_space c r1)
  | Plus r1 =>
      let d := deriv1 is_space c r1 in d ++ map (λ k, k ++ [Plus r1]) d
  end.

(** No pattern of the fragment matches the empty string, so a sequence is
    nullable only when it is empty. *)
Definition deriv_seq (is_space : ascii → bool) (c : ascii) (k : list re) : list (list re) :=
  match k with
  | [] => []
  | r :: k' => map (λ d, d ++ k') (deriv1 is_space c r)
  end.

Fixpoint matches_from (is_space : ascii → bool) (ks : list (list re)) (s : string) : bool :=
  match s with
  | EmptyString => existsb (λ k, match k with [] => true | _ => false end) ks
  | String c t => matches_from is_space (concat (map (deriv_seq is_space c) ks)) t
  end.

Definition test (is_space : ascii → bool) (r : re) (s : string) : bool :=
  matches_from is_space [[r]] s.

End Regex.

Module Text.

Definition bytes (l : list N) : string :=
  fold_right (λ n s, String (ascii_of_N n) s) EmptyString l.

(** The one-byte members of [\s]: tab, line feed, vertical tab, form feed,
    carriage return and space. *)
Definition is_space (c : ascii) : bool :=
  let n := N_of_ascii c in ((9 <=? n) && (n <=? 13) || (n =? 32))%N.

(** The members of [\s] outside ASCII, as UTF-8: U+00A0, U+1680,
    U+2000..U+200A, U+2028, U+2029, U+202F, U+205F, U+3000, U+FEFF. *)
Definition wide_spaces : list string :=
  map bytes
    ([[194; 160]; [225; 154; 128]] ++
     map (λ n, [226; 128; n]) [128; 129; 130; 131; 132; 133; 134; 135; 136; 137; 138] ++
     [[226; 128; 168]; [226; 128; 169]; [226; 128; 175];
      [226; 129; 159]; [227; 128; 128]; [239; 187; 191]])%N.

Definition has_wide_space (s : string) : bool :=
  existsb (JS.includes s) wide_spaces.

(** Characters of a UTF-8 string: the bytes that are not continuation
    bytes. *)
Fixpoint char_length (s : string) : nat :=
  match s with
  | EmptyString => 0
  | String c t =>
      let n := N_of_ascii c in
      (if ((128 <=? n) && (n <? 192))%N then 0 else 1) + char_length t
  end.

End Text.

(** [/^\S+@\S+\.\S+$/] of [routes/events.js]. *)
Definition email_re : Regex.re :=
  Regex.Seq (Regex.Plus Regex.NonSpace)
    (Regex.Seq (Regex.Chr "@")
       (Regex.Seq (Regex.Plus Regex.NonSpace)
          (Regex.Seq (Regex.Chr ".") (Regex.Plus Regex.NonSpace)))).

(** [/^\S+@\S+\.\S+$/.test(v)]: the argument is converted with [String]. *)
Definition email_re_test (v : JS.value) : bool :=
  let s := JS.String_ v in
  Regex.test Text.is_space email_re s && negb (Text.has_wide_space s).

(** ** The relational store *)

Module Donation.

(** A row of [donations].  A column holds the value that was bound to it by
    the query; [transaction_id] is text.  The key of the table is the
    surrogate [id].  [created_at] is filled in by the database and read by
    no handler below, so it is left out. *)
Record row : Type := mk {
  donor_name : JS.value;
  phone : JS.value;
  amount : JS.value;
  transaction_id : string;
  status : JS.value
}.

(** [SET status = ?] on a row. *)
Definition set_status (st : JS.value) (r : row) : row :=
  mk (donor_name r) (phone r) (amount r) (transaction_id r) st.

End Donation.

(** [subscribers] maps the primary key [id] to the [email] column. *)
Record store : Type := mk_store {
  donations : gmap N Donation.row;
  subscribers : gmap string JS.value
}.

Definition empty_store : store := mk_store ∅ ∅.

(** ** Queries

    The pool is taken to be reachable: a query fails only when a constraint
    of its table refuses it. *)

Inductive sql_error : Type :=
| ER_DUP_ENTRY
| ER_DATA_TOO_LONG.

Inductive exn : Type :=
| SqlError (code : sql_error)
| TypeError.

(** A computation either returns a value and the store it leaves, or
    throws, leaving the store as it was when the exception was raised. *)
Inductive outcome (A : Type) : Type :=
| Ok (a : A) (s : store)
| Throw (e : exn) (s : store).

Arguments Ok {A} a s.
Arguments Throw {A} e s.

Definition M (A : Type) : Type := store → outcome A.

Definition ret {A} (a : A) : M A := λ s, Ok a s.

Definition throw {A} (e : exn) : M A := λ s, Throw e s.

Definition bind {A B} (m : M A) (k : A → M B) : M B :=
  λ s, match m s with
       | Ok a s' => k a s'
       | Throw e s' => Throw e s'
       end.

Notation "x <- m ;; k" := (bind m (λ x, k))
  (at level 100, m at next level, k at level 200, right associativity).
Notation "m ;; k" := (bind m (λ _, k))
  (at level 100, k at level 200, right associativity).

(** A value as the driver binds it to a placeholder: [undefined] is sent
    as NULL, which is read back as [null]. *)
Definition sql_bind (v : JS.value) : JS.value :=
  match v with
  | JS.Undefined => JS.Null
  | _ => v
  end.

(** Modelled from the spec: the schema of [donations] is not among the
    sources; the spec gives [donations(id, donor_name, phone, amount,
    transaction_id UNIQUE, status, created_at)] with [id] assigned by the
    store.  The insert is refused when the transaction id is taken; the new
    row gets an id that no row has. *)
Definition transaction_id_taken (tx : string) (s : store) : bool :=
  bool_decide (map_Exists (λ _ r, Donation.transaction_id r = tx) (donations s)).

(** [INSERT INTO donations (donor_name, phone, amount, transaction_id,
    status) VALUES (?, ?, ?, ?, ?)]. *)
Definition insert_donation (dn ph am : JS.value) (tx : string) (st : JS.value) : M unit :=
  λ s,
    if transaction_id_taken tx s then Throw (SqlError ER_DUP_ENTRY) s
    else
      let id := fresh (dom (donations s)) in
      Ok () (mk_store (<[id := Donation.mk (sql_bind dn) (sql_bind ph) (sql_bind am) tx
                                   (sql_bind st)]> (donations s))
                      (subscribers s)).

(** [SET status = ? WHERE transaction_id = ?] on one row. *)
Definition set_status_where (st : JS.value) (tx : string) (r : Donation.row) : Donation.row :=
  if decide (Donation.transaction_id r = tx) then Donation.set_status st r else r.

(** [UPDATE donations SET status = ? WHERE transaction_id = ?]. *)
Definition update_status_by_transaction_id (st : JS.value) (tx : string) : M unit :=
  λ s, Ok () (mk_store (set_status_where st tx <$> donations s) (subscribers s)).

(** [UPDATE donations SET status = ? WHERE id = ?]. *)
Definition update_status_by_id (st : JS.value) (id : N) : M unit :=
  λ s, Ok () (mk_store (alter (Donation.set_status (sql_bind st)) id (donations s))
                       (subscribers s)).

(** [subscribers (id VARCHAR(32) PRIMARY KEY, email VARCHAR(255) NOT NULL
    UNIQUE, created_at ...)], as created at start-up. *)
Definition email_taken (email : JS.value) (s : store) : bool :=
  bool_decide (map_Exists (λ _ e, e = email) (subscribers s)).

(** [INSERT INTO subscribers (id, email) VALUES (?, ?)].  The [id] bound by
    the handler is the decimal of a time in milliseconds, well within its
    32 characters; the email is checked against its 255. *)
Definition insert_subscriber (id : string) (email : JS.value) : M unit :=
  λ s,
    if (255 <? Text.char_length (JS.String_ email))%nat
    then Throw (SqlError ER_DATA_TOO_LONG) s
    else if bool_decide (is_Some (subscribers s !! id)) || email_taken email s
    then Throw (SqlError ER_DUP_ENTRY) s
    else Ok () (mk_store (donations s) (<[id := email]> (subscribers s))).

(** Run the body of a [try] block; [catch] turns an exception into the
    response. *)
Definition try_catch {A} (m : M A) (catch : exn → A) : store → A * store :=
  λ s, match m s with
       | Ok a s' => (a, s')
       | Throw e s' => (catch e, s')
       end.

(** The value of an expression that may raise a TypeError. *)
Definition lift {A} (o : option A) : M A :=
  match o with
  | Some a => ret a
  | None => throw TypeError
  end.

(** ** express-validator *)

Module Validator.

(** An entry of [validationResult(req).array()]. *)
Record error : Type := mk_error {
  path : string;
  value : JS.value;
  msg : string
}.

(** The library's conversion of a field before a string validator:
    [undefined] and [null] become the empty string. *)
Definition toString (v : JS.value) : string :=
  match v with
  | JS.Undefined | JS.Null => ""
  | _ => JS.String_ v
  end.

Definition isString (v : JS.value) : bool := JS.is_string v.

Definition notEmpty (v : JS.value) : bool := negb (String.eqb (toString v) "").

Definition isIn (options : list string) (v : JS.value) : bool :=
  bool_decide (toString v ∈ options).

(** [body(field).v1().v2()...] over a request body of type [B]. *)
Record chain (B : Type) : Type := mk_chain {
  field : string;
  get : B → JS.value;
  validators : list (JS.value → bool)
}.

Arguments mk_chain {B} field get validators.
Arguments field {B} c.
Arguments get {B} c.
Arguments validators {B} c.

(** A chain runs all its validators; each one that fails records an
    error under the field's name. *)
Definition run_chain {B} (b : B) (c : chain B) : list error :=
  let v := get c b in
  map (λ _, mk_error (field c) v "Invalid value")
      (List.filter (λ f : JS.value → bool, negb (f v)) (validators c)).

(** What [validationResult(req).array()] holds once the chains of the
    route have run. *)
Definition validationResult {B} (chains : list (chain B)) (b : B) : list error :=
  concat (map (run_chain b) chains).

Definition isEmpty (errs : list error) : bool :=
  match errs with [] => true | _ => false end.

End Validator.

(** ** Requests and responses *)

Module Mtn.

(** The object [createMtnPaymentRequest] resolves to. *)
Record resp : Type := mk_resp {
  success : bool;
  message : string;
  transactionId : string;
  redirectUrl : string
}.

(** [createMtnPaymentRequest({ amount, phone, transactionId })] of
    [utils/mtn.js].  The timer it starts ends in [verifyMtnWebhook], which
    logs its argument and returns it: it touches no table. *)
Definition createMtnPaymentRequest (amount phone : JS.value) (transactionId : string) : resp :=
  mk_resp true "MTN payment request simulated" transactionId
    ("mtn://pay?phone=" +:+ JS.String_ phone +:+ "&amount=" +:+ JS.String_ amount
       +:+ "&ref=" +:+ transactionId).

End Mtn.

Module Http.

Inductive body : Type :=
| Message (message : string)
| Error (error : string)
| ErrorOf (err : exn)
| Errors (errors : list Validator.error)
| Initiated (message transactionId : string) (mtnResp : Mtn.resp).

Record response : Type := mk_response { code : N; json_body : body }.

(** [res.status(c).json(b)]. *)
Definition status (c : N) (b : body) : response := mk_response c b.

(** [res.json(b)]: the status code is left at its default. *)
Definition json (b : body) : response := mk_response 200 b.

End Http.

Definition handler : Type := store → Http.response * store.

(** What a handler reads from outside the request: [Date.now()] and
    [Math.random().toString(36)]. *)
Record env : Type := mk_env { now : Z; random36 : string }.

Module DonateReq.
Record t : Type := mk { donor_name : JS.value; phone : JS.value; amount : JS.value }.
End DonateReq.

Module WebhookReq.
(** The four fields of the transaction id are text, absent ([None]) in a
    field that is missing; the two status fields are any value of a JSON
    body. *)
Record t : Type := mk {
  transactionId : option string;
  externalId : option string;
  reference : option string;
  transactionRef : option string;
  status : JS.json;
  paymentStatus : JS.json
}.
End WebhookReq.

Inductive credentials : Type := NoToken | BadToken | GoodToken.

Module StatusReq.
(** [id] is the row named by the path; [auth] is what [jwt.verify] makes of
    the cookie or header. *)
Record t : Type := mk { auth : credentials; id : N; status : JS.value }.
End StatusReq.

Module SubscribeReq.
(** The email is a primitive value, or absent.  An array or an object,
    which the pattern of the handler would test by its text, is not
    modelled. *)
Record t : Type := mk { email : JS.value }.
End SubscribeReq.

(** ** Handlers *)

Definition server_error : exn → Http.response :=
  λ _, Http.status 500 (Http.Message "Server error").

(** [a || b] on transaction ids: an absent or empty id is falsy. *)
Definition or_id (a b : option string) : option string :=
  match a with
  | Some s => if String.eqb s "" then b else a
  | None => b
  end.

(** The id the webhook reads from its payload. *)
Definition webhook_transactionId (p : WebhookReq.t) : option string :=
  or_id (or_id (or_id (WebhookReq.transactionId p) (WebhookReq.externalId p))
               (WebhookReq.reference p))
        (WebhookReq.transactionRef p).

(** [(payload.status || payload.paymentStatus || '').toString().toLowerCase()],
    [None] when [toString] throws. *)
Definition webhook_statusRaw (p : WebhookReq.t) : option string :=
  JS.toLowerCase <$>
    JS.json_toString
      (JS.json_or (JS.json_or (WebhookReq.status p) (WebhookReq.paymentStatus p))
                  (JS.Prim (JS.Str ""))).

Definition normalize_status (statusRaw : string) : string :=
  if JS.includes statusRaw "success" || JS.includes statusRaw "completed" then "confirmed"
  else if JS.includes statusRaw "pending" then "pending"
  else "failed".

(** [POST /webhook/mtn].  The status is worked out before the id is looked
    at, inside the [try]: when [toString] throws, the [catch] answers and
    neither the guard nor the update is reached.  [!transactionId] holds
    of an absent and of an empty id. *)
Definition post_webhook_mtn (payload : WebhookReq.t) : handler :=
  try_catch
    (let transactionId := webhook_transactionId payload in
     statusRaw <- lift (webhook_statusRaw payload) ;;
     let status := normalize_status statusRaw in
     match transactionId with
     | Some tx =>
         if String.eqb tx "" then
           ret (Http.status 400 (Http.Message "Missing transaction id"))
         else
           update_status_by_transaction_id (JS.Str status) tx ;;
           ret (Http.json (Http.Message "Webhook processed"))
     | None => ret (Http.status 400 (Http.Message "Missing transaction id"))
     end)
    server_error.

(** [requireAdmin] of [middleware/auth.js]: [Some] response ends the
    request, [None] is [next()]. *)
Definition requireAdmin (c : credentials) : option Http.response :=
  match c with
  | NoToken => Some (Http.status 401 (Http.Message "Unauthorized"))
  | BadToken => Some (Http.status 401 (Http.Message "Invalid or expired token"))
  | GoodToken => None
  end.

(** [[body('status').isIn(['pending', 'confirmed', 'failed'])]]. *)
Definition status_chains : list (Validator.chain StatusReq.t) :=
  [Validator.mk_chain "status" StatusReq.status
     [Validator.isIn ["pending"; "confirmed"; "failed"]]].

(** The last callback of [PUT /donations/:id/status].  [errs] is what the
    chains recorded on the request; the callback does not read it. *)
Definition put_donation_status_callback (errs : list Validator.error) (req : StatusReq.t) : handler :=
  try_catch
    (let id := StatusReq.id req in
     let status := StatusReq.status req in
     update_status_by_id status id ;;
     ret (Http.json (Http.Message "Status updated")))
    server_error.

(** [PUT /donations/:id/status]: [requireAdmin], the chains, the callback. *)
Definition put_donation_status (req : StatusReq.t) : handler :=
  match requireAdmin (StatusReq.auth req) with
  | Some res => λ s, (res, s)
  | None =>
      put_donation_status_callback (Validator.validationResult status_chains req) req
  end.

(** [POST /subscribe]. *)
Definition post_subscribe (e : env) (req : SubscribeReq.t) : handler :=
  λ s,
    let email := SubscribeReq.email req in
    if JS.not email || negb (email_re_test email) then
      (Http.status 400 (Http.Error "Valid email required"), s)
    else
      let id := JS.String_ (JS.Num (now e)) in
      match insert_subscriber id email s with
      | Throw (SqlError ER_DUP_ENTRY) s' =>
          (Http.status 409 (Http.Error "Email already subscribed"), s')
      | Throw err s' => (Http.status 500 (Http.ErrorOf err), s')
      | Ok _ s' => (Http.status 201 (Http.Message "Subscribed successfully"), s')
      end.

(** ['tx_' + Date.now() + Math.random().toString(36).slice(2, 9)]. *)
Definition new_transactionId (e : env) : string :=
  ("tx_" +:+ JS.String_ (JS.Num (now e))) +:+ JS.slice 2 9 (random36 e).

Section Donate.

(** [isFloat({ gt: 0 })] of express-validator on a field: a test on the
    floating-point value of its text, which is not modelled. *)
Variable isFloat_gt0 : JS.value → bool.

Definition donate_chains : list (Validator.chain DonateReq.t) :=
  [Validator.mk_chain "donor_name" DonateReq.donor_name
     [Validator.isString; Validator.notEmpty];
   Validator.mk_chain "phone" DonateReq.phone
     [Validator.isString; Validator.notEmpty];
   Validator.mk_chain "amount" DonateReq.amount [isFloat_gt0]].

(** The callback of [POST /donate]; [err] is [validationResult(req)]. *)
Definition post_donate_callback (e : env) (err : list Validator.error) (req : DonateReq.t) : handler :=
  try_catch
    (if negb (Validator.isEmpty err) then
       ret (Http.status 400 (Http.Errors err))
     else
       let donor_name := DonateReq.donor_name req in
       let phone := DonateReq.phone req in
       let amount := DonateReq.amount req in
       let transactionId := new_transactionId e in
       insert_donation donor_name phone amount transactionId (JS.Str "pending") ;;
       let mtnResp := Mtn.createMtnPaymentRequest amount phone transactionId in
       ret (Http.json (Http.Initiated "Donation initiated" transactionId mtnResp)))
    server_error.

(** [POST /donate]: the chains, then the callback. *)
Definition post_donate (e : env) (req : DonateReq.t) : handler :=
  post_donate_callback e (Validator.validationResult donate_chains req) req.

(** One request served by the API. *)
Inductive request : Type :=
| Donate (e : env) (req : DonateReq.t)
| Webhook (payload : WebhookReq.t)
| AdminStatus (req : StatusReq.t)
| Subscribe (e : env) (req : SubscribeReq.t).

Definition serve (rq : request) : handler :=
  match rq with
  | Donate e req => post_donate e req
  | Webhook payload => post_webhook_mtn payload
  | AdminStatus req => put_donation_status req
  | Subscribe e req => post_subscribe e req
  end.

(** The stores the API can be in: the empty tables, then any number of
    requests. *)
Inductive reachable : store → Prop :=
| reachable_empty : reachable empty_store
| reachable_serve rq s : reachable s → reachable (serve rq s).2.

End Donate.

(** ** The claims in the words of the specification *)

(** The statuses of the data model. *)
Definition status_enum : list JS.value :=
  [JS.Str "pending"; JS.Str "confirmed"; JS.Str "failed"].

(** A terminal state: confirmed or failed. *)
Definition terminal (v : JS.value) : Prop :=
  v = JS.Str "confirmed" ∨ v = JS.Str "failed".

(** The payload's status (or paymentStatus) field, [None] when there is
    none to read. *)
Definition status_field (p : WebhookReq.t) : option JS.json :=
  if JS.json_truthy (WebhookReq.status p) then Some (WebhookReq.status p)
  else if JS.json_truthy (WebhookReq.paymentStatus p) then Some (WebhookReq.paymentStatus p)
  else None.

(** The status the specification derives from the text of the field:
    lower-case it and look for the three words; anything else is a
    failure. *)
Definition classify (text : string) : string :=
  let text := JS.toLowerCase text in
  if JS.includes text "success" then "confirmed"
  else if JS.includes text "completed" then "confirmed"
  else if JS.includes text "pending" then "pending"
  else "failed".

(** The status derived from a payload: that of the text of its field, and
    failed when it has no field.  There is none ([None]) when the field has
    no text, the conversion throwing. *)
Definition derived_status (p : WebhookReq.t) : option string :=
  match status_field p with
  | None => Some "failed"
  | Some v => classify <$> JS.to_text v
  end.

(** The values whose conversion to text throws: an object with a property
    of its own named [toString], and an array that holds such a value. *)
Fixpoint unconvertible (v : JS.json) : bool :=
  match v with
  | JS.Prim _ => false
  | JS.Arr elements => existsb unconvertible elements
  | JS.Obj members => JS.has_own "toString" members
  end.

(** All four fields that may carry the transaction id are absent or
    empty. *)
Definition no_id (o : option string) : Prop := o = None ∨ o = Some "".

Definition no_transaction_id (p : WebhookReq.t) : Prop :=
  no_id (WebhookReq.transactionId p) ∧ no_id (WebhookReq.externalId p) ∧
  no_id (WebhookReq.reference p) ∧ no_id (WebhookReq.transactionRef p).

(** The payload carries the transaction id [tx]. *)
Definition carries_id (p : WebhookReq.t) (tx : string) : Prop :=
  webhook_transactionId p = Some tx ∧ tx ≠ "".

#[global] Instance carries_id_dec p tx : Decision (carries_id p tx).
Proof. unfold carries_id. apply _. Defined.

(** No row of the store has transaction id [tx]. *)
Definition unknown_transaction (tx : string) (s : store) : Prop :=
  ∀ i r, donations s !! i = Some r → Donation.transaction_id r ≠ tx.

(** A non-empty string. *)
Definition non_empty_string (v : JS.value) : Prop := ∃ t, v = JS.Str t ∧ t ≠ "".

(** A valid initiation request: non-empty donor_name, non-empty phone, an
    amount greater than zero. *)
Definition valid_donation (isFloat_gt0 : JS.value → bool) (req : DonateReq.t) : Prop :=
  non_empty_string (DonateReq.donor_name req) ∧
  non_empty_string (DonateReq.phone req) ∧
  isFloat_gt0 (DonateReq.amount req) = true.

(** The request violates the constraint on field [f]. *)
Definition violates (isFloat_gt0 : JS.value → bool) (req : DonateReq.t) (f : string) : Prop :=
  (f = "donor_name" ∧ ¬ non_empty_string (DonateReq.donor_name req)) ∨
  (f = "phone" ∧ ¬ non_empty_string (DonateReq.phone req)) ∨
  (f = "amount" ∧ isFloat_gt0 (DonateReq.amount req) = false).

(** The row a request asks for. *)
Definition pending_row (e : env) (req : DonateReq.t) : Donation.row :=
  Donation.mk (DonateReq.donor_name req) (DonateReq.phone req)
    (sql_bind (DonateReq.amount req)) (new_transactionId e) (JS.Str "pending").

(** The number of characters of a clock reading. *)
Definition digits (n : Z) : nat := String.length (JS.String_ (JS.Num n)).

(** What a transaction id is made from: a clock reading and the characters
    taken from a draw. *)
Definition seed : Type := Z * string.

Definition id_of_seed (sd : seed) : string :=
  ("tx_" +:+ JS.String_ (JS.Num sd.1)) +:+ sd.2.

(** The seed of [POST /donate]: the clock reading and the seven characters
    taken from the draw. *)
Definition id_seed (e : env) : seed := (now e, JS.slice 2 9 (random36 e)).

(** Every row has a status of the enumeration. *)
Definition statuses_in_enum (s : store) : Prop :=
  ∀ i r, donations s !! i = Some r → Donation.status r ∈ status_enum.

(** What [POST /subscribe] lets through to the table. *)
Definition acceptable_email (v : JS.value) : Prop :=
  JS.not v = false ∧ email_re_test v = true ∧
  (Text.char_length (JS.String_ v) ≤ 255)%nat.

Definition subscribers_ok (s : store) : Prop :=
  ∀ i v, subscribers s !! i = Some v → acceptable_email v.

(** ** Sample requests and stores *)

(** [isFloat({ gt: 0 })] where it is plain: on the integer numbers.  The
    amounts of the sample requests are such numbers. *)
Definition isFloat_gt0_on_integers (v : JS.value) : bool :=
  match v with
  | JS.Num n => (0 <? n)%Z
  | _ => false
  end.

Definition sample_env : env := mk_env 1700000000000 "0.4fzyo82mvyr".

Definition sample_tx : string := "tx_17000000000004fzyo82".

Definition alice_confirmed : Donation.row :=
  Donation.mk (JS.Str "Alice") (JS.Str "0780000000") (JS.Num 1000) sample_tx
    (JS.Str "confirmed").

Definition alice_pending : Donation.row :=
  Donation.mk (JS.Str "Alice") (JS.Str "0780000000") (JS.Num 1000) sample_tx
    (JS.Str "pending").

Definition store_confirmed : store := mk_store {[1%N := alice_confirmed]} ∅.

Definition store_pending : store := mk_store {[1%N := alice_pending]} ∅.

Definition other_tx : string := "tx_1700000000000zq0k3ab".

Definition bob_failed : Donation.row :=
  Donation.mk (JS.Str "Bob") (JS.Str "0781111111") (JS.Num 500) other_tx (JS.Str "failed").

(** Two donations, initiated in the same millisecond. *)
Definition store_two : store := mk_store {[1%N := alice_pending; 2%N := bob_failed]} ∅.

Definition payload_failed : WebhookReq.t :=
  WebhookReq.mk (Some sample_tx) None None None
    (JS.Prim (JS.Str "FAILED")) (JS.Prim JS.Undefined).

Definition payload_completed : WebhookReq.t :=
  WebhookReq.mk None (Some sample_tx) None None
    (JS.Prim JS.Undefined) (JS.Prim (JS.Str "COMPLETED")).

Definition payload_no_id : WebhookReq.t :=
  WebhookReq.mk None (Some "") None None
    (JS.Prim (JS.Str "COMPLETED")) (JS.Prim JS.Undefined).

(** [{toString: 1}]: an object whose [toString] is no function. *)
Definition no_text : JS.json := JS.Obj [("toString", JS.Prim (JS.Num 1))].

Definition payload_no_text : WebhookReq.t :=
  WebhookReq.mk (Some sample_tx) None None None no_text (JS.Prim JS.Undefined).

Definition payload_no_id_no_text : WebhookReq.t :=
  WebhookReq.mk None (Some "") None None no_text (JS.Prim JS.Undefined).

Definition payload_unknown : WebhookReq.t :=
  WebhookReq.mk (Some "tx_unknown") None None None
    (JS.Prim (JS.Str "SUCCESSFUL")) (JS.Prim JS.Undefined).

Definition payload_unknown_no_text : WebhookReq.t :=
  WebhookReq.mk (Some "tx_unknown") None None None
    (JS.Arr [JS.Prim (JS.Str "SUCCESSFUL"); no_text]) (JS.Prim JS.Undefined).

(** The same millisecond as [sample_env], another draw. *)
Definition second_env : env := mk_env 1700000000000 "0.zq0k3abx1c".

Definition bob_donation : DonateReq.t :=
  DonateReq.mk (JS.Str "Bob") (JS.Str "0781111111") (JS.Num 500).

Definition sample_donation : DonateReq.t :=
  DonateReq.mk (JS.Str "Alice") (JS.Str "0780000000") (JS.Num 1000).

Definition nameless_free_donation : DonateReq.t :=
  DonateReq.mk (JS.Str "") (JS.Str "0780000000") (JS.Num 0).

Definition refund_request : StatusReq.t :=
  StatusReq.mk GoodToken 1 (JS.Str "refunded").

Definition fan : SubscribeReq.t := SubscribeReq.mk (JS.Str "fan@band.rw").

Definition store_with_fan : store :=
  (serve isFloat_gt0_on_integers (Subscribe sample_env fan) empty_store).2.

(** The store after one initiation. *)
Definition store_with_alice : store :=
  (serve isFloat_gt0_on_integers (Donate sample_env sample_donation) empty_store).2.

(** ** Further readings of the handlers *)

(** The four fields the webhook looks at, in the order it looks at them. *)
Definition id_fields (p : WebhookReq.t) : list (option string) :=
  [WebhookReq.transactionId p; WebhookReq.externalId p;
   WebhookReq.reference p; WebhookReq.transactionRef p].

(** A field holds an id: it is present and not empty. *)
Definition holds_id (o : option string) : bool :=
  match o with
  | Some s => negb (String.eqb s "")
  | None => false
  end.

(** Every character of a string has the property. *)
Fixpoint all_chars (P : ascii → Prop) (s : string) : Prop :=
  match s with
  | EmptyString => True
  | String c t => P c ∧ all_chars P t
  end.

(** The characters of a decimal numeral: the sign and the ten digits. *)
Definition numeral_char (c : ascii) : Prop :=
  (N_of_ascii c = 45 ∨ 48 ≤ N_of_ascii c ≤ 57)%N.

(** No two subscribers share an email. *)
Definition emails_unique (s : store) : Prop :=
  ∀ i j v, subscribers s !! i = Some v → subscribers s !! j = Some v → i = j.

(** A request that cannot take a status out of the enumeration: anything
    but an authenticated override whose status is not listed. *)
Definition keeps_to_enum (rq : request) : Prop :=
  match rq with
  | AdminStatus req =>
      StatusReq.auth req = GoodToken → StatusReq.status req ∈ status_enum
  | _ => True
  end.



Definition payload_other : WebhookReq.t :=
  WebhookReq.mk (Some "tx_other") None None None
    (JS.Prim (JS.Str "pending")) (JS.Prim JS.Undefined).

Definition bob : SubscribeReq.t := SubscribeReq.mk (JS.Str "bob@band.rw").

Definition later_env : env := mk_env 1700000005000 "0.i".

(** The store after two subscriptions. *)
Definition store_with_fan_and_bob : store :=
  (serve isFloat_gt0_on_integers (Subscribe later_env bob) store_with_fan).2.

(** ** What a pattern matches *)

(** The strings of a pattern, as the pattern reads: a character, a
    character that is no space, one pattern after the other, one or more
    repetitions. *)
Inductive re_matches (is_space : ascii → bool) : Regex.re → string → Prop :=
| matches_chr c : re_matches is_space (Regex.Chr c) (String c "")
| matches_nonspace c :
    is_space c = false → re_matches is_space Regex.NonSpace (String c "")
| matches_seq r1 r2 s1 s2 :
    re_matches is_space r1 s1 → re_matches is_space r2 s2 →
    re_matches is_space (Regex.Seq r1 r2) (s1 +:+ s2)
| matches_plus_one r s :
    re_matches is_space r s → re_matches is_space (Regex.Plus r) s
| matches_plus_more r s1 s2 :
    re_matches is_space r s1 → re_matches is_space (Regex.Plus r) s2 →
    re_matches is_space (Regex.Plus r) (s1 +:+ s2).

(** The strings of a sequence of patterns. *)
Fixpoint matches_all (is_space : ascii → bool) (k : list Regex.re) (s : string) : Prop :=
  match k with
  | [] => s = ""
  | r :: k' =>
      ∃ s1 s2, s = s1 +:+ s2 ∧ re_matches is_space r s1 ∧ matches_all is_space k' s2
  end.

(** One or more characters, none of them a one-byte space. *)
Definition non_space_run (s : string) : Prop :=
  s ≠ "" ∧ all_chars (λ c, Text.is_space c = false) s.

(** Something, an at sign, something, a dot, something. *)
Definition email_shaped (s : string) : Prop :=
  ∃ a b c, s = a +:+ "@" +:+ b +:+ "." +:+ c ∧
           non_space_run a ∧ non_space_run b ∧ non_space_run c.

(** ** The token of a request ([middleware/auth.js]) *)

(** The string without its first [n] characters. *)
Fixpoint drop_chars (n : nat) (s : string) : string :=
  match n, s with
  | O, _ => s
  | S n', String _ t => drop_chars n' t
  | S _, EmptyString => EmptyString
  end.

(** [s.replace(pat, rep)] with a text for pattern and a replacement free of
    [$]: the first occurrence of [pat] becomes [rep]. *)
Fixpoint replace_first (pat rep s : string) : string :=
  if String.prefix pat s then rep +:+ drop_chars (String.length pat) s
  else match s with
       | EmptyString => EmptyString
       | String c t => String c (replace_first pat rep t)
       end.

(** [req.cookies?.token || req.header('Authorization')?.replace('Bearer ', '')],
    for the cookie [token] and the header [Authorization] of the request,
    each a text or absent. *)
Definition request_token (cookie authorization : option string) : option string :=
  or_id cookie (replace_first "Bearer " "" <$> authorization).

(** What [requireAdmin] makes of a request: no token, a token that
    [jwt.verify] throws on, or one it accepts.  [verifies] stands for
    [jwt.verify] with the secret of the deployment. *)
Definition credentials_of (verifies : string → bool) (cookie authorization : option string) : credentials :=
  match request_token cookie authorization with
  | Some token =>
      if String.eqb token "" then NoToken
      else if verifies token then GoodToken else BadToken
  | None => NoToken
  end.

(** ** Events ([routes/events.js]) *)

Module Event.

(** A row of [events]: the four columns the handlers write, each holding
    the value bound to it. *)
Record row : Type := mk {
  name : JS.value;
  date : JS.value;
  venue : JS.value;
  status : JS.value
}.

End Event.

(** An answer with a body of type [B]. *)
Record reply (B : Type) : Type := mk_reply { reply_code : N; reply_body : B }.

Arguments mk_reply {B} reply_code reply_body.
Arguments reply_code {B} r.
Arguments reply_body {B} r.

(** ** The other writer of [donations] (the donations router, the third
       file of [routes/photo.js])

    It is mounted by two of the three [server.js] of the sources, and
    inserts rows of its own, with ids of the same make from six characters
    of the draw. *)

Module DonationsRouter.

Inductive body : Type :=
| Error (error : string)
| NewDonation (id : N) (donor_name phone amount : JS.value) (transaction_id status : string)
    (created_at : Z).

(** ['tx_' + Date.now() + Math.random().toString(36).substring(2, 8)]. *)
Definition generateTransactionId (e : env) : string :=
  ("tx_" +:+ JS.String_ (JS.Num (now e))) +:+ JS.slice 2 8 (random36 e).

(** [POST /]; [created] is the [new Date()] of the answer. *)
Definition post_donation (e : env) (created : Z) (req : DonateReq.t) : store → reply body * store :=
  λ s,
    let donor_name := DonateReq.donor_name req in
    let phone := DonateReq.phone req in
    let amount := DonateReq.amount req in
    if JS.not donor_name || JS.not phone || JS.not amount then
      (mk_reply 400 (Error "Missing required fields"), s)
    else
      let transaction_id := generateTransactionId e in
      let insertId := fresh (dom (donations s)) in
      match insert_donation donor_name phone amount transaction_id (JS.Str "pending") s with
      | Throw _ s' => (mk_reply 500 (Error "Database error"), s')
      | Ok _ s' =>
          (mk_reply 201
             (NewDonation insertId donor_name phone amount transaction_id "pending" created),
           s')
      end.

(** Its seed: the clock reading and the six characters taken from the
    draw. *)
Definition id_seed (e : env) : seed := (now e, JS.slice 2 8 (random36 e)).

(** The seed the request makes an id from: none when it is answered with
    400, before an id is made. *)
Definition seeds_of (e : env) (req : DonateReq.t) : list seed :=
  if JS.not (DonateReq.donor_name req) || JS.not (DonateReq.phone req)
     || JS.not (DonateReq.amount req)
  then [] else [id_seed e].

End DonationsRouter.

(** The seed a request of the API makes an id from: that of an initiation
    that passes validation, which is where [POST /donate] makes its id. *)
Definition seeds_of (isFloat_gt0 : JS.value → bool) (rq : request) : list seed :=
  match rq with
  | Donate e req =>
      if Validator.isEmpty (Validator.validationResult (donate_chains isFloat_gt0) req)
      then [id_seed e] else []
  | _ => []
  end.

(** The stores reached from the empty tables by the requests that write to
    [donations], those of the donations router included, with the seeds
    their ids were made from, the latest first. *)
Inductive served (isFloat_gt0 : JS.value → bool) : list seed → store → Prop :=
| served_nothing : served isFloat_gt0 [] empty_store
| served_request rq h s :
    served isFloat_gt0 h s →
    served isFloat_gt0 (seeds_of isFloat_gt0 rq ++ h) (serve isFloat_gt0 rq s).2
| served_donations_router e created req h s :
    served isFloat_gt0 h s →
    served isFloat_gt0 (DonationsRouter.seeds_of e req ++ h)
      (DonationsRouter.post_donation e created req s).2.

Module Events.

(** The bodies of the answers.  [EventJson] is an event with its id: the
    row read back by [GET /:id] and the object built by [POST /] and
    [PUT /:id]. *)
Inductive body : Type :=
| Error (error : string)
| Message (message : string)
| EventJson (id : N) (r : Event.row).

(** The argument of [sendMail]. *)
Record mail : Type := mk_mail {
  to : JS.value;
  subject : string;
  text : string;
  html : string
}.

(** What the loop over the subscribers did: the mails [sendMail] took, and
    those it threw on, which are logged; each in the order of the loop. *)
Record fan_out : Type := mk_fan_out { delivered : list mail; failed : list mail }.

Definition nl : string := String (ascii_of_N 10) EmptyString.

(** The mail for one subscriber, from the [name], [date] and [venue] of the
    request. *)
Definition event_mail (name date venue : JS.value) (email : JS.value) : mail :=
  mk_mail email
    ("New Event: " +:+ JS.String_ name)
    ("A new event has been released!" +:+ nl +:+ nl +:+ "Event: " +:+ JS.String_ name
       +:+ nl +:+ "Date: " +:+ JS.String_ date +:+ nl +:+ "Venue: " +:+ JS.String_ venue)
    ("<h2>New Event Released!</h2><p><b>Event:</b> " +:+ JS.String_ name
       +:+ "<br><b>Date:</b> " +:+ JS.String_ date
       +:+ "<br><b>Venue:</b> " +:+ JS.String_ venue +:+ "</p>").

(** [for (const sub of subs) { try { await sendMail(...) } catch { log } }]:
    [sendMail] answers [false] where it throws. *)
Fixpoint notify (sendMail : mail → bool) (mk : JS.value → mail) (subs : list JS.value) : fan_out :=
  match subs with
  | [] => mk_fan_out [] []
  | sub :: rest =>
      let m := mk sub in
      let out := notify sendMail mk rest in
      if sendMail m then mk_fan_out (m :: delivered out) (failed out)
      else mk_fan_out (delivered out) (m :: failed out)
  end.

(** The body of [POST /] and of [PUT /:id]. *)
Record event_body : Type := mk_body {
  name : JS.value;
  date : JS.value;
  venue : JS.value;
  status : JS.value
}.

(** [GET /:id]. *)
Definition get_event (id : N) (t : gmap N Event.row) : reply body :=
  match t !! id with
  | None => mk_reply 404 (Error "Event not found")
  | Some r => mk_reply 200 (EventJson id r)
  end.

(** The row a query writes from the four values bound to it. *)
Definition bound_row (name date venue status : JS.value) : Event.row :=
  Event.mk (sql_bind name) (sql_bind date) (sql_bind venue) (sql_bind status).

(** [POST /].  The default of the destructuring stands in for a status
    that is [undefined] only.  The answer is built from the values of the
    request, the row from what the driver binds. *)
Definition post_event (b : event_body) (t : gmap N Event.row) : reply body * gmap N Event.row :=
  let status := match status b with JS.Undefined => JS.Str "scheduled" | v => v end in
  if JS.not (name b) || JS.not (date b) || JS.not (venue b) then
    (mk_reply 400 (Error "Name, date, and venue are required"), t)
  else
    let insertId := fresh (dom t) in
    (mk_reply 201 (EventJson insertId (Event.mk (name b) (date b) (venue b) status)),
     <[insertId := bound_row (name b) (date b) (venue b) status]> t).

(** [PUT /:id]: the update, the answer, and then, for a status that is
    ['confirmed'], one mail per row of [SELECT email FROM subscribers],
    [subs] here, in the order of the rows.  All four columns are written:
    a field the request leaves out is [undefined], bound as NULL.  The
    answer is built from the values of the request. *)
Definition put_event (sendMail : mail → bool) (subs : list JS.value) (id : N) (b : event_body) (t : gmap N Event.row) : reply body * gmap N Event.row * fan_out :=
  match t !! id with
  | None => (mk_reply 404 (Error "Event not found"), t, mk_fan_out [] [])
  | Some _ =>
      (mk_reply 200 (EventJson id (Event.mk (name b) (date b) (venue b) (status b))),
       <[id := bound_row (name b) (date b) (venue b) (status b)]> t,
       if decide (status b = JS.Str "confirmed")
       then notify sendMail (event_mail (name b) (date b) (venue b)) subs
       else mk_fan_out [] [])
  end.

(** [DELETE /:id]. *)
Definition delete_event (id : N) (t : gmap N Event.row) : reply body * gmap N Event.row :=
  match t !! id with
  | None => (mk_reply 404 (Error "Event not found"), t)
  | Some _ => (mk_reply 200 (Message "Event deleted successfully"), delete id t)
  end.

(** The rows of [SELECT email FROM subscribers]. *)
Definition subscriber_emails (s : store) : list JS.value :=
  (map_to_list (subscribers s)).*2.

End Events.

Definition sample_event : Events.event_body :=
  Events.mk_body (JS.Str "Kigali Live") (JS.Str "2025-12-31") (JS.Str "BK Arena") JS.Undefined.

Definition sample_event_confirmed : Events.event_body :=
  Events.mk_body (JS.Str "Kigali Live") (JS.Str "2025-12-31") (JS.Str "BK Arena")
    (JS.Str "confirmed").

Definition one_event : gmap N Event.row := (Events.post_event sample_event ∅).2.

(** [{name: 'Renamed'}]: a request that leaves out date, venue and
    status. *)
Definition rename_event : Events.event_body :=
  Events.mk_body (JS.Str "Renamed") JS.Undefined JS.Undefined JS.Undefined.

(** A mailer that throws on one address. *)
Definition flaky_mailer (m : Events.mail) : bool :=
  negb (bool_decide (Events.to m = JS.Str "fan@band.rw")).

(** ** Blogs (the first half of [routes/blogs_new.js]) *)

Module Blog.

(** A row of [blogs].  [image_url] is a file name or NULL, [likes] an
    integer or NULL, the two times are readings of the clock of the
    database. *)
Record row : Type := mk {
  title : JS.value;
  content : JS.value;
  category : JS.value;
  image_url : option string;
  likes : option Z;
  created_at : Z;
  updated_at : Z
}.

End Blog.

Module Blogs.

(** The object of the answers [{data: ...}] of [POST /] and [PUT /:id];
    its two times are what the row holds or [new Date()]. *)
Record blog_json : Type := mk_json {
  id : N;
  title : JS.value;
  content : JS.value;
  category : JS.value;
  image_url : option string;
  likes : option Z;
  created_at : Z;
  updated_at : Z
}.

Inductive body : Type :=
| Message (message : string)
| Data (data : blog_json)
| Likes (likes : Z).

(** The fields of the form, and the name under which the upload, if
    there is one, was saved. *)
Record blog_body : Type := mk_body {
  b_title : JS.value;
  b_content : JS.value;
  b_category : JS.value;
  file : option string
}.

(** [NOW()] in the database and [new Date()] in the server. *)
Record clocks : Type := mk_clocks { db_now : Z; js_now : Z }.

(** [x || null] for a file name or NULL. *)
Definition or_null (o : option string) : option string :=
  match o with
  | Some f => if String.eqb f "" then None else Some f
  | None => None
  end.

(** [POST /]. *)
Definition post_blog (c : clocks) (b : blog_body) (t : gmap N Blog.row) : reply body * gmap N Blog.row :=
  if JS.not (b_title b) || JS.not (b_content b) then
    (mk_reply 400 (Message "Title and content required"), t)
  else
    let category := JS.or (b_category b) (JS.Str "general") in
    let insertId := fresh (dom t) in
    (mk_reply 201
       (Data (mk_json insertId (b_title b) (b_content b) category (file b) (Some 0%Z)
                (js_now c) (js_now c))),
     <[insertId := Blog.mk (b_title b) (b_content b) category (file b) (Some 0%Z)
                     (db_now c) (db_now c)]> t).

(** [PUT /:id]. *)
Definition put_blog (c : clocks) (id : N) (b : blog_body) (t : gmap N Blog.row) : reply body * gmap N Blog.row :=
  match t !! id with
  | None => (mk_reply 404 (Message "Blog not found"), t)
  | Some blog =>
      let imageFile := match file b with Some f => Some f | None => Blog.image_url blog end in
      let title := JS.or (b_title b) (Blog.title blog) in
      let content := JS.or (b_content b) (Blog.content blog) in
      let category := JS.or (b_category b) (Blog.category blog) in
      (mk_reply 200
         (Data (mk_json id title content category (or_null imageFile) (Blog.likes blog)
                  (Blog.created_at blog) (js_now c))),
       <[id := Blog.mk title content category imageFile (Blog.likes blog)
                 (Blog.created_at blog) (db_now c)]> t)
  end.

(** [DELETE /:id]. *)
Definition delete_blog (id : N) (t : gmap N Blog.row) : reply body * gmap N Blog.row :=
  match t !! id with
  | None => (mk_reply 404 (Message "Blog not found"), t)
  | Some _ => (mk_reply 200 (Message "Blog deleted"), delete id t)
  end.

Definition set_likes (n : Z) (r : Blog.row) : Blog.row :=
  Blog.mk (Blog.title r) (Blog.content r) (Blog.category r) (Blog.image_url r) (Some n)
    (Blog.created_at r) (Blog.updated_at r).

(** [rows[0].likes || 0]. *)
Definition likes_or_0 (r : Blog.row) : Z := default 0%Z (Blog.likes r).

(** [POST /:id/like]. *)
Definition like_blog (id : N) (t : gmap N Blog.row) : reply body * gmap N Blog.row :=
  match t !! id with
  | None => (mk_reply 404 (Message "Blog not found"), t)
  | Some r =>
      let newLikes := (likes_or_0 r + 1)%Z in
      (mk_reply 200 (Likes newLikes), <[id := set_likes newLikes r]> t)
  end.

End Blogs.

Definition sample_blog : Blogs.blog_body :=
  Blogs.mk_body (JS.Str "On tour") (JS.Str "We play Kigali.") JS.Undefined None.

Definition sample_clocks : Blogs.clocks := Blogs.mk_clocks 1700000000 1700000000123.

Definition one_blog : gmap N Blog.row := (Blogs.post_blog sample_clocks sample_blog ∅).2.

Definition sample_blog_row : Blog.row :=
  Blog.mk (JS.Str "On tour") (JS.Str "We play Kigali.") (JS.Str "general") None (Some 0%Z)
    1700000000 1700000000.

Definition retitle : Blogs.blog_body :=
  Blogs.mk_body (JS.Str "On tour again") (JS.Str "") JS.Undefined None.

(** ** Contact messages ([POST /contact-message] of [routes/public.js],
       [DELETE /contact-message/:id] of [routes/admin.js]) *)

Module ContactMessage.

Record row : Type := mk { name : JS.value; email : JS.value; message : JS.value }.

End ContactMessage.

Module Messages.

Record message_body : Type := mk_body {
  name : JS.value;
  email : JS.value;
  message : JS.value
}.

(** [body(field).v1().withMessage(m1)...]: each validator with the message
    it records when it fails. *)
Record chain : Type := mk_chain {
  field : string;
  get : message_body → JS.value;
  validators : list ((JS.value → bool) * string)
}.

Definition run_chain (b : message_body) (c : chain) : list Validator.error :=
  let v := get c b in
  map (λ vm : (JS.value → bool) * string, Validator.mk_error (field c) v vm.2)
      (List.filter (λ vm : (JS.value → bool) * string, negb (vm.1 v)) (validators c)).

Definition validationResult (chains : list chain) (b : message_body) : list Validator.error :=
  concat (map (run_chain b) chains).

Section Post.

(** [isEmail()] of express-validator, not modelled. *)
Variable isEmail : JS.value → bool.

Definition chains : list chain :=
  [mk_chain "name" name [(Validator.notEmpty, "Name is required")];
   mk_chain "email" email [(isEmail, "Valid email is required")];
   mk_chain "message" message [(Validator.notEmpty, "Message is required")]].

(** [POST /contact-message]. *)
Definition post_contact_message (b : message_body) (t : gmap N ContactMessage.row) : Http.response * gmap N ContactMessage.row :=
  let errors := validationResult chains b in
  if negb (Validator.isEmpty errors) then
    (Http.status 400 (Http.Errors errors), t)
  else
    (Http.status 201 (Http.Message "Message sent successfully!"),
     <[fresh (dom t) := ContactMessage.mk (name b) (email b) (message b)]> t).

End Post.

(** [DELETE /contact-message/:id], behind [requireAdmin]. *)
Definition delete_contact_message (c : credentials) (id : N) (t : gmap N ContactMessage.row) : Http.response * gmap N ContactMessage.row :=
  match requireAdmin c with
  | Some res => (res, t)
  | None =>
      match t !! id with
      | None => (Http.status 404 (Http.Message "Message not found"), t)
      | Some _ => (Http.json (Http.Message "Message deleted successfully"), delete id t)
      end
  end.

End Messages.

(** A stand-in for [isEmail()] on the sample requests: the pattern of the
    subscriptions. *)
Definition sample_isEmail (v : JS.value) : bool := JS.is_string v && email_re_test v.

Definition hello : Messages.message_body :=
  Messages.mk_body (JS.Str "Alice") (JS.Str "alice@band.rw") (JS.Str "Hello!").

Definition nameless_hello : Messages.message_body :=
  Messages.mk_body (JS.Str "") (JS.Str "alice") (JS.Str "Hello!").

(** ** Administrators ([POST /register] and [POST /login] of
       [routes/admin.js]) *)

Module Admin.

(** A row of [admin]: [password] is the hash. *)
Record row : Type := mk { username : JS.value; email : JS.value; password : string }.

Record register_body : Type := mk_register {
  r_username : JS.value;
  r_email : JS.value;
  r_password : JS.value
}.

Record login_body : Type := mk_login { identifier : JS.value; l_password : JS.value }.

Inductive body : Type :=
| Message (message : string)
| Errors (errors : list Validator.error)
| LoggedIn (message : string) (token : string).

(** An answer and the [token] cookie it sets, if it sets one. *)
Record answer : Type := mk_answer { code : N; json : body; cookie : option string }.

Section Handlers.

(** [isEmail()] and [isLength({ min: 6 })] of express-validator,
    [bcrypt.hash(password, 10)] for the salt it draws, [bcrypt.compare],
    and [jwt.sign] of the id, username and email of a row with the secret
    and expiry of the deployment: none of them modelled. *)
Variable isEmail : JS.value → bool.
Variable isLength_min6 : JS.value → bool.
Variable bcrypt_hash : string → string → string.
Variable bcrypt_compare : string → string → bool.
Variable jwt_sign : N → JS.value → JS.value → string.

Definition register_chains : list (Validator.chain register_body) :=
  [Validator.mk_chain "username" r_username [Validator.isString; Validator.notEmpty];
   Validator.mk_chain "email" r_email [isEmail];
   Validator.mk_chain "password" r_password [Validator.isString; isLength_min6]].

(** [SELECT id FROM admin WHERE email = ? OR username = ?] finds a row. *)
Definition admin_exists (email username : JS.value) (t : gmap N row) : bool :=
  bool_decide (map_Exists (λ _ r, Admin.email r = email ∨ Admin.username r = username) t).

(** [POST /register]; [salt] is the salt [bcrypt.hash] draws. *)
Definition post_register (salt : string) (b : register_body) (t : gmap N row) : answer * gmap N row :=
  let errors := Validator.validationResult register_chains b in
  if negb (Validator.isEmpty errors) then (mk_answer 400 (Errors errors) None, t)
  else if admin_exists (r_email b) (r_username b) t then
    (mk_answer 400 (Message "Admin already exists") None, t)
  else
    match r_password b with
    | JS.Str password =>
        let hashedPassword := bcrypt_hash salt password in
        (mk_answer 200 (Message "Admin created successfully") None,
         <[fresh (dom t) := mk (r_username b) (r_email b) hashedPassword]> t)
    | _ => (mk_answer 500 (Message "Server error") None, t)
    end.

Definition login_chains : list (Validator.chain login_body) :=
  [Validator.mk_chain "identifier" identifier [Validator.isString; Validator.notEmpty];
   Validator.mk_chain "password" l_password [Validator.isString; Validator.notEmpty]].

(** The row is one of [SELECT * FROM admin WHERE ${queryField} = ?]. *)
Definition selected (identifier : string) (r : row) : bool :=
  if JS.includes identifier "@" then bool_decide (email r = JS.Str identifier)
  else bool_decide (username r = JS.Str identifier).

(** The rows of the query with their ids, in the order the table gives
    them. *)
Definition select_admin (identifier : string) (t : gmap N row) : list (N * row) :=
  List.filter (λ ir : N * row, selected identifier ir.2) (map_to_list t).

(** [POST /login].  An identifier or password that is no text would make
    [identifier.includes] or [bcrypt.compare] throw; the chains let none
    through. *)
Definition post_login (b : login_body) (t : gmap N row) : answer :=
  let err := Validator.validationResult login_chains b in
  if negb (Validator.isEmpty err) then mk_answer 400 (Errors err) None
  else
    match identifier b with
    | JS.Str identifier =>
        match select_admin identifier t with
        | [] => mk_answer 401 (Message "Invalid credentials") None
        | (id, admin) :: _ =>
            match l_password b with
            | JS.Str password =>
                if negb (bcrypt_compare password (Admin.password admin)) then
                  mk_answer 401 (Message "Invalid credentials") None
                else
                  let token := jwt_sign id (username admin) (email admin) in
                  mk_answer 200 (LoggedIn "Logged in" token) (Some token)
            | _ => mk_answer 500 (Message "Server error") None
            end
        end
    | _ => mk_answer 500 (Message "Server error") None
    end.

End Handlers.

End Admin.

(** Stand-ins for the sample runs: a hash that keeps the salt and the
    password side by side, and a token that names the row. *)
Definition toy_hash (salt password : string) : string := salt +:+ "$" +:+ password.

Definition toy_compare (password hash : string) : bool :=
  String.eqb hash ("salt" +:+ "$" +:+ password).

Definition toy_sign (id : N) (username email : JS.value) : string :=
  "token-for-" +:+ JS.String_ username.

Definition sample_isLength (v : JS.value) : bool :=
  (6 <=? String.length (JS.String_ v))%nat.

Definition frank : Admin.register_body :=
  Admin.mk_register (JS.Str "frank") (JS.Str "frank@band.rw") (JS.Str "s3cret!").

Definition at_frank : Admin.register_body :=
  Admin.mk_register (JS.Str "frank@home") (JS.Str "frank@band.rw") (JS.Str "s3cret!").

Definition toy_register : string → Admin.register_body → gmap N Admin.row →
                          Admin.answer * gmap N Admin.row :=
  Admin.post_register sample_isEmail sample_isLength toy_hash.

Definition toy_login : Admin.login_body → gmap N Admin.row → Admin.answer :=
  Admin.post_login toy_compare toy_sign.

Definition admins_with_frank : gmap N Admin.row := (toy_register "salt" frank ∅).2.

Definition admins_with_at_frank : gmap N Admin.row := (toy_register "salt" at_frank ∅).2.

(** * Properties *)

(** ** The string and pattern functions on samples *)

Example includes_unsuccessful : JS.includes "unsuccessful" "success" = true.
Proof. reflexivity. Qed.

Example lower_completed : JS.toLowerCase "COMPLETED" = "completed".
Proof. reflexivity. Qed.

Example slice_random : JS.slice 2 9 "0.4fzyo82mvyr" = "4fzyo82".
Proof. reflexivity. Qed.

Example slice_short : JS.slice 2 9 "0.i" = "i".
Proof. reflexivity. Qed.

Example string_of_now : JS.String_ (JS.Num 1700000000000) = "1700000000000".
Proof. reflexivity. Qed.

Example email_ok : email_re_test (JS.Str "fan@band.rw") = true.
Proof. reflexivity. Qed.

Example email_dots : email_re_test (JS.Str "a.b@c@d.e.f") = true.
Proof. reflexivity. Qed.

Example email_no_dot : email_re_test (JS.Str "fan@band") = false.
Proof. reflexivity. Qed.

Example email_dot_last : email_re_test (JS.Str "fan@band.") = false.
Proof. reflexivity. Qed.

Example email_at_dot : email_re_test (JS.Str "fan@.rw") = false.
Proof. reflexivity. Qed.

Example email_space : email_re_test (JS.Str "fan @band.rw") = false.
Proof. reflexivity. Qed.

Example email_number : email_re_test (JS.Num 42) = false.
Proof. reflexivity. Qed.

Example status_successful :
  derived_status
    (WebhookReq.mk (Some "tx_1") None None None
       (JS.Prim (JS.Str "SUCCESSFUL")) (JS.Prim JS.Undefined))
  = Some "confirmed".
Proof. reflexivity. Qed.

Example status_from_paymentStatus :
  derived_status
    (WebhookReq.mk (Some "tx_1") None None None
       (JS.Prim (JS.Str "")) (JS.Prim (JS.Str "Payment Pending")))
  = Some "pending".
Proof. reflexivity. Qed.

Example status_absent :
  derived_status
    (WebhookReq.mk (Some "tx_1") None None None (JS.Prim JS.Undefined) (JS.Prim JS.Null))
  = Some "failed".
Proof. reflexivity. Qed.

Example status_number :
  derived_status
    (WebhookReq.mk (Some "tx_1") None None None (JS.Prim (JS.Num 1)) (JS.Prim JS.Undefined))
  = Some "failed".
Proof. reflexivity. Qed.

Example text_of_array :
  JS.to_text
    (JS.Arr [JS.Prim (JS.Num 1); JS.Prim JS.Null;
             JS.Arr [JS.Prim (JS.Str "a"); JS.Prim (JS.Bool true)]; JS.Obj []])
  = Some "1,,a,true,[object Object]".
Proof. reflexivity. Qed.

Example status_array :
  derived_status
    (WebhookReq.mk (Some "tx_1") None None None
       (JS.Arr [JS.Prim (JS.Str "SUCCESS")]) (JS.Prim JS.Undefined))
  = Some "confirmed".
Proof. reflexivity. Qed.

Example status_object :
  derived_status
    (WebhookReq.mk (Some "tx_1") None None None
       (JS.Obj [("code", JS.Prim (JS.Str "SUCCESS"))]) (JS.Prim JS.Undefined))
  = Some "failed".
Proof. reflexivity. Qed.

Example status_no_text :
  webhook_statusRaw payload_no_text = None ∧ derived_status payload_no_text = None.
Proof. split; reflexivity. Qed.

Example id_first_non_empty :
  webhook_transactionId
    (WebhookReq.mk (Some "") None (Some "ref_7") (Some "tx_9")
       (JS.Prim JS.Null) (JS.Prim JS.Null))
  = Some "ref_7".
Proof. reflexivity. Qed.

(** ** Values of a JSON body *)

Lemma json_induction (P : JS.json → Prop) :
  (∀ p, P (JS.Prim p)) →
  (∀ elements, Forall P elements → P (JS.Arr elements)) →
  (∀ members, P (JS.Obj members)) →
  ∀ v, P v.
Proof.
  intros HP HA HO. fix IH 1. intros [p|elements|members].
  - apply HP.
  - apply HA. induction elements as [|x l IHl]; constructor; [apply IH|apply IHl].
  - apply HO.
Qed.

Lemma join_none (texts : list (option string)) :
  JS.join texts = None ↔ In None texts.
Proof.
  induction texts as [|t rest IH]; [by split|].
  destruct rest as [|t' rest'].
  - simpl. split; [intros ->; by left|by intros [<-|[]]].
  - change (JS.join (t :: t' :: rest'))
      with (match t, JS.join (t' :: rest') with
            | Some a, Some b => Some (a +:+ "," +:+ b)
            | _, _ => None
            end).
    destruct t as [a|]; [|split; [by left|done]].
    destruct (JS.join (t' :: rest')) as [b|].
    + split; [done|]. intros [H|H]; [done|]. by apply IH in H.
    + split; [|done]. intros _. right. by apply IH.
Qed.

(** The conversion to text throws exactly on an object with a [toString]
    of its own and on an array that holds a value it throws on. *)
Lemma to_text_throws (v : JS.json) : JS.to_text v = None ↔ unconvertible v = true.
Proof.
  induction v as [p|elements IH|members] using json_induction.
  - by split.
  - cbn [JS.to_text unconvertible]. rewrite join_none, existsb_exists, in_map_iff.
    rewrite Forall_forall in IH. split.
    + intros (x & Hx & Hin). exists x. split; [done|].
      apply IH; [by apply list_elem_of_In|].
      by destruct x as [[]| |].
    + intros (x & Hin & Hx). exists x. split; [|done].
      apply IH in Hx; [|by apply list_elem_of_In].
      by destruct x as [[]| |].
  - simpl. by destruct (JS.has_own "toString" members).
Qed.

Lemma json_toString_truthy (v : JS.json) :
  JS.json_truthy v = true → JS.json_toString v = JS.to_text v.
Proof. by destruct v as [[]| |]. Qed.

(** ** The webhook *)

Lemma normalize_status_classify (text : string) :
  normalize_status (JS.toLowerCase text) = classify text.
Proof.
  unfold normalize_status, classify.
  by destruct (JS.includes (JS.toLowerCase text) "success").
Qed.

(** The status the handler works out is the one the specification derives,
    and the handler throws exactly where there is none. *)
Lemma webhook_statusRaw_spec (p : WebhookReq.t) :
  normalize_status <$> webhook_statusRaw p = derived_status p.
Proof.
  unfold webhook_statusRaw, derived_status, status_field, JS.json_or.
  destruct (JS.json_truthy (WebhookReq.status p)) eqn:Ha.
  - rewrite Ha, json_toString_truthy by done.
    destruct (JS.to_text (WebhookReq.status p)); simpl; [|done].
    by rewrite normalize_status_classify.
  - destruct (JS.json_truthy (WebhookReq.paymentStatus p)) eqn:Hb; [|done].
    rewrite json_toString_truthy by done.
    destruct (JS.to_text (WebhookReq.paymentStatus p)); simpl; [|done].
    by rewrite normalize_status_classify.
Qed.

(** There is no status to derive exactly when the payload has a status
    field that has no text. *)
Lemma derived_status_none (p : WebhookReq.t) :
  derived_status p = None ↔ ∃ v, status_field p = Some v ∧ unconvertible v = true.
Proof.
  unfold derived_status. destruct (status_field p) as [v|].
  - split.
    + intros H. exists v. split; [done|]. apply to_text_throws.
      by destruct (JS.to_text v).
    + intros (v' & [= <-] & H). apply to_text_throws in H. by rewrite H.
  - split; [done|]. by intros (v & ? & _).
Qed.

(** The handler in one equation: the status text, then a guard on the id,
    then the update. *)
Lemma post_webhook_mtn_run (p : WebhookReq.t) (s : store) :
  post_webhook_mtn p s =
  match derived_status p with
  | None => (Http.status 500 (Http.Message "Server error"), s)
  | Some st =>
      match webhook_transactionId p with
      | Some tx =>
          if String.eqb tx "" then
            (Http.status 400 (Http.Message "Missing transaction id"), s)
          else
            (Http.json (Http.Message "Webhook processed"),
             mk_store (set_status_where (JS.Str st) tx <$> donations s) (subscribers s))
      | None => (Http.status 400 (Http.Message "Missing transaction id"), s)
      end
  end.
Proof.
  rewrite <- webhook_statusRaw_spec.
  unfold post_webhook_mtn, try_catch, bind.
  destruct (webhook_statusRaw p) as [raw|]; simpl; [|done].
  destruct (webhook_transactionId p) as [tx|]; [|done].
  destruct (String.eqb tx ""); done.
Qed.

Lemma or_id_no_id (a b : option string) : no_id a → or_id a b = b.
Proof. intros [->| ->]; done. Qed.

Lemma no_transaction_id_read (p : WebhookReq.t) :
  no_transaction_id p →
  webhook_transactionId p = None ∨ webhook_transactionId p = Some "".
Proof.
  intros (H1 & H2 & H3 & H4). unfold webhook_transactionId.
  by rewrite (or_id_no_id _ _ H1), (or_id_no_id _ _ H2), (or_id_no_id _ _ H3).
Qed.

Lemma set_status_where_other st tx r :
  Donation.transaction_id r ≠ tx → set_status_where st tx r = r.
Proof. unfold set_status_where. by case_decide. Qed.

Lemma set_status_where_match st r :
  set_status_where st (Donation.transaction_id r) r = Donation.set_status st r.
Proof. unfold set_status_where. by case_decide. Qed.

Lemma set_status_where_idemp st tx r :
  set_status_where st tx (set_status_where st tx r) = set_status_where st tx r.
Proof.
  unfold set_status_where. case_decide; [|by case_decide].
  simpl. by case_decide.
Qed.

(** The update leaves the store as it is when no row has the id. *)
Lemma update_of_unknown (st : JS.value) (tx : string) (s : store) :
  unknown_transaction tx s →
  mk_store (set_status_where st tx <$> donations s) (subscribers s) = s.
Proof.
  intros Hun. destruct s as [d subs]; simpl in *. f_equal.
  apply map_eq. intros i. rewrite lookup_fmap.
  destruct (d !! i) as [r|] eqn:Hr; simpl; [|done].
  f_equal. apply set_status_where_other. eauto.
Qed.

(** What a delivery does to the row stored under [i]. *)
Lemma post_webhook_mtn_lookup (p : WebhookReq.t) (s : store) (i : N) :
  donations (post_webhook_mtn p s).2 !! i =
  (λ r, match derived_status p with
        | Some st =>
            if decide (carries_id p (Donation.transaction_id r))
            then Donation.set_status (JS.Str st) r else r
        | None => r
        end)
    <$> donations s !! i.
Proof.
  rewrite post_webhook_mtn_run.
  destruct (derived_status p) as [st|]; [|simpl; by destruct (donations s !! i)].
  destruct (donations s !! i) as [r|] eqn:Hr.
  - simpl. case_decide as Hc.
    + destruct Hc as [Htx Hne]. rewrite Htx.
      apply String.eqb_neq in Hne. rewrite Hne. simpl.
      by rewrite lookup_fmap, Hr, <- set_status_where_match.
    + destruct (webhook_transactionId p) as [tx|] eqn:Htx;
        [destruct (String.eqb_spec tx "")|]; simpl; try done.
      rewrite lookup_fmap, Hr. simpl. f_equal.
      apply set_status_where_other. intros Heq. apply Hc.
      split; congruence.
  - destruct (webhook_transactionId p) as [tx|];
      [destruct (String.eqb tx "")|]; simpl; try done.
    by rewrite lookup_fmap, Hr.
Qed.

(** C1, as stated, fails: a delivery that names a confirmed donation and
    reports a failure overwrites [confirmed] with [failed]. *)
Lemma webhook_overwrites_confirmed :
  donations store_confirmed !! 1%N = Some alice_confirmed ∧
  terminal (Donation.status alice_confirmed) ∧
  Donation.status <$> donations (post_webhook_mtn payload_failed store_confirmed).2 !! 1%N
    = Some (JS.Str "failed").
Proof. split; [reflexivity|]. split; [by left|]. vm_compute. reflexivity. Qed.

(** C1, amended: no transition is refused.  After a delivery, the status
    column of a row holds the status derived from the payload when the
    delivery carries the transaction id of the row and its status field
    has a text, whatever the column held before, terminal or not.  The
    column is as it was when the delivery carries another id or none, and
    when the conversion of the status field throws, which is answered with
    500.  The other columns of the row are as they were in every case. *)
Theorem webhook_sets_status_unconditionally (p : WebhookReq.t) (s : store) (i : N) (r : Donation.row) :
  donations s !! i = Some r →
  ∃ r',
    donations (post_webhook_mtn p s).2 !! i = Some r' ∧
    Donation.donor_name r' = Donation.donor_name r ∧
    Donation.phone r' = Donation.phone r ∧
    Donation.amount r' = Donation.amount r ∧
    Donation.transaction_id r' = Donation.transaction_id r ∧
    Donation.status r' =
      match derived_status p with
      | Some st =>
          if decide (carries_id p (Donation.transaction_id r)) then JS.Str st
          else Donation.status r
      | None => Donation.status r
      end ∧
    (derived_status p = None →
     post_webhook_mtn p s = (Http.mk_response 500 (Http.Message "Server error"), s)).
Proof.
  intros H. rewrite post_webhook_mtn_lookup, H. simpl.
  eexists. split; [reflexivity|].
  rewrite post_webhook_mtn_run.
  destruct (derived_status p) as [st|]; [case_decide|]; simpl; by repeat split.
Qed.

Lemma webhook_sets_status_unconditionally_witness :
  ∃ r',
    donations (post_webhook_mtn payload_failed store_confirmed).2 !! 1%N = Some r' ∧
    Donation.donor_name r' = JS.Str "Alice" ∧
    Donation.phone r' = JS.Str "0780000000" ∧
    Donation.amount r' = JS.Num 1000 ∧
    Donation.transaction_id r' = sample_tx ∧
    Donation.status r' = JS.Str "failed" ∧
    (derived_status payload_failed = None →
     post_webhook_mtn payload_failed store_confirmed =
     (Http.mk_response 500 (Http.Message "Server error"), store_confirmed)).
Proof.
  apply (webhook_sets_status_unconditionally payload_failed store_confirmed 1%N alice_confirmed).
  reflexivity.
Defined.

(** C2, as stated, fails: not every other value of the status field gives
    failed.  For the object [{toString: 1}] the conversion to text throws:
    the delivery is answered with 500 and the pending donation it names
    stays pending. *)
Lemma webhook_status_without_text :
  carries_id payload_no_text sample_tx ∧
  donations store_pending !! 1%N = Some alice_pending ∧
  Donation.transaction_id alice_pending = sample_tx ∧
  post_webhook_mtn payload_no_text store_pending =
    (Http.mk_response 500 (Http.Message "Server error"), store_pending) ∧
  Donation.status <$> donations (post_webhook_mtn payload_no_text store_pending).2 !! 1%N
    = Some (JS.Str "pending").
Proof.
  split; [split; [reflexivity|discriminate]|].
  split; [reflexivity|]. split; [reflexivity|]. split; [reflexivity|].
  vm_compute. reflexivity.
Qed.

(** C2, amended: when the payload carries a transaction id and its status
    (or paymentStatus) field has a text, every row with that id ends with
    the status derived from the field: confirmed for a text containing
    success or completed, pending for one containing pending, failed for
    any other text; failed too when there is no field.  When the field has
    no text, the conversion throwing, the answer is 500 and nothing is
    written. *)
Theorem webhook_stores_spec_status (p : WebhookReq.t) (s : store) (tx : string) (i : N) (r : Donation.row) :
  carries_id p tx →
  donations s !! i = Some r →
  Donation.transaction_id r = tx →
  (∀ st, derived_status p = Some st →
         Donation.status <$> donations (post_webhook_mtn p s).2 !! i = Some (JS.Str st)) ∧
  (status_field p = None →
   Donation.status <$> donations (post_webhook_mtn p s).2 !! i = Some (JS.Str "failed")) ∧
  (∀ v text, status_field p = Some v → JS.to_text v = Some text →
             Donation.status <$> donations (post_webhook_mtn p s).2 !! i =
             Some (JS.Str (classify text))) ∧
  (derived_status p = None →
   post_webhook_mtn p s = (Http.mk_response 500 (Http.Message "Server error"), s)).
Proof.
  intros Hc Hr <-.
  assert (∀ st, derived_status p = Some st →
                Donation.status <$> donations (post_webhook_mtn p s).2 !! i =
                Some (JS.Str st)) as Hst.
  { intros st Hst. rewrite post_webhook_mtn_lookup, Hr, Hst. simpl.
    by rewrite decide_True. }
  split; [done|]. split; [|split].
  - intros Hf. apply Hst. unfold derived_status. by rewrite Hf.
  - intros v text Hf Hv. apply Hst. unfold derived_status. by rewrite Hf, Hv.
  - intros Hn. by rewrite post_webhook_mtn_run, Hn.
Qed.

Lemma webhook_stores_spec_status_witness :
  Donation.status <$> donations (post_webhook_mtn payload_completed store_two).2 !! 1%N =
  Some (JS.Str "confirmed").
Proof.
  apply (webhook_stores_spec_status payload_completed store_two sample_tx 1%N alice_pending).
  - split; [reflexivity|discriminate].
  - reflexivity.
  - reflexivity.
  - reflexivity.
Defined.

(** C3: delivering a payload a second time changes nothing: the store after
    the second delivery is the store after the first, so every donation has
    the status it had. *)
Theorem webhook_idempotent (p : WebhookReq.t) (s : store) :
  (post_webhook_mtn p (post_webhook_mtn p s).2).2 = (post_webhook_mtn p s).2.
Proof.
  rewrite !post_webhook_mtn_run.
  destruct (derived_status p) as [st|]; [|done].
  destruct (webhook_transactionId p) as [tx|]; [|done].
  destruct (String.eqb tx ""); [done|]. simpl. f_equal.
  apply map_eq. intros i. rewrite !lookup_fmap.
  destruct (donations s !! i); simpl; [|done].
  by rewrite set_status_where_idemp.
Qed.

(** C4, as stated, fails: the status text is worked out before the id is
    looked at, so a payload without an id whose status field is the object
    [{toString: 1}] is answered with 500, not 400. *)
Lemma webhook_missing_id_is_500 :
  no_transaction_id payload_no_id_no_text ∧
  post_webhook_mtn payload_no_id_no_text store_pending =
    (Http.mk_response 500 (Http.Message "Server error"), store_pending) ∧
  Http.code (post_webhook_mtn payload_no_id_no_text store_pending).1 ≠ 400%N.
Proof.
  split; [repeat split; (by left) || (by right)|].
  split; [reflexivity|]. vm_compute. congruence.
Qed.

(** C4, amended: a payload whose four id fields are all absent or empty
    leaves the store as it was, and is answered with 400 and
    [{message: "Missing transaction id"}] when its status field has a
    text or is missing, with 500 and [{message: "Server error"}] when the
    conversion of the status field throws. *)
Theorem webhook_missing_id (p : WebhookReq.t) (s : store) :
  no_transaction_id p →
  post_webhook_mtn p s =
  (match derived_status p with
   | Some _ => Http.mk_response 400 (Http.Message "Missing transaction id")
   | None => Http.mk_response 500 (Http.Message "Server error")
   end, s).
Proof.
  intros H. rewrite post_webhook_mtn_run.
  destruct (derived_status p); [|done].
  by destruct (no_transaction_id_read p H) as [-> | ->].
Qed.

Lemma webhook_missing_id_witness :
  post_webhook_mtn payload_no_id store_two =
    (Http.mk_response 400 (Http.Message "Missing transaction id"), store_two) ∧
  post_webhook_mtn payload_no_id_no_text store_two =
    (Http.mk_response 500 (Http.Message "Server error"), store_two).
Proof.
  split.
  - apply (webhook_missing_id payload_no_id store_two).
    repeat split; (by left) || (by right).
  - apply (webhook_missing_id payload_no_id_no_text store_two).
    repeat split; (by left) || (by right).
Defined.

(** C9, as stated, fails: a delivery for a transaction no row has is
    answered with 200, not 404. *)
Lemma webhook_unknown_id_is_200 :
  donations empty_store = ∅ ∧
  webhook_transactionId payload_completed = Some sample_tx ∧
  (post_webhook_mtn payload_completed empty_store).1 =
    Http.mk_response 200 (Http.Message "Webhook processed") ∧
  Http.code (post_webhook_mtn payload_completed empty_store).1 ≠ 404%N.
Proof. repeat split; vm_compute; congruence. Qed.

(** C9, amended: a delivery whose transaction id matches no row leaves the
    store as it was and is never answered with 404: the answer is 200 and
    [{message: "Webhook processed"}] when its status field has a text or
    is missing, and 500 and [{message: "Server error"}] when the
    conversion of the status field throws. *)
Theorem webhook_unknown_id (p : WebhookReq.t) (s : store) (tx : string) :
  carries_id p tx →
  unknown_transaction tx s →
  post_webhook_mtn p s =
  (match derived_status p with
   | Some _ => Http.mk_response 200 (Http.Message "Webhook processed")
   | None => Http.mk_response 500 (Http.Message "Server error")
   end, s).
Proof.
  intros [Htx Hne] Hun. rewrite post_webhook_mtn_run, Htx.
  destruct (derived_status p) as [st|]; [|done].
  destruct (String.eqb_spec tx ""); [done|].
  by rewrite update_of_unknown.
Qed.

Lemma store_two_rows (i : N) (r : Donation.row) :
  donations store_two !! i = Some r →
  Donation.transaction_id r = sample_tx ∨ Donation.transaction_id r = other_tx.
Proof.
  unfold store_two. simpl. rewrite lookup_insert. case_decide.
  - intros [= <-]. by left.
  - rewrite lookup_singleton. case_decide; [|done]. intros [= <-]. by right.
Qed.

Lemma webhook_unknown_id_witness :
  post_webhook_mtn payload_unknown store_two =
    (Http.mk_response 200 (Http.Message "Webhook processed"), store_two) ∧
  post_webhook_mtn payload_unknown_no_text store_two =
    (Http.mk_response 500 (Http.Message "Server error"), store_two).
Proof.
  split.
  - apply (webhook_unknown_id payload_unknown store_two "tx_unknown").
    + split; [reflexivity|discriminate].
    + intros i r H. destruct (store_two_rows i r H) as [-> | ->]; discriminate.
  - apply (webhook_unknown_id payload_unknown_no_text store_two "tx_unknown").
    + split; [reflexivity|discriminate].
    + intros i r H. destruct (store_two_rows i r H) as [-> | ->]; discriminate.
Defined.

(** ** Donation initiation *)

Lemma non_empty_string_iff (v : JS.value) :
  non_empty_string v ↔ Validator.isString v = true ∧ Validator.notEmpty v = true.
Proof.
  unfold non_empty_string, Validator.notEmpty. split.
  - intros (t & -> & Hne). split; [done|]. simpl.
    by apply negb_true_iff, String.eqb_neq.
  - intros [Hs Hn]. destruct v as [| | |?|t]; try discriminate.
    exists t. split; [done|]. simpl in Hn.
    by apply negb_true_iff, String.eqb_neq in Hn.
Qed.

Lemma transaction_id_taken_false (tx : string) (s : store) :
  transaction_id_taken tx s = false ↔ unknown_transaction tx s.
Proof.
  unfold transaction_id_taken, unknown_transaction.
  rewrite bool_decide_eq_false. unfold map_Exists. split.
  - intros Hn i r Hr Heq. apply Hn. eauto.
  - intros Hu (i & r & Hr & Heq). by eapply Hu.
Qed.

Section DonateFacts.

Variable isFloat_gt0 : JS.value → bool.

Lemma validation_of_valid (req : DonateReq.t) :
  valid_donation isFloat_gt0 req →
  Validator.validationResult (donate_chains isFloat_gt0) req = [].
Proof.
  intros (Hd & Hp & Ha).
  apply non_empty_string_iff in Hd as [Hd1 Hd2].
  apply non_empty_string_iff in Hp as [Hp1 Hp2].
  unfold Validator.validationResult, Validator.run_chain. simpl.
  by rewrite Hd1, Hd2, Hp1, Hp2, Ha.
Qed.

(** Every violated field has an entry in the validation result. *)
Lemma validation_names_violated (req : DonateReq.t) (f : string) :
  violates isFloat_gt0 req f →
  f ∈ Validator.path <$> Validator.validationResult (donate_chains isFloat_gt0) req.
Proof.
  unfold violates. rewrite !non_empty_string_iff.
  unfold Validator.validationResult, Validator.run_chain. simpl.
  destruct (Validator.isString (DonateReq.donor_name req)),
           (Validator.notEmpty (DonateReq.donor_name req)),
           (Validator.isString (DonateReq.phone req)),
           (Validator.notEmpty (DonateReq.phone req)),
           (isFloat_gt0 (DonateReq.amount req)); simpl;
    intros [[-> H]|[[-> H]|[-> H]]]; try discriminate H;
    try (exfalso; apply H; by split); set_solver.
Qed.

Lemma validation_of_invalid (req : DonateReq.t) :
  ¬ valid_donation isFloat_gt0 req →
  Validator.validationResult (donate_chains isFloat_gt0) req ≠ [].
Proof.
  intros Hinv Hnil. apply Hinv. unfold valid_donation.
  rewrite !non_empty_string_iff. revert Hnil.
  unfold Validator.validationResult, Validator.run_chain. simpl.
  destruct (Validator.isString (DonateReq.donor_name req)),
           (Validator.notEmpty (DonateReq.donor_name req)),
           (Validator.isString (DonateReq.phone req)),
           (Validator.notEmpty (DonateReq.phone req)),
           (isFloat_gt0 (DonateReq.amount req)); simpl; done.
Qed.

(** The handler once the validation result is known to hold errors. *)
Lemma post_donate_rejects (e : env) (req : DonateReq.t) (s : store) :
  Validator.validationResult (donate_chains isFloat_gt0) req ≠ [] →
  post_donate isFloat_gt0 e req s =
  (Http.status 400
     (Http.Errors (Validator.validationResult (donate_chains isFloat_gt0) req)), s).
Proof.
  intros Hne. unfold post_donate, post_donate_callback, try_catch.
  destruct (Validator.validationResult _ req); done.
Qed.

(** The handler on a valid request: the outcome of the insert decides. *)
Lemma post_donate_accepts (e : env) (req : DonateReq.t) (s : store) :
  valid_donation isFloat_gt0 req →
  post_donate isFloat_gt0 e req s =
  if transaction_id_taken (new_transactionId e) s then
    (Http.status 500 (Http.Message "Server error"), s)
  else
    (Http.json (Http.Initiated "Donation initiated" (new_transactionId e)
       (Mtn.createMtnPaymentRequest (DonateReq.amount req) (DonateReq.phone req)
          (new_transactionId e))),
     mk_store (<[fresh (dom (donations s)) := pending_row e req]> (donations s))
              (subscribers s)).
Proof.
  intros Hv. unfold post_donate. rewrite (validation_of_valid _ Hv).
  destruct Hv as ((dn & Hdn & _) & (ph & Hph & _) & _).
  unfold post_donate_callback, try_catch, bind, insert_donation, pending_row. simpl.
  rewrite Hdn, Hph. simpl.
  destruct (transaction_id_taken (new_transactionId e) s); done.
Qed.

End DonateFacts.

Lemma string_app_inj_length (a b x y : string) :
  String.length a = String.length b → a +:+ x = b +:+ y → a = b ∧ x = y.
Proof.
  revert b. induction a as [|c a IH]; intros [|d b] Hlen Heq; simpl in *;
    try discriminate; [done|].
  injection Heq as -> Heq. injection Hlen as Hlen.
  destruct (IH b Hlen Heq) as [-> ->]. done.
Qed.

(** C5, as stated, fails: two valid requests served at the same clock
    reading and with the same random draw get the same transaction id; the
    first creates its row, the second creates none. *)
Lemma donate_same_clock_same_draw :
  let s1 := (post_donate isFloat_gt0_on_integers sample_env sample_donation empty_store).2 in
  map_to_list (donations s1) = [(0%N, alice_pending)] ∧
  post_donate isFloat_gt0_on_integers sample_env sample_donation s1 =
  (Http.mk_response 500 (Http.Message "Server error"), s1).
Proof. split; vm_compute; reflexivity. Qed.

(** Clock readings that differ in their number of digits can lead to one
    id from different draws, which is why the readings below are taken to
    have as many digits. *)
Example new_transactionId_digits :
  new_transactionId (mk_env 1 "0.23abc00") = new_transactionId (mk_env 12 "0.3abc00") ∧
  id_seed (mk_env 1 "0.23abc00") ≠ id_seed (mk_env 12 "0.3abc00").
Proof. split; [reflexivity|discriminate]. Qed.

(** A draw can be short, and then the donations router makes the id that
    [POST /donate] makes. *)
Example short_draw_same_id :
  DonationsRouter.generateTransactionId later_env = new_transactionId later_env.
Proof. reflexivity. Qed.

Lemma new_transactionId_seed (e : env) : new_transactionId e = id_of_seed (id_seed e).
Proof. reflexivity. Qed.

Lemma generateTransactionId_seed (e : env) :
  DonationsRouter.generateTransactionId e = id_of_seed (DonationsRouter.id_seed e).
Proof. reflexivity. Qed.

(** Seeds whose clock readings have as many digits make different ids. *)
Lemma id_of_seed_inj (sd1 sd2 : seed) :
  digits sd1.1 = digits sd2.1 → id_of_seed sd1 = id_of_seed sd2 → sd1 = sd2.
Proof.
  destruct sd1 as [c1 x1], sd2 as [c2 x2]. unfold id_of_seed, digits. simpl.
  intros Hlen Heq. apply string_app_inj_length in Heq as [Heq ->].
  - simpl in Heq. injection Heq as Heq. f_equal. by apply (inj pretty).
  - unfold String.append. simpl in *. by rewrite Hlen.
Qed.

Lemma post_subscribe_donations (e : env) (req : SubscribeReq.t) (s : store) :
  donations (post_subscribe e req s).2 = donations s.
Proof.
  unfold post_subscribe, insert_subscriber.
  destruct (JS.not _ || _); simpl; [done|].
  destruct (255 <? _)%nat; simpl; [done|].
  by destruct (_ || _).
Qed.

(** An insert adds a row with the id it was given, or nothing. *)
Lemma insert_donation_ids (dn ph am st : JS.value) (tx : string) (s : store) (i : N) (r : Donation.row) :
  donations
    match insert_donation dn ph am tx st s with Ok _ s' => s' | Throw _ s' => s' end
    !! i = Some r →
  donations s !! i = Some r ∨ Donation.transaction_id r = tx.
Proof.
  unfold insert_donation. destruct (transaction_id_taken tx s); simpl; [by left|].
  rewrite lookup_insert. case_decide; [|by left]. intros [= <-]. by right.
Qed.

(** After an insert, refused or not, the rows there were are there, and so
    is a row with the id it was given. *)
Lemma insert_donation_keeps (dn ph am st : JS.value) (tx : string) (s : store) :
  let s' := match insert_donation dn ph am tx st s with
            | Ok _ s' => s' | Throw _ s' => s'
            end in
  (∀ i r, donations s !! i = Some r → donations s' !! i = Some r) ∧
  ∃ i r, donations s' !! i = Some r ∧ Donation.transaction_id r = tx.
Proof.
  unfold insert_donation.
  destruct (transaction_id_taken tx s) eqn:Ht; simpl.
  - split; [done|]. apply bool_decide_eq_true in Ht. exact Ht.
  - split.
    + intros i r Hr. rewrite lookup_insert_ne; [done|].
      intros <-. pose proof (is_fresh (dom (donations s))) as Hf.
      apply not_elem_of_dom in Hf. congruence.
    + eexists _, _. split; [apply lookup_insert_eq|done].
Qed.

Lemma post_donate_run (isFloat_gt0 : JS.value → bool) (e : env) (req : DonateReq.t) (s : store) :
  (post_donate isFloat_gt0 e req s).2 =
  if Validator.isEmpty (Validator.validationResult (donate_chains isFloat_gt0) req)
  then match insert_donation (DonateReq.donor_name req) (DonateReq.phone req)
               (DonateReq.amount req) (new_transactionId e) (JS.Str "pending") s with
       | Ok _ s' => s' | Throw _ s' => s'
       end
  else s.
Proof.
  unfold post_donate, post_donate_callback, try_catch, bind.
  destruct (Validator.isEmpty _); simpl; [|done].
  by destruct (insert_donation _ _ _ _ _ s).
Qed.

Lemma donations_router_run (e : env) (created : Z) (req : DonateReq.t) (s : store) :
  (DonationsRouter.post_donation e created req s).2 =
  if JS.not (DonateReq.donor_name req) || JS.not (DonateReq.phone req)
     || JS.not (DonateReq.amount req)
  then s
  else match insert_donation (DonateReq.donor_name req) (DonateReq.phone req)
               (DonateReq.amount req) (DonationsRouter.generateTransactionId e)
               (JS.Str "pending") s with
       | Ok _ s' => s' | Throw _ s' => s'
       end.
Proof.
  unfold DonationsRouter.post_donation.
  destruct (JS.not _ || JS.not _ || JS.not _); simpl; [done|].
  by destruct (insert_donation _ _ _ _ _ s).
Qed.

(** Every row of a store reached has an id made from one of the seeds of
    the requests served. *)
Lemma served_transaction_ids (isFloat_gt0 : JS.value → bool) (h : list seed) (s : store) :
  served isFloat_gt0 h s →
  ∀ i r, donations s !! i = Some r →
         ∃ sd, sd ∈ h ∧ Donation.transaction_id r = id_of_seed sd.
Proof.
  induction 1 as [|rq h s Hs IH|e created req h s Hs IH]; intros i r.
  - simpl. by rewrite lookup_empty.
  - assert (donations s !! i = Some r →
            ∃ sd, sd ∈ seeds_of isFloat_gt0 rq ++ h ∧
                  Donation.transaction_id r = id_of_seed sd) as Hold.
    { intros Hr. destruct (IH _ _ Hr) as (sd & Hin & Hid).
      exists sd. split; [|done]. apply elem_of_app. by right. }
    destruct rq as [e req|p|req|e req]; simpl in *.
    + rewrite post_donate_run.
      destruct (Validator.isEmpty _); [|done].
      intros Hr. apply insert_donation_ids in Hr as [Hr|Hr]; [by apply Hold|].
      exists (id_seed e). split; [by left|done].
    + rewrite post_webhook_mtn_lookup.
      destruct (donations s !! i) as [r0|] eqn:Hr0; simpl; [|done].
      intros [= <-]. destruct (IH _ _ Hr0) as (sd & Hin & Hid).
      exists sd. split; [done|].
      destruct (derived_status p); [case_decide|]; done.
    + unfold put_donation_status.
      destruct (requireAdmin (StatusReq.auth req)); simpl; [apply IH|].
      rewrite lookup_alter. case_decide; [subst i|apply IH].
      destruct (donations s !! StatusReq.id req) as [r0|] eqn:Hr0; simpl; [|done].
      intros [= <-]. by apply (IH (StatusReq.id req) r0).
    + rewrite post_subscribe_donations. apply IH.
  - assert (donations s !! i = Some r →
            ∃ sd, sd ∈ DonationsRouter.seeds_of e req ++ h ∧
                  Donation.transaction_id r = id_of_seed sd) as Hold.
    { intros Hr. destruct (IH _ _ Hr) as (sd & Hin & Hid).
      exists sd. split; [|done]. apply elem_of_app. by right. }
    rewrite donations_router_run. unfold DonationsRouter.seeds_of in *.
    destruct (JS.not _ || JS.not _ || JS.not _); [done|].
    intros Hr. apply insert_donation_ids in Hr as [Hr|Hr]; [by apply Hold|].
    exists (DonationsRouter.id_seed e). split; [by left|done].
Qed.

(** A request removes no row and changes no transaction id. *)
Lemma serve_keeps_rows (isFloat_gt0 : JS.value → bool) (rq : request) (s : store) (i : N) (r : Donation.row) :
  donations s !! i = Some r →
  ∃ r', donations (serve isFloat_gt0 rq s).2 !! i = Some r' ∧
        Donation.transaction_id r' = Donation.transaction_id r.
Proof.
  intros Hr. destruct rq as [e req|p|req|e req]; simpl.
  - rewrite post_donate_run. destruct (Validator.isEmpty _); [|by exists r].
    exists r. split; [|done]. by apply insert_donation_keeps.
  - rewrite post_webhook_mtn_lookup, Hr. simpl. eexists. split; [done|].
    destruct (derived_status p); [case_decide|]; done.
  - unfold put_donation_status.
    destruct (requireAdmin (StatusReq.auth req)); simpl; [by exists r|].
    rewrite lookup_alter. case_decide; [subst i; rewrite Hr|]; by eexists.
  - rewrite post_subscribe_donations. by exists r.
Qed.

(** Every seed an id was made from is the seed of a row of the store. *)
Lemma served_seeds_stored (isFloat_gt0 : JS.value → bool) (h : list seed) (s : store) :
  served isFloat_gt0 h s →
  ∀ sd, sd ∈ h → ∃ i r, donations s !! i = Some r ∧ Donation.transaction_id r = id_of_seed sd.
Proof.
  induction 1 as [|rq h s Hs IH|e created req h s Hs IH]; intros sd Hsd.
  - by apply elem_of_nil in Hsd.
  - apply elem_of_app in Hsd as [Hsd|Hsd].
    + destruct rq as [e req|p|req|e req]; simpl in Hsd;
        try (by apply elem_of_nil in Hsd).
      simpl. rewrite post_donate_run.
      destruct (Validator.isEmpty _); [|by apply elem_of_nil in Hsd].
      apply list_elem_of_singleton in Hsd as ->. apply insert_donation_keeps.
    + destruct (IH _ Hsd) as (i & r & Hr & Hid).
      destruct (serve_keeps_rows isFloat_gt0 rq s i r Hr) as (r' & Hr' & Hid').
      exists i, r'. split; [done|congruence].
  - rewrite donations_router_run. unfold DonationsRouter.seeds_of in Hsd.
    destruct (JS.not _ || JS.not _ || JS.not _).
    + by apply IH.
    + apply elem_of_cons in Hsd as [->|Hsd]; [apply insert_donation_keeps|].
      destruct (IH _ Hsd) as (i & r & Hr & Hid).
      exists i, r. split; [|done]. by apply insert_donation_keeps.
Qed.

(** C5, amended: a valid request adds exactly one row, under an id that
    was free, with status pending and the fields of the request, and its
    transaction id, [tx_] followed by the clock reading and seven
    characters of the random draw, is that of no row stored before,
    provided that no request served before made its id from the same clock
    reading and the same characters, the clock readings having as many
    digits.  When a request served before did make its id from them, the
    request is answered with 500 and adds no row. *)
Theorem donate_creates_pending (isFloat_gt0 : JS.value → bool) (h : list seed) (e : env) (req : DonateReq.t) (s : store) :
  served isFloat_gt0 h s →
  valid_donation isFloat_gt0 req →
  ((∀ sd, sd ∈ h → digits sd.1 = digits (now e)) →
   id_seed e ∉ h →
   ∃ i r,
     donations s !! i = None ∧
     (post_donate isFloat_gt0 e req s).2 =
       mk_store (<[i := r]> (donations s)) (subscribers s) ∧
     Donation.status r = JS.Str "pending" ∧
     Donation.transaction_id r = new_transactionId e ∧
     Donation.donor_name r = DonateReq.donor_name req ∧
     Donation.phone r = DonateReq.phone req ∧
     Donation.amount r = sql_bind (DonateReq.amount req) ∧
     ∀ j r0, donations s !! j = Some r0 →
             Donation.transaction_id r0 ≠ Donation.transaction_id r) ∧
  (id_seed e ∈ h →
   post_donate isFloat_gt0 e req s = (Http.mk_response 500 (Http.Message "Server error"), s)).
Proof.
  intros Hs Hv. rewrite (post_donate_accepts _ _ _ _ Hv). split.
  - intros Hh Hnew.
    assert (unknown_transaction (new_transactionId e) s) as Hu.
    { intros j r0 Hr0 Heq.
      destruct (served_transaction_ids _ _ _ Hs _ _ Hr0) as (sd & Hin & Hid).
      rewrite Hid, new_transactionId_seed in Heq.
      apply id_of_seed_inj in Heq; [|by apply Hh]. by subst. }
    pose proof Hu as Ht. apply transaction_id_taken_false in Ht. rewrite Ht. simpl.
    exists (fresh (dom (donations s))), (pending_row e req).
    split; [apply not_elem_of_dom, is_fresh|]. by repeat split.
  - intros Hold.
    assert (transaction_id_taken (new_transactionId e) s = true) as ->; [|done].
    apply bool_decide_eq_true.
    destruct (served_seeds_stored _ _ _ Hs _ Hold) as (j & r0 & Hr0 & Hid).
    by exists j, r0.
Qed.

Lemma donate_creates_pending_witness :
  (∃ i r,
     donations store_with_alice !! i = None ∧
     (post_donate isFloat_gt0_on_integers second_env bob_donation store_with_alice).2 =
       mk_store (<[i := r]> (donations store_with_alice)) (subscribers store_with_alice) ∧
     Donation.status r = JS.Str "pending" ∧
     Donation.transaction_id r = other_tx ∧
     Donation.donor_name r = JS.Str "Bob" ∧
     Donation.phone r = JS.Str "0781111111" ∧
     Donation.amount r = JS.Num 500 ∧
     ∀ j r0, donations store_with_alice !! j = Some r0 →
             Donation.transaction_id r0 ≠ Donation.transaction_id r) ∧
  post_donate isFloat_gt0_on_integers sample_env bob_donation store_with_alice =
    (Http.mk_response 500 (Http.Message "Server error"), store_with_alice).
Proof.
  split.
  - apply (donate_creates_pending isFloat_gt0_on_integers [id_seed sample_env] second_env
             bob_donation store_with_alice).
    + apply (served_request isFloat_gt0_on_integers (Donate sample_env sample_donation) []
               empty_store).
      apply served_nothing.
    + repeat split; eexists; (split; [reflexivity|discriminate]).
    + intros sd Hsd. apply list_elem_of_singleton in Hsd as ->. reflexivity.
    + intros Hsd. apply list_elem_of_singleton in Hsd. discriminate Hsd.
  - apply (donate_creates_pending isFloat_gt0_on_integers [id_seed sample_env] sample_env
             bob_donation store_with_alice).
    + apply (served_request isFloat_gt0_on_integers (Donate sample_env sample_donation) []
               empty_store).
      apply served_nothing.
    + repeat split; eexists; (split; [reflexivity|discriminate]).
    + apply list_elem_of_singleton. reflexivity.
Defined.

Example store_with_alice_rows :
  map_to_list (donations store_with_alice) = [(0%N, alice_pending)].
Proof. reflexivity. Qed.

(** C7, as stated, fails: a valid request is answered with the default
    status, 200, not 201. *)
Lemma donate_valid_is_200 :
  (post_donate isFloat_gt0_on_integers sample_env sample_donation empty_store).1 =
  Http.mk_response 200
    (Http.Initiated "Donation initiated" sample_tx
       (Mtn.mk_resp true "MTN payment request simulated" sample_tx
          "mtn://pay?phone=0780000000&amount=1000&ref=tx_17000000000004fzyo82")) ∧
  Http.code (post_donate isFloat_gt0_on_integers sample_env sample_donation empty_store).1
    ≠ 201%N.
Proof. split; vm_compute; congruence. Qed.

(** C7, amended: a valid request whose transaction id is free is answered
    with status 200 and a body holding message, transactionId and mtnResp;
    a request that fails validation is answered with status 400 and a body
    [{errors: [...]}] whose list is not empty, and changes nothing. *)
Theorem donate_response (isFloat_gt0 : JS.value → bool) (e : env) (req : DonateReq.t) (s : store) :
  (valid_donation isFloat_gt0 req →
   unknown_transaction (new_transactionId e) s →
   (post_donate isFloat_gt0 e req s).1 =
   Http.mk_response 200
     (Http.Initiated "Donation initiated" (new_transactionId e)
        (Mtn.createMtnPaymentRequest (DonateReq.amount req) (DonateReq.phone req)
           (new_transactionId e)))) ∧
  (¬ valid_donation isFloat_gt0 req →
   ∃ errs, errs ≠ [] ∧
           post_donate isFloat_gt0 e req s = (Http.mk_response 400 (Http.Errors errs), s)).
Proof.
  split.
  - intros Hv Hu. rewrite (post_donate_accepts _ _ _ _ Hv).
    apply transaction_id_taken_false in Hu. by rewrite Hu.
  - intros Hinv. apply validation_of_invalid in Hinv.
    eexists. split; [exact Hinv|]. by apply post_donate_rejects.
Qed.

Lemma donate_response_witness :
  (post_donate isFloat_gt0_on_integers sample_env sample_donation empty_store).1 =
  Http.mk_response 200
    (Http.Initiated "Donation initiated" (new_transactionId sample_env)
       (Mtn.createMtnPaymentRequest (DonateReq.amount sample_donation)
          (DonateReq.phone sample_donation) (new_transactionId sample_env))) ∧
  ∃ errs, errs ≠ [] ∧
          post_donate isFloat_gt0_on_integers sample_env nameless_free_donation empty_store =
          (Http.mk_response 400 (Http.Errors errs), empty_store).
Proof.
  split.
  - apply (donate_response isFloat_gt0_on_integers sample_env sample_donation empty_store).
    + repeat split; eexists; (split; [reflexivity|discriminate]).
    + intros i r H. simpl in H. by rewrite lookup_empty in H.
  - apply (donate_response isFloat_gt0_on_integers sample_env nameless_free_donation empty_store).
    intros (_ & _ & H). vm_compute in H. discriminate H.
Defined.

(** C8: when a request violates a constraint, the answer is 400 with a list
    of errors in which every violated field is named, the first and all
    the others. *)
Theorem donate_errors_name_every_violated_field (isFloat_gt0 : JS.value → bool) (e : env) (req : DonateReq.t) (s : store) (f0 : string) :
  violates isFloat_gt0 req f0 →
  ∃ errs,
    post_donate isFloat_gt0 e req s = (Http.status 400 (Http.Errors errs), s) ∧
    ∀ f, violates isFloat_gt0 req f → f ∈ Validator.path <$> errs.
Proof.
  intros H0. exists (Validator.validationResult (donate_chains isFloat_gt0) req).
  split; [|apply validation_names_violated].
  apply post_donate_rejects. intros Hnil.
  apply validation_names_violated in H0. rewrite Hnil in H0. set_solver.
Qed.

Lemma donate_errors_name_every_violated_field_witness :
  ∃ errs,
    post_donate isFloat_gt0_on_integers sample_env nameless_free_donation empty_store =
    (Http.status 400 (Http.Errors errs), empty_store) ∧
    ∀ f, violates isFloat_gt0_on_integers nameless_free_donation f →
         f ∈ Validator.path <$> errs.
Proof.
  apply (donate_errors_name_every_violated_field isFloat_gt0_on_integers sample_env
           nameless_free_donation empty_store "amount").
  right. right. split; reflexivity.
Defined.

Example nameless_free_donation_errors :
  Validator.path <$>
    Validator.validationResult (donate_chains isFloat_gt0_on_integers) nameless_free_donation
  = ["donor_name"; "amount"].
Proof. reflexivity. Qed.

(** ** The status column *)

Lemma classify_in_enum (text : string) : JS.Str (classify text) ∈ status_enum.
Proof.
  unfold classify, status_enum. rewrite !elem_of_cons.
  repeat (match goal with |- context [if ?b then _ else _] => destruct b end); auto.
Qed.

Lemma derived_status_in_enum (p : WebhookReq.t) (st : string) :
  derived_status p = Some st → JS.Str st ∈ status_enum.
Proof.
  unfold derived_status. destruct (status_field p) as [v|].
  - destruct (JS.to_text v); simpl; [|done]. intros [= <-]. apply classify_in_enum.
  - intros [= <-]. unfold status_enum. rewrite !elem_of_cons. auto.
Qed.

(** The webhook keeps the statuses within the enumeration. *)
Lemma webhook_keeps_enum (p : WebhookReq.t) (s : store) :
  statuses_in_enum s → statuses_in_enum (post_webhook_mtn p s).2.
Proof.
  intros Hs i r'. rewrite post_webhook_mtn_lookup.
  destruct (donations s !! i) as [r|] eqn:Hr; simpl; [|done].
  intros [= <-]. destruct (derived_status p) as [st|] eqn:Hst; [|by eapply Hs].
  case_decide; [by eapply derived_status_in_enum|by eapply Hs].
Qed.

(** So does initiation. *)
Lemma donate_keeps_enum (isFloat_gt0 : JS.value → bool) (e : env) (req : DonateReq.t) (s : store) :
  statuses_in_enum s → statuses_in_enum (post_donate isFloat_gt0 e req s).2.
Proof.
  intros Hs. unfold post_donate, post_donate_callback, try_catch, bind, insert_donation.
  destruct (Validator.validationResult _ req); simpl; [|done].
  destruct (transaction_id_taken _ s); simpl; [done|].
  intros i r. simpl. rewrite lookup_insert. case_decide.
  - intros [= <-]. simpl. unfold status_enum. set_solver.
  - apply Hs.
Qed.

(** The override writes the status of the body on the row of the path,
    whatever the chain recorded about it. *)
Lemma put_donation_status_writes (id : N) (st : JS.value) (s : store) (r : Donation.row) :
  donations s !! id = Some r →
  put_donation_status (StatusReq.mk GoodToken id st) s =
  (Http.json (Http.Message "Status updated"),
   mk_store (<[id := Donation.set_status (sql_bind st) r]> (donations s)) (subscribers s)).
Proof.
  intros Hr. unfold put_donation_status, put_donation_status_callback, try_catch, bind.
  simpl. do 2 f_equal. apply map_eq. intros j.
  rewrite lookup_alter, lookup_insert.
  case_decide; [subst; by rewrite Hr|done].
Qed.

(** C6 on the code: the chain records an error for a status outside the
    enumeration, and the callback writes that status all the same: the
    answer is 200 and the row holds [refunded]. *)
Theorem admin_writes_unlisted_status :
  Validator.path <$> Validator.validationResult status_chains refund_request = ["status"] ∧
  (put_donation_status refund_request store_confirmed).1 =
    Http.mk_response 200 (Http.Message "Status updated") ∧
  Donation.status <$> donations (put_donation_status refund_request store_confirmed).2 !! 1%N
    = Some (JS.Str "refunded") ∧
  statuses_in_enum store_confirmed ∧
  ¬ statuses_in_enum (put_donation_status refund_request store_confirmed).2.
Proof.
  split; [reflexivity|]. split; [reflexivity|]. split; [reflexivity|]. split.
  - intros i r. unfold store_confirmed. simpl.
    rewrite lookup_singleton. case_decide; [|done].
    intros [= <-]. unfold status_enum. simpl. set_solver.
  - intros H. specialize (H 1%N _ eq_refl).
    unfold status_enum in H. simpl in H.
    rewrite !elem_of_cons, elem_of_nil in H.
    destruct H as [H|[H|[H|[]]]]; discriminate H.
Qed.

(** ** Subscriptions *)

Lemma email_taken_true (v : JS.value) (s : store) (i : string) :
  subscribers s !! i = Some v → email_taken v s = true.
Proof.
  intros H. unfold email_taken. apply bool_decide_eq_true.
  exists i, v. done.
Qed.

(** A subscription adds nothing or one acceptable email. *)
Lemma post_subscribe_store (e : env) (req : SubscribeReq.t) (s : store) :
  (post_subscribe e req s).2 = s ∨
  (acceptable_email (SubscribeReq.email req) ∧
   (post_subscribe e req s).2 =
   mk_store (donations s)
            (<[JS.String_ (JS.Num (now e)) := SubscribeReq.email req]> (subscribers s))).
Proof.
  unfold post_subscribe, insert_subscriber.
  destruct (JS.not (SubscribeReq.email req)) eqn:Hn; simpl; [by left|].
  destruct (email_re_test (SubscribeReq.email req)) eqn:Hre; simpl; [|by left].
  destruct (Nat.ltb_spec 255 (Text.char_length (JS.String_ (SubscribeReq.email req))));
    simpl; [by left|].
  destruct (_ || _); simpl; [by left|].
  right. split; [|done]. split; [done|]. split; [done|lia].
Qed.

Lemma post_subscribe_ok (e : env) (req : SubscribeReq.t) (s : store) :
  subscribers_ok s → subscribers_ok (post_subscribe e req s).2.
Proof.
  intros Hs. destruct (post_subscribe_store e req s) as [-> | [Ha ->]]; [done|].
  intros i v. simpl. rewrite lookup_insert. case_decide.
  - by intros [= <-].
  - apply Hs.
Qed.

Lemma post_webhook_mtn_subscribers (p : WebhookReq.t) (s : store) :
  subscribers (post_webhook_mtn p s).2 = subscribers s.
Proof.
  rewrite post_webhook_mtn_run.
  destruct (derived_status p); [|done].
  destruct (webhook_transactionId p) as [tx|]; [|done].
  by destruct (String.eqb tx "").
Qed.

Lemma put_donation_status_subscribers (req : StatusReq.t) (s : store) :
  subscribers (put_donation_status req s).2 = subscribers s.
Proof.
  unfold put_donation_status.
  by destruct (requireAdmin (StatusReq.auth req)).
Qed.

Lemma post_donate_subscribers (isFloat_gt0 : JS.value → bool) (e : env) (req : DonateReq.t) (s : store) :
  subscribers (post_donate isFloat_gt0 e req s).2 = subscribers s.
Proof.
  unfold post_donate, post_donate_callback, try_catch, bind, insert_donation.
  destruct (Validator.validationResult _ req); simpl; [|done].
  by destruct (transaction_id_taken _ s).
Qed.

(** Whatever requests were served, the table holds only emails that the
    handler lets through. *)
Lemma reachable_subscribers_ok (isFloat_gt0 : JS.value → bool) (s : store) :
  reachable isFloat_gt0 s → subscribers_ok s.
Proof.
  induction 1 as [|rq s Hs IH].
  - intros i v H. simpl in H. by rewrite lookup_empty in H.
  - destruct rq as [e req|p|req|e req]; simpl.
    + unfold subscribers_ok. by rewrite post_donate_subscribers.
    + unfold subscribers_ok. by rewrite post_webhook_mtn_subscribers.
    + unfold subscribers_ok. by rewrite put_donation_status_subscribers.
    + by apply post_subscribe_ok.
Qed.

(** C10: a subscription whose email is already in the table is answered
    with 409 and [{error: "Email already subscribed"}], and the store is
    left as it was. *)
Theorem subscribe_duplicate_email (isFloat_gt0 : JS.value → bool) (s : store) (e : env) (req : SubscribeReq.t) (i : string) :
  reachable isFloat_gt0 s →
  subscribers s !! i = Some (SubscribeReq.email req) →
  post_subscribe e req s =
  (Http.status 409 (Http.Error "Email already subscribed"), s).
Proof.
  intros Hreach Hi.
  destruct (reachable_subscribers_ok _ _ Hreach _ _ Hi) as (Hn & Hre & Hlen).
  unfold post_subscribe, insert_subscriber. rewrite Hn, Hre. simpl.
  destruct (Nat.ltb_spec 255 (Text.char_length (JS.String_ (SubscribeReq.email req))));
    [lia|].
  rewrite (email_taken_true _ _ _ Hi). by rewrite orb_true_r.
Qed.

Lemma subscribe_duplicate_email_witness :
  post_subscribe (mk_env 1700000005000 "0.i") fan store_with_fan =
  (Http.status 409 (Http.Error "Email already subscribed"), store_with_fan).
Proof.
  apply (subscribe_duplicate_email isFloat_gt0_on_integers store_with_fan
           (mk_env 1700000005000 "0.i") fan "1700000000000").
  - apply reachable_serve, reachable_empty.
  - vm_compute. reflexivity.
Defined.

(** ** Strings *)

Lemma str_app_cons (c : ascii) (s t : string) : String c s +:+ t = String c (s +:+ t).
Proof. reflexivity. Qed.

Lemma str_app_nil_l (t : string) : "" +:+ t = t.
Proof. reflexivity. Qed.

Lemma str_app_nil_r (s : string) : s +:+ "" = s.
Proof. induction s as [|c s IH]; [done|]. by rewrite str_app_cons, IH. Qed.

Lemma str_app_assoc (s t u : string) : (s +:+ t) +:+ u = s +:+ t +:+ u.
Proof. induction s as [|c s IH]; [done|]. by rewrite !str_app_cons, IH. Qed.

Lemma prefix_app (a b : string) : String.prefix a (a +:+ b) = true.
Proof.
  induction a as [|c a IH]; [by destruct b|].
  rewrite str_app_cons. simpl. by destruct (ascii_dec c c).
Qed.

Lemma includes_prefix (hay k : string) :
  String.prefix k hay = true → JS.includes hay k = true.
Proof. intros H. destruct hay; cbn [JS.includes]; by rewrite H. Qed.

Lemma includes_app (a k b : string) : JS.includes (a +:+ k +:+ b) k = true.
Proof.
  induction a as [|c a IH].
  - rewrite str_app_nil_l. apply includes_prefix, prefix_app.
  - rewrite str_app_cons. simpl. rewrite IH. apply orb_true_r.
Qed.


Lemma all_chars_impl (P Q : ascii → Prop) (s : string) :
  (∀ c, P c → Q c) → all_chars P s → all_chars Q s.
Proof.
  intros H. induction s as [|c s IH]; simpl; [done|].
  intros [Hc Hs]. split; auto.
Qed.

(** A string contains another only if it contains its first character. *)
Lemma includes_first_char (P : ascii → Prop) (hay : string) (c : ascii) (k : string) :
  all_chars P hay → JS.includes hay (String c k) = true → P c.
Proof.
  induction hay as [|h t IH]; simpl; [done|].
  intros [Hh Ht]. destruct (ascii_dec c h) as [->|]; simpl; [done|].
  by apply IH.
Qed.

Lemma pretty_N_char_numeral (y : N) : numeral_char (pretty_N_char y).
Proof.
  unfold numeral_char, pretty_N_char.
  repeat (match goal with |- context [match ?x with _ => _ end] => destruct x end);
    simpl; lia.
Qed.

Lemma pretty_N_go_numeral (x : N) (s : string) :
  all_chars numeral_char s → all_chars numeral_char (pretty_N_go x s).
Proof.
  revert s. induction (N.lt_wf_0 x) as [x _ IH]. intros s Hs.
  destruct (decide (x = 0)%N) as [->|Hx]; [by rewrite pretty_N_go_0|].
  rewrite pretty_N_go_step by lia. apply IH.
  - apply N.div_lt; lia.
  - split; [apply pretty_N_char_numeral|done].
Qed.

Lemma pretty_Z_numeral (n : Z) : all_chars numeral_char (pretty n).
Proof.
  assert (∀ x : N, all_chars numeral_char (pretty x)) as HN.
  { intros x. unfold pretty, pretty_N. case_decide.
    - simpl. unfold numeral_char. simpl. split; [lia|done].
    - by apply pretty_N_go_numeral. }
  destruct n as [|p|p]; unfold pretty, pretty_Z.
  - simpl. unfold numeral_char. simpl. split; [lia|done].
  - apply HN.
  - rewrite str_app_cons, str_app_nil_l. split; [|apply HN].
    unfold numeral_char. simpl. lia.
Qed.



(** ** More on the webhook *)

(** X1: the id a delivery carries is the first of transactionId,
    externalId, reference and transactionRef that is present and not
    empty. *)
Theorem webhook_first_non_empty_id (p : WebhookReq.t) (tx : string) :
  carries_id p tx ↔ head (List.filter holds_id (id_fields p)) = Some (Some tx).
Proof.
  unfold carries_id, webhook_transactionId, id_fields, or_id, holds_id.
  destruct p as [[a|] [b|] [c|] [d|] st ps]; simpl;
    repeat (match goal with
            | |- context [String.eqb ?x ""] => destruct (String.eqb_spec x ""); simpl
            end);
    split; try (intros [[= <-] ?]); try (intros [= <-]); subst; done.
Qed.

(** X2: a delivery adds no row, removes none, and leaves every column
    but the status, and every subscriber, as it was. *)
Theorem webhook_changes_status_only (p : WebhookReq.t) (s : store) :
  dom (donations (post_webhook_mtn p s).2) = dom (donations s) ∧
  subscribers (post_webhook_mtn p s).2 = subscribers s ∧
  ∀ i r', donations (post_webhook_mtn p s).2 !! i = Some r' →
          ∃ r, donations s !! i = Some r ∧
               r' = Donation.set_status (Donation.status r') r.
Proof.
  split; [|split].
  - apply set_eq. intros i. rewrite !elem_of_dom, post_webhook_mtn_lookup.
    by rewrite fmap_is_Some.
  - apply post_webhook_mtn_subscribers.
  - intros i r'. rewrite post_webhook_mtn_lookup.
    destruct (donations s !! i) as [r|]; simpl; [|done].
    intros [= <-]. exists r. split; [done|].
    destruct (derived_status p); [case_decide|]; (done || by destruct r).
Qed.

(** X3: of two deliveries that carry the same id, the later one decides
    when its status field has a text or is missing: the store is as if
    only the later one had come.  When the conversion of its status field
    throws, the later one changes nothing, and the store is what the
    earlier one left. *)
Theorem webhook_last_delivery_wins (p1 p2 : WebhookReq.t) (tx : string) (s : store) :
  carries_id p1 tx → carries_id p2 tx →
  (is_Some (derived_status p2) →
   (post_webhook_mtn p2 (post_webhook_mtn p1 s).2).2 = (post_webhook_mtn p2 s).2) ∧
  (derived_status p2 = None →
   post_webhook_mtn p2 (post_webhook_mtn p1 s).2 =
   (Http.mk_response 500 (Http.Message "Server error"), (post_webhook_mtn p1 s).2)).
Proof.
  intros [H1 Hne] [H2 _]. split.
  - intros [st2 Hst2]. rewrite !post_webhook_mtn_run, H1, H2, Hst2.
    apply String.eqb_neq in Hne. rewrite Hne.
    destruct (derived_status p1) as [st1|]; [|done]. simpl. f_equal.
    apply map_eq. intros i. rewrite !lookup_fmap.
    destruct (donations s !! i) as [r|]; simpl; [|done]. f_equal.
    unfold set_status_where.
    destruct (decide (Donation.transaction_id r = tx)) as [E|E]; simpl.
    + by rewrite decide_True.
    + by rewrite decide_False.
  - intros Hst2. by rewrite (post_webhook_mtn_run p2), Hst2.
Qed.

Lemma webhook_last_delivery_wins_witness :
  (post_webhook_mtn payload_failed (post_webhook_mtn payload_completed store_two).2).2 =
    (post_webhook_mtn payload_failed store_two).2 ∧
  post_webhook_mtn payload_no_text (post_webhook_mtn payload_completed store_two).2 =
    (Http.mk_response 500 (Http.Message "Server error"),
     (post_webhook_mtn payload_completed store_two).2).
Proof.
  split.
  - apply (webhook_last_delivery_wins payload_completed payload_failed sample_tx store_two).
    + split; [reflexivity|discriminate].
    + split; [reflexivity|discriminate].
    + eexists. reflexivity.
  - apply (webhook_last_delivery_wins payload_completed payload_no_text sample_tx store_two).
    + split; [reflexivity|discriminate].
    + split; [reflexivity|discriminate].
    + reflexivity.
Defined.

Example completed_then_no_text :
  Donation.status <$>
    donations (post_webhook_mtn payload_no_text
                 (post_webhook_mtn payload_completed store_two).2).2 !! 1%N
  = Some (JS.Str "confirmed").
Proof. vm_compute. reflexivity. Qed.

(** Deliveries for different transactions do not interfere: the store
    they leave does not depend on the order they come in. *)
Theorem webhook_deliveries_commute (p1 p2 : WebhookReq.t) (tx1 tx2 : string) (s : store) :
  carries_id p1 tx1 → carries_id p2 tx2 → tx1 ≠ tx2 →
  (post_webhook_mtn p2 (post_webhook_mtn p1 s).2).2 =
  (post_webhook_mtn p1 (post_webhook_mtn p2 s).2).2.
Proof.
  intros [H1 Hne1] [H2 Hne2] Hd. rewrite !post_webhook_mtn_run, H1, H2.
  apply String.eqb_neq in Hne1, Hne2. rewrite Hne1, Hne2.
  destruct (derived_status p1) as [st1|], (derived_status p2) as [st2|]; try done.
  simpl. f_equal.
  apply map_eq. intros i. rewrite !lookup_fmap.
  destruct (donations s !! i) as [r|]; simpl; [|done]. f_equal.
  unfold set_status_where.
  destruct (decide (Donation.transaction_id r = tx1)) as [E1|E1];
    destruct (decide (Donation.transaction_id r = tx2)) as [E2|E2]; simpl;
    rewrite ?decide_True, ?decide_False by done; simpl;
    rewrite ?decide_True, ?decide_False by done; congruence.
Qed.

Lemma webhook_deliveries_commute_witness :
  (post_webhook_mtn payload_other (post_webhook_mtn payload_completed store_pending).2).2 =
  (post_webhook_mtn payload_completed (post_webhook_mtn payload_other store_pending).2).2.
Proof.
  apply (webhook_deliveries_commute payload_completed payload_other sample_tx "tx_other"
           store_pending).
  - split; [reflexivity|discriminate].
  - split; [reflexivity|discriminate].
  - discriminate.
Defined.

Lemma or_id_id (tx : string) (b : option string) : tx ≠ "" → or_id (Some tx) b = Some tx.
Proof. intros H. unfold or_id. apply String.eqb_neq in H. by rewrite H. Qed.

Lemma id_or_none (p : WebhookReq.t) :
  no_transaction_id p ∨ ∃ tx, carries_id p tx.
Proof.
  assert (∀ o : option string, no_id o ∨ ∃ tx, o = Some tx ∧ tx ≠ "") as Hcase.
  { intros [t|]; [destruct (decide (t = "")) as [->|]|]; unfold no_id; eauto. }
  unfold carries_id, no_transaction_id, webhook_transactionId.
  destruct (Hcase (WebhookReq.transactionId p)) as [Ha|(tx & -> & Hne)];
    [rewrite (or_id_no_id _ _ Ha)|right; exists tx; by rewrite !or_id_id].
  destruct (Hcase (WebhookReq.externalId p)) as [Hb|(tx & -> & Hne)];
    [rewrite (or_id_no_id _ _ Hb)|right; exists tx; by rewrite !or_id_id].
  destruct (Hcase (WebhookReq.reference p)) as [Hc|(tx & -> & Hne)];
    [rewrite (or_id_no_id _ _ Hc)|right; exists tx; by rewrite !or_id_id].
  destruct (Hcase (WebhookReq.transactionRef p)) as [Hd|(tx & -> & Hne)];
    [by left|right; by exists tx].
Qed.

(** X4: for a payload whose id fields are text or absent, and a database
    that takes the update, the answer to a delivery depends on the payload
    alone, not on the rows stored.  When the conversion of the status
    field to text throws, which it does exactly for an object with a
    property of its own named [toString] and for an array that holds a
    value it throws on, the answer is 500 and [{message: "Server error"}],
    with an id or without.  Otherwise it is 400 and [{message: "Missing
    transaction id"}] when the four id fields are absent or empty, and 200
    and [{message: "Webhook processed"}] when one of them holds an id;
    there is no third case.  On 500 and on 400 the store is left as it
    was. *)
Theorem webhook_answers_500_400_or_200 (p : WebhookReq.t) (s : store) :
  ((∃ v, status_field p = Some v ∧ unconvertible v = true) →
   post_webhook_mtn p s = (Http.mk_response 500 (Http.Message "Server error"), s)) ∧
  ((∀ v, status_field p = Some v → unconvertible v = false) →
   is_Some (derived_status p)) ∧
  (derived_status p = None →
   post_webhook_mtn p s = (Http.mk_response 500 (Http.Message "Server error"), s)) ∧
  (is_Some (derived_status p) → no_transaction_id p →
   post_webhook_mtn p s =
   (Http.mk_response 400 (Http.Message "Missing transaction id"), s)) ∧
  (is_Some (derived_status p) → (∃ tx, carries_id p tx) →
   (post_webhook_mtn p s).1 = Http.mk_response 200 (Http.Message "Webhook processed")) ∧
  (no_transaction_id p ∨ ∃ tx, carries_id p tx).
Proof.
  rewrite post_webhook_mtn_run.
  split; [intros H; apply derived_status_none in H; by rewrite H|].
  split.
  { intros H. destruct (derived_status p) eqn:E; [by eexists|].
    apply derived_status_none in E as (v & Hv & Hu). by rewrite (H v Hv) in Hu. }
  split; [by intros ->|].
  split; [|split; [|apply id_or_none]].
  - intros [st ->] H. by destruct (no_transaction_id_read p H) as [-> | ->].
  - intros [st ->] (tx & Htx & Hne). rewrite Htx.
    apply String.eqb_neq in Hne. by rewrite Hne.
Qed.

Lemma webhook_answers_500_400_or_200_witness :
  post_webhook_mtn payload_no_text store_two =
    (Http.mk_response 500 (Http.Message "Server error"), store_two) ∧
  post_webhook_mtn payload_no_id store_two =
    (Http.mk_response 400 (Http.Message "Missing transaction id"), store_two) ∧
  (post_webhook_mtn payload_completed store_two).1 =
    Http.mk_response 200 (Http.Message "Webhook processed").
Proof.
  split; [|split].
  - apply (proj1 (webhook_answers_500_400_or_200 payload_no_text store_two)).
    exists no_text. split; reflexivity.
  - apply (webhook_answers_500_400_or_200 payload_no_id store_two).
    + eexists. reflexivity.
    + repeat split; (by left) || (by right).
  - apply (webhook_answers_500_400_or_200 payload_completed store_two).
    + eexists. reflexivity.
    + exists sample_tx. split; [reflexivity|discriminate].
Defined.






(** ** Initiation, then confirmation *)

Lemma validation_passes_valid (isFloat_gt0 : JS.value → bool) (req : DonateReq.t) :
  Validator.validationResult (donate_chains isFloat_gt0) req = [] →
  valid_donation isFloat_gt0 req.
Proof.
  unfold valid_donation. rewrite !non_empty_string_iff.
  unfold Validator.validationResult, Validator.run_chain. simpl.
  destruct (Validator.isString (DonateReq.donor_name req)),
           (Validator.notEmpty (DonateReq.donor_name req)),
           (Validator.isString (DonateReq.phone req)),
           (Validator.notEmpty (DonateReq.phone req)),
           (isFloat_gt0 (DonateReq.amount req)); simpl; done.
Qed.

(** The answer is 200 only to a valid request whose id was free. *)
Lemma post_donate_200 (isFloat_gt0 : JS.value → bool) (e : env) (req : DonateReq.t) (s : store) :
  Http.code (post_donate isFloat_gt0 e req s).1 = 200%N →
  valid_donation isFloat_gt0 req ∧ unknown_transaction (new_transactionId e) s.
Proof.
  intros H.
  destruct (Validator.validationResult (donate_chains isFloat_gt0) req) eqn:E.
  - apply validation_passes_valid in E. split; [done|].
    rewrite (post_donate_accepts _ _ _ _ E) in H.
    destruct (transaction_id_taken (new_transactionId e) s) eqn:Ht; [discriminate H|].
    by apply transaction_id_taken_false.
  - rewrite post_donate_rejects in H by (by rewrite E). discriminate H.
Qed.

(** X7: when [POST /donate] is answered with 200, the transaction id
    answered to the client is the one in mtnResp and the one of the row
    the request has added, which is stored with status pending under an id
    that was free, and of no other row: it names exactly the donation just
    created. *)
Theorem donate_returns_id_of_new_row (isFloat_gt0 : JS.value → bool) (e : env) (req : DonateReq.t) (s : store) :
  Http.code (post_donate isFloat_gt0 e req s).1 = 200%N →
  ∃ i tx mtnResp r,
    (post_donate isFloat_gt0 e req s).1 =
      Http.mk_response 200 (Http.Initiated "Donation initiated" tx mtnResp) ∧
    Mtn.transactionId mtnResp = tx ∧
    String.prefix "tx_" tx = true ∧
    donations s !! i = None ∧
    donations (post_donate isFloat_gt0 e req s).2 !! i = Some r ∧
    Donation.transaction_id r = tx ∧
    Donation.status r = JS.Str "pending" ∧
    ∀ j r', donations (post_donate isFloat_gt0 e req s).2 !! j = Some r' →
            (Donation.transaction_id r' = tx ↔ j = i).
Proof.
  intros H. apply post_donate_200 in H as [Hv Hu].
  rewrite (post_donate_accepts _ _ _ _ Hv).
  pose proof Hu as Ht. apply transaction_id_taken_false in Ht. rewrite Ht. simpl.
  exists (fresh (dom (donations s))). do 3 eexists.
  split; [reflexivity|]. split; [reflexivity|].
  split; [unfold new_transactionId; rewrite str_app_assoc; apply prefix_app|].
  split; [apply not_elem_of_dom, is_fresh|].
  split; [apply lookup_insert_eq|]. split; [reflexivity|]. split; [reflexivity|].
  intros j r. rewrite lookup_insert. case_decide as Hj.
  - intros [= <-]. by subst.
  - intros Hr. split; [|intros ->; done].
    intros Heq. by destruct (Hu _ _ Hr).
Qed.

Lemma store_two_unknown (tx : string) :
  tx ≠ sample_tx → tx ≠ other_tx → unknown_transaction tx store_two.
Proof.
  intros H1 H2 i r Hr. by destruct (store_two_rows i r Hr) as [-> | ->].
Qed.

Lemma donate_returns_id_of_new_row_witness :
  ∃ i tx mtnResp r,
    (post_donate isFloat_gt0_on_integers later_env sample_donation store_two).1 =
      Http.mk_response 200 (Http.Initiated "Donation initiated" tx mtnResp) ∧
    Mtn.transactionId mtnResp = tx ∧
    String.prefix "tx_" tx = true ∧
    donations store_two !! i = None ∧
    donations (post_donate isFloat_gt0_on_integers later_env sample_donation store_two).2 !! i
      = Some r ∧
    Donation.transaction_id r = tx ∧
    Donation.status r = JS.Str "pending" ∧
    ∀ j r', donations
              (post_donate isFloat_gt0_on_integers later_env sample_donation store_two).2
              !! j = Some r' →
            (Donation.transaction_id r' = tx ↔ j = i).
Proof.
  apply (donate_returns_id_of_new_row isFloat_gt0_on_integers later_env sample_donation
           store_two).
  vm_compute. reflexivity.
Defined.

(** X8: a donation that was initiated and is then named by a delivery
    whose status field has a text, or is missing, ends with the fields of
    the request and the status derived from that delivery, and nothing
    else in the store moves: the store is the old one plus the one row.
    When the conversion of the status field throws, the delivery is
    answered with 500 and the row stays pending. *)
Theorem donate_then_webhook (isFloat_gt0 : JS.value → bool) (e : env) (req : DonateReq.t) (p : WebhookReq.t) (s : store) :
  valid_donation isFloat_gt0 req →
  unknown_transaction (new_transactionId e) s →
  carries_id p (new_transactionId e) →
  ∃ i,
    donations s !! i = None ∧
    (∀ st, derived_status p = Some st →
           (post_webhook_mtn p (post_donate isFloat_gt0 e req s).2).2 =
           mk_store
             (<[i := Donation.mk (DonateReq.donor_name req) (DonateReq.phone req)
                       (sql_bind (DonateReq.amount req)) (new_transactionId e) (JS.Str st)]>
                (donations s))
             (subscribers s)) ∧
    (derived_status p = None →
     (post_webhook_mtn p (post_donate isFloat_gt0 e req s).2).1 =
       Http.mk_response 500 (Http.Message "Server error") ∧
     (post_webhook_mtn p (post_donate isFloat_gt0 e req s).2).2 =
       mk_store
         (<[i := Donation.mk (DonateReq.donor_name req) (DonateReq.phone req)
                   (sql_bind (DonateReq.amount req)) (new_transactionId e)
                   (JS.Str "pending")]>
            (donations s))
         (subscribers s)).
Proof.
  intros Hv Hu [Hp Hne]. rewrite (post_donate_accepts _ _ _ _ Hv).
  pose proof Hu as Ht. apply transaction_id_taken_false in Ht. rewrite Ht.
  exists (fresh (dom (donations s))).
  split; [apply not_elem_of_dom, is_fresh|].
  rewrite post_webhook_mtn_run, Hp.
  apply String.eqb_neq in Hne. rewrite Hne. split.
  - intros st ->. simpl. f_equal.
    rewrite fmap_insert.
    rewrite (set_status_where_match (JS.Str st) (pending_row e req) :
               set_status_where _ (new_transactionId e) (pending_row e req) = _).
    f_equal.
    apply map_eq. intros j. rewrite lookup_fmap.
    destruct (donations s !! j) as [r|] eqn:Hr; simpl; [|done].
    f_equal. apply set_status_where_other. by eapply Hu.
  - by intros ->.
Qed.

Lemma donate_then_webhook_witness :
  ∃ i,
    donations store_two !! i = None ∧
    (∀ st, derived_status (WebhookReq.mk None None (Some "tx_1700000005000i") None
                             (JS.Arr [JS.Prim (JS.Str "Completed")]) (JS.Prim JS.Null))
           = Some st →
           (post_webhook_mtn
              (WebhookReq.mk None None (Some "tx_1700000005000i") None
                 (JS.Arr [JS.Prim (JS.Str "Completed")]) (JS.Prim JS.Null))
              (post_donate isFloat_gt0_on_integers later_env sample_donation store_two).2).2 =
           mk_store
             (<[i := Donation.mk (JS.Str "Alice") (JS.Str "0780000000") (JS.Num 1000)
                       "tx_1700000005000i" (JS.Str st)]>
                (donations store_two))
             (subscribers store_two)) ∧
    (derived_status (WebhookReq.mk None None (Some "tx_1700000005000i") None
                       (JS.Arr [JS.Prim (JS.Str "Completed")]) (JS.Prim JS.Null)) = None →
     (post_webhook_mtn
        (WebhookReq.mk None None (Some "tx_1700000005000i") None
           (JS.Arr [JS.Prim (JS.Str "Completed")]) (JS.Prim JS.Null))
        (post_donate isFloat_gt0_on_integers later_env sample_donation store_two).2).1 =
       Http.mk_response 500 (Http.Message "Server error") ∧
     (post_webhook_mtn
        (WebhookReq.mk None None (Some "tx_1700000005000i") None
           (JS.Arr [JS.Prim (JS.Str "Completed")]) (JS.Prim JS.Null))
        (post_donate isFloat_gt0_on_integers later_env sample_donation store_two).2).2 =
       mk_store
         (<[i := Donation.mk (JS.Str "Alice") (JS.Str "0780000000") (JS.Num 1000)
                   "tx_1700000005000i" (JS.Str "pending")]>
            (donations store_two))
         (subscribers store_two)).
Proof.
  apply (donate_then_webhook isFloat_gt0_on_integers later_env sample_donation
           (WebhookReq.mk None None (Some "tx_1700000005000i") None
              (JS.Arr [JS.Prim (JS.Str "Completed")]) (JS.Prim JS.Null))
           store_two).
  - repeat split; eexists; (split; [reflexivity|discriminate]).
  - apply store_two_unknown; intros E; vm_compute in E; discriminate E.
  - split; [reflexivity|discriminate].
Defined.

Example donate_then_completed :
  Donation.status <$>
    donations
      (post_webhook_mtn
         (WebhookReq.mk None None (Some "tx_1700000005000i") None
            (JS.Arr [JS.Prim (JS.Str "Completed")]) (JS.Prim JS.Null))
         (post_donate isFloat_gt0_on_integers later_env sample_donation store_two).2).2
      !! 3%N
  = Some (JS.Str "confirmed").
Proof. vm_compute. reflexivity. Qed.

(** ** More on the override *)

(** Without a token that verifies, the override is answered with 401
    and the store is left as it was. *)
Theorem override_requires_token (req : StatusReq.t) (s : store) :
  StatusReq.auth req ≠ GoodToken →
  Http.code (put_donation_status req s).1 = 401%N ∧
  (put_donation_status req s).2 = s.
Proof.
  intros H. unfold put_donation_status.
  by destruct (StatusReq.auth req).
Qed.

Lemma override_requires_token_witness :
  Http.code (put_donation_status (StatusReq.mk BadToken 1 (JS.Str "failed")) store_confirmed).1
    = 401%N ∧
  (put_donation_status (StatusReq.mk BadToken 1 (JS.Str "failed")) store_confirmed).2
    = store_confirmed.
Proof.
  apply (override_requires_token (StatusReq.mk BadToken 1 (JS.Str "failed")) store_confirmed).
  discriminate.
Defined.

(** X9: an override that names no row changes nothing and is answered
    with 200 and [{message: "Status updated"}] all the same. *)
Theorem override_of_missing_row (id : N) (st : JS.value) (s : store) :
  donations s !! id = None →
  put_donation_status (StatusReq.mk GoodToken id st) s =
  (Http.mk_response 200 (Http.Message "Status updated"), s).
Proof.
  intros Hid. unfold put_donation_status, put_donation_status_callback, try_catch, bind.
  simpl. f_equal. destruct s as [d subs]; simpl in *. f_equal.
  apply map_eq. intros j. rewrite lookup_alter.
  case_decide; [subst; by rewrite Hid|done].
Qed.

Lemma override_of_missing_row_witness :
  put_donation_status (StatusReq.mk GoodToken 7 (JS.Str "failed")) store_confirmed =
  (Http.mk_response 200 (Http.Message "Status updated"), store_confirmed).
Proof.
  apply (override_of_missing_row 7 (JS.Str "failed") store_confirmed).
  reflexivity.
Defined.

(** X10: requests keep every status within pending, confirmed and failed,
    except an authenticated override that carries another status. *)
Theorem serve_keeps_enum (isFloat_gt0 : JS.value → bool) (rq : request) (s : store) :
  keeps_to_enum rq →
  statuses_in_enum s →
  statuses_in_enum (serve isFloat_gt0 rq s).2.
Proof.
  intros Hrq Hs. destruct rq as [e req|p|req|e req]; simpl.
  - by apply donate_keeps_enum.
  - by apply webhook_keeps_enum.
  - simpl in Hrq. unfold put_donation_status.
    destruct (StatusReq.auth req); simpl; try done.
    unfold put_donation_status_callback, try_catch, bind. simpl.
    intros i r. simpl. rewrite lookup_alter. case_decide; [|apply Hs].
    subst. destruct (donations s !! StatusReq.id req); simpl; [|done].
    intros [= <-]. simpl.
    assert (sql_bind (StatusReq.status req) = StatusReq.status req) as ->;
      [|by apply Hrq].
    specialize (Hrq eq_refl). unfold status_enum in Hrq.
    rewrite !elem_of_cons, elem_of_nil in Hrq.
    by destruct Hrq as [->|[->|[->|[]]]].
  - destruct (post_subscribe_store e req s) as [-> | [_ ->]]; done.
Qed.

Lemma serve_keeps_enum_witness :
  statuses_in_enum
    (serve isFloat_gt0_on_integers
       (AdminStatus (StatusReq.mk GoodToken 1 (JS.Str "failed"))) store_confirmed).2.
Proof.
  apply (serve_keeps_enum isFloat_gt0_on_integers
           (AdminStatus (StatusReq.mk GoodToken 1 (JS.Str "failed"))) store_confirmed).
  - intros _. simpl. unfold status_enum. rewrite !elem_of_cons. auto.
  - intros i r. unfold store_confirmed. simpl.
    rewrite lookup_singleton. case_decide; [|done].
    intros [= <-]. unfold status_enum. simpl. rewrite !elem_of_cons. auto.
Defined.

(** ** The matcher against the patterns *)

Section Matcher.

Variable is_space : ascii → bool.

Lemma re_matches_non_empty (r : Regex.re) (s : string) :
  re_matches is_space r s → s ≠ "".
Proof.
  induction 1 as [c|c Hc|r1 r2 s1 s2 H1 IH1 H2 IH2|r s H IH|r s1 s2 H1 IH1 H2 IH2];
    try done; by destruct s1.
Qed.

Lemma matches_all_app (k1 k2 : list Regex.re) (s1 s2 : string) :
  matches_all is_space k1 s1 → matches_all is_space k2 s2 →
  matches_all is_space (k1 ++ k2) (s1 +:+ s2).
Proof.
  revert s1. induction k1 as [|r k1 IH]; simpl; intros s1 H1 H2.
  - by subst.
  - destruct H1 as (t1 & t2 & -> & Hr & Hk).
    exists t1, (t2 +:+ s2). rewrite str_app_assoc. eauto.
Qed.

Lemma matches_all_app_inv (k1 k2 : list Regex.re) (s : string) :
  matches_all is_space (k1 ++ k2) s →
  ∃ s1 s2, s = s1 +:+ s2 ∧ matches_all is_space k1 s1 ∧ matches_all is_space k2 s2.
Proof.
  revert s. induction k1 as [|r k1 IH]; simpl; intros s H.
  - by exists "", s.
  - destruct H as (t1 & t2 & -> & Hr & Hk).
    destruct (IH _ Hk) as (u1 & u2 & -> & Hu1 & Hu2).
    exists (t1 +:+ u1), u2. rewrite str_app_assoc. eauto 10.
Qed.

Lemma matches_all_one (r : Regex.re) (s : string) :
  matches_all is_space [r] s ↔ re_matches is_space r s.
Proof.
  simpl. split.
  - intros (s1 & s2 & -> & H & ->). by rewrite str_app_nil_r.
  - intros H. exists s, "". by rewrite str_app_nil_r.
Qed.

Lemma matches_all_empty (k : list Regex.re) :
  matches_all is_space k "" ↔ k = [].
Proof.
  destruct k as [|r k]; simpl; [done|]. split; [|done].
  intros (s1 & s2 & E & H & _). apply re_matches_non_empty in H.
  by destruct s1.
Qed.

Lemma deriv1_complete (r : Regex.re) (s : string) :
  re_matches is_space r s →
  ∀ c t, s = String c t →
         ∃ k, In k (Regex.deriv1 is_space c r) ∧ matches_all is_space k t.
Proof.
  induction 1 as [d|d Hd|r1 r2 s1 s2 H1 IH1 H2 IH2|r s H IH|r s1 s2 H1 IH1 H2 IH2];
    intros c t E; simpl.
  - injection E as -> <-. rewrite Ascii.eqb_refl. exists []. simpl. auto.
  - injection E as -> <-. rewrite Hd. exists []. simpl. auto.
  - destruct s1 as [|c1 u]; [by apply re_matches_non_empty in H1|].
    rewrite str_app_cons in E. injection E as -> <-.
    destruct (IH1 _ _ eq_refl) as (k & Hk & Hm).
    exists (k ++ [r2]). split; [apply in_map_iff; eauto|].
    apply matches_all_app; [done|]. by apply matches_all_one.
  - destruct (IH _ _ E) as (k & Hk & Hm).
    exists k. split; [|done]. apply in_app_iff. auto.
  - destruct s1 as [|c1 u]; [by apply re_matches_non_empty in H1|].
    rewrite str_app_cons in E. injection E as -> <-.
    destruct (IH1 _ _ eq_refl) as (k & Hk & Hm).
    exists (k ++ [Regex.Plus r]). split.
    + apply in_app_iff. right. apply in_map_iff. eauto.
    + apply matches_all_app; [done|]. by apply matches_all_one.
Qed.

Lemma deriv1_sound (r : Regex.re) (c : ascii) (t : string) (k : list Regex.re) :
  In k (Regex.deriv1 is_space c r) → matches_all is_space k t →
  re_matches is_space r (String c t).
Proof.
  revert t k. induction r as [d| |r1 IH1 r2 IH2|r IH]; simpl; intros t k Hk Hm.
  - destruct (Ascii.eqb_spec c d) as [->|]; [|done].
    destruct Hk as [<-|[]]. simpl in Hm. subst. constructor.
  - destruct (is_space c) eqn:Hc; [done|].
    destruct Hk as [<-|[]]. simpl in Hm. subst. by constructor.
  - apply in_map_iff in Hk as (k1 & <- & Hk1).
    apply matches_all_app_inv in Hm as (t1 & t2 & -> & Hm1 & Hm2).
    apply matches_all_one in Hm2.
    rewrite <- str_app_cons. constructor; eauto.
  - apply in_app_iff in Hk as [Hk|Hk].
    + apply matches_plus_one. eauto.
    + apply in_map_iff in Hk as (k1 & <- & Hk1).
      apply matches_all_app_inv in Hm as (t1 & t2 & -> & Hm1 & Hm2).
      apply matches_all_one in Hm2.
      rewrite <- str_app_cons. apply matches_plus_more; eauto.
Qed.

Lemma deriv_seq_correct (k : list Regex.re) (c : ascii) (t : string) :
  matches_all is_space k (String c t) ↔
  ∃ k', In k' (Regex.deriv_seq is_space c k) ∧ matches_all is_space k' t.
Proof.
  destruct k as [|r k]; simpl.
  - split; [done|]. by intros (k' & [] & _).
  - split.
    + intros (s1 & s2 & E & Hr & Hk).
      destruct s1 as [|c1 u]; [by apply re_matches_non_empty in Hr|].
      rewrite str_app_cons in E. injection E as -> ->.
      destruct (deriv1_complete _ _ Hr _ _ eq_refl) as (d & Hd & Hm).
      exists (d ++ k). split; [apply in_map_iff; eauto|].
      by apply matches_all_app.
    + intros (k' & Hk' & Hm).
      apply in_map_iff in Hk' as (d & <- & Hd).
      apply matches_all_app_inv in Hm as (t1 & t2 & -> & Hm1 & Hm2).
      exists (String c t1), t2. split; [done|]. split; [|done].
      by eapply deriv1_sound.
Qed.

Lemma matches_from_correct (ks : list (list Regex.re)) (s : string) :
  Regex.matches_from is_space ks s = true ↔
  ∃ k, In k ks ∧ matches_all is_space k s.
Proof.
  revert ks. induction s as [|c t IH]; intros ks; simpl.
  - rewrite existsb_exists. split.
    + intros (k & Hk & E). exists k. split; [done|].
      apply matches_all_empty. by destruct k.
    + intros (k & Hk & Hm). exists k. split; [done|].
      apply matches_all_empty in Hm. by subst.
  - rewrite IH. split.
    + intros (k' & Hk' & Hm). apply in_concat in Hk' as (l & Hl & Hk').
      apply in_map_iff in Hl as (k & <- & Hk).
      exists k. split; [done|]. apply deriv_seq_correct. eauto.
    + intros (k & Hk & Hm). apply deriv_seq_correct in Hm as (k' & Hk' & Hm).
      exists k'. split; [|done]. apply in_concat.
      exists (Regex.deriv_seq is_space c k). split; [|done].
      apply in_map_iff. eauto.
Qed.

(** The matcher accepts a string exactly when the pattern, read as a
    pattern, matches the whole of it. *)
Theorem regex_test_correct (r : Regex.re) (s : string) :
  Regex.test is_space r s = true ↔ re_matches is_space r s.
Proof.
  unfold Regex.test. rewrite matches_from_correct. split.
  - intros (k & [<-|[]] & Hm). by apply matches_all_one.
  - intros H. exists [r]. split; [by left|]. by apply matches_all_one.
Qed.

Lemma plus_non_space (s : string) :
  re_matches is_space (Regex.Plus Regex.NonSpace) s ↔
  s ≠ "" ∧ all_chars (λ c, is_space c = false) s.
Proof.
  split.
  - intros H. remember (Regex.Plus Regex.NonSpace) as r eqn:Er.
    induction H as [d|d Hd|r1 r2 s1 s2 H1 IH1 H2 IH2|r s H IH|r s1 s2 H1 IH1 H2 IH2];
      try discriminate Er; injection Er as ->.
    + inversion H; subst. simpl. auto.
    + inversion H1; subst. rewrite str_app_cons, str_app_nil_l.
      split; [done|]. simpl. split; [done|]. by apply IH2.
  - intros [Hne Hs]. induction s as [|c s IH]; [done|].
    destruct Hs as [Hc Hs]. destruct s as [|c' s'].
    + apply matches_plus_one. by constructor.
    + change (String c (String c' s')) with (String c "" +:+ String c' s').
      apply matches_plus_more; [by constructor|]. by apply IH.
Qed.

End Matcher.

Lemma email_re_matches (s : string) :
  re_matches Text.is_space email_re s ↔ email_shaped s.
Proof.
  unfold email_re, email_shaped, non_space_run. split.
  - intros H.
    inversion H as [| |? ? a r1 Ha H1| |]; subst.
    inversion H1 as [| |? ? at_ r2 Hat H2| |]; subst.
    inversion H2 as [| |? ? b r3 Hb H3| |]; subst.
    inversion H3 as [| |? ? dot c Hdot Hc| |]; subst.
    inversion Hat; subst. inversion Hdot; subst.
    apply plus_non_space in Ha, Hb, Hc. eauto 10.
  - intros (a & b & c & -> & Ha & Hb & Hc).
    apply plus_non_space in Ha, Hb, Hc.
    repeat (constructor; try done).
Qed.

(** The pattern on a text, by the matcher and by the shape. *)
Lemma email_re_test_text (s : string) :
  email_re_test (JS.Str s) = true ↔ email_shaped s ∧ Text.has_wide_space s = false.
Proof.
  unfold email_re_test. cbn [JS.String_].
  by rewrite andb_true_iff, negb_true_iff, regex_test_correct, email_re_matches.
Qed.

(** X11: the subscription pattern accepts a text exactly when it is
    something, an at sign, something, a dot and something, each something
    being one or more characters, with no white space anywhere. *)
Theorem email_re_test_shape (s : string) :
  email_re_test (JS.Str s) = true ↔
  email_shaped s ∧ Text.has_wide_space s = false.
Proof.
  unfold email_re_test. simpl.
  rewrite andb_true_iff, negb_true_iff, regex_test_correct.
  by rewrite email_re_matches.
Qed.

(** A text of that shape contains an at sign. *)
Lemma email_shaped_has_at (s : string) : email_shaped s → JS.includes s "@" = true.
Proof. intros (a & b & c & -> & _). apply includes_app. Qed.

(** ** More on subscriptions *)

Lemma email_re_test_number (n : Z) : email_re_test (JS.Num n) = false.
Proof.
  apply not_true_iff_false. intros H.
  change (email_re_test (JS.Str (pretty n)) = true) in H.
  apply email_re_test_text in H as [H _]. apply email_shaped_has_at in H.
  apply (includes_first_char numeral_char) in H; [|apply pretty_Z_numeral].
  unfold numeral_char in H. simpl in H. lia.
Qed.

(** X12: a subscription whose email is missing, [null], a boolean, a
    number, or a text that is not of the shape something, at sign,
    something, dot, something, is refused with 400 and [{error: "Valid
    email required"}], and stores nothing.  An email that is an array or
    an object is another matter, the pattern being tested on its text; the
    property does not speak of it. *)
Theorem subscribe_rejects_malformed (e : env) (req : SubscribeReq.t) (s : store) :
  SubscribeReq.email req = JS.Undefined ∨
  SubscribeReq.email req = JS.Null ∨
  (∃ b, SubscribeReq.email req = JS.Bool b) ∨
  (∃ n, SubscribeReq.email req = JS.Num n) ∨
  (∃ t, SubscribeReq.email req = JS.Str t ∧ ¬ email_shaped t) →
  post_subscribe e req s =
  (Http.mk_response 400 (Http.Error "Valid email required"), s).
Proof.
  unfold post_subscribe.
  intros [->|[->|[[[] ->]|[[n ->]|(t & -> & Ht)]]]]; try reflexivity.
  - by rewrite email_re_test_number, orb_true_r.
  - destruct (email_re_test (JS.Str t)) eqn:E; [|by rewrite orb_true_r].
    apply email_re_test_text in E as [E _]. by destruct Ht.
Qed.

Lemma subscribe_rejects_malformed_witness :
  post_subscribe later_env (SubscribeReq.mk (JS.Num 250788000000)) store_with_fan =
    (Http.mk_response 400 (Http.Error "Valid email required"), store_with_fan) ∧
  post_subscribe later_env (SubscribeReq.mk (JS.Str "bob@band")) store_with_fan =
    (Http.mk_response 400 (Http.Error "Valid email required"), store_with_fan).
Proof.
  split.
  - apply (subscribe_rejects_malformed later_env (SubscribeReq.mk (JS.Num 250788000000))
             store_with_fan).
    right. right. right. left. eexists. reflexivity.
  - apply (subscribe_rejects_malformed later_env (SubscribeReq.mk (JS.Str "bob@band"))
             store_with_fan).
    right. right. right. right. eexists. split; [reflexivity|].
    intros H. assert (email_re_test (JS.Str "bob@band") = true) as E.
    { apply email_re_test_text. split; [exact H|reflexivity]. }
    vm_compute in E. discriminate E.
Defined.

Lemma email_taken_false (v : JS.value) (s : store) :
  email_taken v s = false ↔ ∀ i, subscribers s !! i ≠ Some v.
Proof.
  unfold email_taken. rewrite bool_decide_eq_false. unfold map_Exists. split.
  - intros Hn i Hi. apply Hn. eauto.
  - intros Hu (i & x & Hi & ->). by eapply Hu.
Qed.

(** An acceptable email that no subscriber has, arriving at a
    millisecond no subscriber arrived at, is answered with 201 and stored
    under that millisecond; every other subscriber stays. *)
Theorem subscribe_new_email (e : env) (req : SubscribeReq.t) (s : store) :
  acceptable_email (SubscribeReq.email req) →
  subscribers s !! JS.String_ (JS.Num (now e)) = None →
  (∀ i, subscribers s !! i ≠ Some (SubscribeReq.email req)) →
  post_subscribe e req s =
  (Http.mk_response 201 (Http.Message "Subscribed successfully"),
   mk_store (donations s)
     (<[JS.String_ (JS.Num (now e)) := SubscribeReq.email req]> (subscribers s))).
Proof.
  intros (Hn & Hre & Hlen) Hid Hfree.
  unfold post_subscribe, insert_subscriber. rewrite Hn, Hre. simpl.
  destruct (Nat.ltb_spec 255 (Text.char_length (JS.String_ (SubscribeReq.email req))));
    [lia|].
  apply email_taken_false in Hfree. rewrite Hfree.
  rewrite bool_decide_eq_false_2; [done|].
  simpl in Hid. rewrite Hid. by intros [? ?].
Qed.

Lemma subscribe_new_email_witness :
  post_subscribe later_env bob store_with_fan =
  (Http.mk_response 201 (Http.Message "Subscribed successfully"),
   mk_store (donations store_with_fan)
     (<[JS.String_ (JS.Num (now later_env)) := SubscribeReq.email bob]>
        (subscribers store_with_fan))).
Proof.
  apply (subscribe_new_email later_env bob store_with_fan).
  - split; [reflexivity|]. split; [reflexivity|]. vm_compute. lia.
  - reflexivity.
  - intros i.
    assert (subscribers store_with_fan = <["1700000000000" := JS.Str "fan@band.rw"]> ∅)
      as -> by reflexivity.
    rewrite lookup_insert. case_decide; [discriminate|].
    rewrite lookup_empty. discriminate.
Defined.

(** X13: the key of a subscriber is the millisecond of arrival, so a second
    subscription in the same millisecond is answered with 409 and
    [{error: "Email already subscribed"}] even when its email is new, and
    is not stored. *)
Theorem subscribe_same_millisecond (e : env) (req : SubscribeReq.t) (s : store) :
  acceptable_email (SubscribeReq.email req) →
  is_Some (subscribers s !! JS.String_ (JS.Num (now e))) →
  post_subscribe e req s =
  (Http.mk_response 409 (Http.Error "Email already subscribed"), s).
Proof.
  intros (Hn & Hre & Hlen) Hid.
  unfold post_subscribe, insert_subscriber. rewrite Hn, Hre. simpl.
  destruct (Nat.ltb_spec 255 (Text.char_length (JS.String_ (SubscribeReq.email req))));
    [lia|].
  simpl in Hid. by rewrite bool_decide_eq_true_2.
Qed.

Lemma subscribe_same_millisecond_witness :
  post_subscribe sample_env bob store_with_fan =
  (Http.mk_response 409 (Http.Error "Email already subscribed"), store_with_fan).
Proof.
  apply (subscribe_same_millisecond sample_env bob store_with_fan).
  - split; [reflexivity|]. split; [reflexivity|]. vm_compute. lia.
  - eexists. reflexivity.
Defined.

Lemma post_subscribe_unique (e : env) (req : SubscribeReq.t) (s : store) :
  emails_unique s → emails_unique (post_subscribe e req s).2.
Proof.
  intros Hs. unfold post_subscribe, insert_subscriber.
  destruct (JS.not _ || _); simpl; [done|].
  destruct (255 <? _)%nat; simpl; [done|].
  destruct (bool_decide (is_Some _)) eqn:Hid; simpl; [done|].
  destruct (email_taken _ s) eqn:Hfree; simpl; [done|].
  pose proof (proj1 (email_taken_false _ _) Hfree) as Hnew. clear Hfree.
  intros i j v. simpl. rewrite !lookup_insert.
  repeat case_decide; subst; try done.
  - intros [= <-] Hj. by destruct (Hnew j).
  - intros Hi [= <-]. by destruct (Hnew i).
  - apply Hs.
Qed.

Lemma serve_emails_unique (isFloat_gt0 : JS.value → bool) (rq : request) (s : store) :
  emails_unique s → emails_unique (serve isFloat_gt0 rq s).2.
Proof.
  destruct rq as [e req|p|req|e req]; simpl.
  - unfold emails_unique. by rewrite post_donate_subscribers.
  - unfold emails_unique. by rewrite post_webhook_mtn_subscribers.
  - unfold emails_unique. by rewrite put_donation_status_subscribers.
  - apply post_subscribe_unique.
Qed.

(** X14: whatever requests were served, no two subscribers have the same
    email. *)
Theorem reachable_emails_unique (isFloat_gt0 : JS.value → bool) (s : store) :
  reachable isFloat_gt0 s → emails_unique s.
Proof.
  induction 1 as [|rq s Hs IH].
  - intros i j v H. simpl in H. by rewrite lookup_empty in H.
  - by apply serve_emails_unique.
Qed.

(** Three subscriptions: fan, bob, and fan once more, later; the third is
    refused, and the table holds the two. *)
Example fan_bob_fan :
  (serve isFloat_gt0_on_integers (Subscribe (mk_env 1700000009000 "0.k") fan)
     store_with_fan_and_bob) =
    (Http.mk_response 409 (Http.Error "Email already subscribed"), store_with_fan_and_bob) ∧
  subscribers store_with_fan_and_bob !! "1700000000000" = Some (JS.Str "fan@band.rw") ∧
  subscribers store_with_fan_and_bob !! "1700000005000" = Some (JS.Str "bob@band.rw").
Proof. split; [|split]; vm_compute; reflexivity. Qed.

Lemma reachable_emails_unique_witness :
  emails_unique
    (serve isFloat_gt0_on_integers (Subscribe (mk_env 1700000009000 "0.k") fan)
       store_with_fan_and_bob).2.
Proof.
  apply (reachable_emails_unique isFloat_gt0_on_integers
           (serve isFloat_gt0_on_integers (Subscribe (mk_env 1700000009000 "0.k") fan)
              store_with_fan_and_bob).2).
  apply reachable_serve.
  apply (reachable_serve isFloat_gt0_on_integers (Subscribe later_env bob) store_with_fan).
  apply (reachable_serve isFloat_gt0_on_integers (Subscribe sample_env fan) empty_store).
  apply reachable_empty.
Defined.

(** ** The token of a request *)

Example replace_bearer : replace_first "Bearer " "" "Bearer abc.def" = "abc.def".
Proof. reflexivity. Qed.

Example replace_inner : replace_first "Bearer " "" "Token Bearer x Bearer y" = "Token x Bearer y".
Proof. reflexivity. Qed.

Lemma drop_chars_app (a b : string) : drop_chars (String.length a) (a +:+ b) = b.
Proof. induction a as [|c a IH]; simpl; [by destruct b|done]. Qed.

Lemma replace_first_prefix (pat rep t : string) :
  replace_first pat rep (pat +:+ t) = rep +:+ t.
Proof.
  destruct (pat +:+ t) eqn:E; cbn [replace_first]; rewrite <- E;
    by rewrite prefix_app, drop_chars_app.
Qed.

Lemma replace_first_absent (pat rep s : string) :
  JS.includes s pat = false → replace_first pat rep s = s.
Proof.
  induction s as [|c s IH]; cbn [JS.includes replace_first]; intros H;
    apply orb_false_iff in H as [H1 H2]; rewrite H1; [done|].
  by rewrite IH.
Qed.

(** X15: a cookie token that is not empty decides alone: the Authorization
    header is not looked at, so a cookie that does not verify is refused
    even beside a header that would verify. *)
Theorem cookie_token_decides (verifies : string → bool) (token : string) (authorization : option string) :
  token ≠ "" →
  credentials_of verifies (Some token) authorization =
  if verifies token then GoodToken else BadToken.
Proof.
  intros Hne. unfold credentials_of, request_token, or_id.
  apply String.eqb_neq in Hne. by rewrite Hne, Hne.
Qed.

Lemma cookie_token_decides_witness :
  credentials_of (String.eqb "good") (Some "stale") (Some "Bearer good") = BadToken.
Proof.
  apply (cookie_token_decides (String.eqb "good") "stale" (Some "Bearer good")).
  discriminate.
Defined.

(** X16: without a cookie token, the token of a header [Bearer t] is [t];
    when [t] is empty the request counts as carrying no token. *)
Theorem bearer_header_token (verifies : string → bool) (cookie : option string) (t : string) :
  cookie = None ∨ cookie = Some "" →
  credentials_of verifies cookie (Some ("Bearer " +:+ t)) =
  if String.eqb t "" then NoToken
  else if verifies t then GoodToken else BadToken.
Proof.
  intros Hc. unfold credentials_of, request_token.
  rewrite (or_id_no_id _ _ Hc). unfold fmap, option_fmap, option_map.
  by rewrite replace_first_prefix.
Qed.

Lemma bearer_header_token_witness :
  credentials_of (String.eqb "good") None (Some ("Bearer " +:+ "good")) = GoodToken.
Proof.
  apply (bearer_header_token (String.eqb "good") None "good"). by left.
Defined.

(** Without a cookie token, a header in which [Bearer ] followed by a
    space does not occur is taken whole as the token: the scheme is not
    required. *)
Theorem bare_header_token (verifies : string → bool) (cookie : option string) (h : string) :
  cookie = None ∨ cookie = Some "" →
  JS.includes h "Bearer " = false →
  credentials_of verifies cookie (Some h) =
  if String.eqb h "" then NoToken
  else if verifies h then GoodToken else BadToken.
Proof.
  intros Hc Hh. unfold credentials_of, request_token.
  rewrite (or_id_no_id _ _ Hc). unfold fmap, option_fmap, option_map.
  by rewrite replace_first_absent.
Qed.

Lemma bare_header_token_witness :
  credentials_of (String.eqb "good") (Some "") (Some "good") = GoodToken.
Proof.
  apply (bare_header_token (String.eqb "good") (Some "") "good"); [by right|reflexivity].
Defined.

(** ** Events *)

(** The driver binds a value that is present as it is. *)
Lemma sql_bind_present (v : JS.value) : v ≠ JS.Undefined → sql_bind v = v.
Proof. by destruct v. Qed.

Lemma bound_row_present (name date venue status : JS.value) :
  name ≠ JS.Undefined → date ≠ JS.Undefined → venue ≠ JS.Undefined →
  status ≠ JS.Undefined →
  Events.bound_row name date venue status = Event.mk name date venue status.
Proof. intros. unfold Events.bound_row. by rewrite !sql_bind_present. Qed.

(** X17: an event posted with a name, a date and a venue is stored under an
    id no event had, with the status of the request, or scheduled when the
    request has none, and answered with 201 and that id; read back with
    [GET /:id], it is the event that was answered. *)
Theorem post_event_then_get (b : Events.event_body) (t : gmap N Event.row) :
  JS.truthy (Events.name b) = true →
  JS.truthy (Events.date b) = true →
  JS.truthy (Events.venue b) = true →
  ∃ id r,
    t !! id = None ∧
    Events.post_event b t = (mk_reply 201 (Events.EventJson id r), <[id := r]> t) ∧
    Event.name r = Events.name b ∧ Event.date r = Events.date b ∧
    Event.venue r = Events.venue b ∧
    Event.status r =
      (if decide (Events.status b = JS.Undefined) then JS.Str "scheduled"
       else Events.status b) ∧
    Events.get_event id (Events.post_event b t).2 = mk_reply 200 (Events.EventJson id r).
Proof.
  intros Hn Hd Hv. unfold Events.post_event, JS.not. rewrite Hn, Hd, Hv. simpl.
  rewrite bound_row_present;
    [|by intros E; rewrite E in Hn|by intros E; rewrite E in Hd
     |by intros E; rewrite E in Hv|by destruct (Events.status b)].
  eexists _, _. split; [apply not_elem_of_dom, is_fresh|].
  split; [reflexivity|]. do 3 (split; [reflexivity|]).
  split; [by destruct (Events.status b)|].
  unfold Events.get_event. by rewrite lookup_insert_eq.
Qed.

Lemma post_event_then_get_witness :
  ∃ id r,
    (∅ : gmap N Event.row) !! id = None ∧
    Events.post_event sample_event ∅ =
      (mk_reply 201 (Events.EventJson id r), <[id := r]> ∅) ∧
    Event.name r = Events.name sample_event ∧ Event.date r = Events.date sample_event ∧
    Event.venue r = Events.venue sample_event ∧
    Event.status r =
      (if decide (Events.status sample_event = JS.Undefined) then JS.Str "scheduled"
       else Events.status sample_event) ∧
    Events.get_event id (Events.post_event sample_event ∅).2 =
      mk_reply 200 (Events.EventJson id r).
Proof.
  apply (post_event_then_get sample_event ∅); reflexivity.
Defined.

(** An event posted without a name, a date or a venue, or with an
    empty one, is answered with 400 and not stored. *)
Theorem post_event_requires_fields (b : Events.event_body) (t : gmap N Event.row) :
  JS.truthy (Events.name b) = false ∨ JS.truthy (Events.date b) = false ∨
  JS.truthy (Events.venue b) = false →
  Events.post_event b t =
  (mk_reply 400 (Events.Error "Name, date, and venue are required"), t).
Proof.
  unfold Events.post_event, JS.not.
  intros [->|[->| ->]]; simpl; by rewrite ?orb_true_r.
Qed.

Lemma post_event_requires_fields_witness :
  Events.post_event (Events.mk_body (JS.Str "Kigali Live") (JS.Str "") JS.Null JS.Undefined)
    one_event =
  (mk_reply 400 (Events.Error "Name, date, and venue are required"), one_event).
Proof.
  apply (post_event_requires_fields
           (Events.mk_body (JS.Str "Kigali Live") (JS.Str "") JS.Null JS.Undefined) one_event).
  right. left. reflexivity.
Defined.

Lemma notify_all (sendMail : Events.mail → bool) (mk : JS.value → Events.mail) (subs : list JS.value) :
  Events.delivered (Events.notify sendMail mk subs) ++
  Events.failed (Events.notify sendMail mk subs) ≡ₚ mk <$> subs.
Proof.
  induction subs as [|sub rest IH]; simpl; [done|].
  destruct (sendMail (mk sub)); simpl.
  - by rewrite IH.
  - by rewrite <- Permutation_middle, IH.
Qed.

Lemma notify_delivered (sendMail : Events.mail → bool) (mk : JS.value → Events.mail) (subs : list JS.value) (m : Events.mail) :
  m ∈ Events.delivered (Events.notify sendMail mk subs) ↔
  m ∈ mk <$> subs ∧ sendMail m = true.
Proof.
  induction subs as [|sub rest IH]; simpl.
  - rewrite elem_of_nil. by split; [|intros [? _]].
  - destruct (sendMail (mk sub)) eqn:E; simpl; rewrite ?elem_of_cons, IH; split.
    + intros [->|[? ?]]; auto.
    + intros [[->|?] ?]; auto.
    + intros [? ?]; auto.
    + intros [[->|?] ?]; [congruence|auto].
Qed.

Lemma recipients_of_mails (name date venue : JS.value) (subs : list JS.value) :
  Events.to <$> (Events.event_mail name date venue <$> subs) = subs.
Proof. induction subs as [|sub rest IH]; [done|]. rewrite !fmap_cons. by f_equal. Qed.

(** X18: when an event is put to confirmed, the loop tries every
    subscriber once, whatever [sendMail] does with the earlier ones: the
    mails taken and the mails thrown on are, together, one mail per
    subscriber, and a mail is among those taken exactly when [sendMail]
    takes it.  The answer is 200 with the fields of the request, and the
    row holds what the driver binds of them. *)
Theorem put_event_confirmed_notifies_all (sendMail : Events.mail → bool) (subs : list JS.value) (id : N) (b : Events.event_body) (t : gmap N Event.row) :
  is_Some (t !! id) →
  Events.status b = JS.Str "confirmed" →
  ∃ out,
    Events.put_event sendMail subs id b t =
      (mk_reply 200
         (Events.EventJson id
            (Event.mk (Events.name b) (Events.date b) (Events.venue b) (JS.Str "confirmed"))),
       <[id := Event.mk (sql_bind (Events.name b)) (sql_bind (Events.date b))
                 (sql_bind (Events.venue b)) (JS.Str "confirmed")]> t,
       out) ∧
    Events.to <$> (Events.delivered out ++ Events.failed out) ≡ₚ subs ∧
    ∀ m, m ∈ Events.delivered out ↔
         m ∈ Events.event_mail (Events.name b) (Events.date b) (Events.venue b) <$> subs ∧
         sendMail m = true.
Proof.
  intros [r0 Hr0] Hst. unfold Events.put_event. rewrite Hr0, Hst.
  rewrite decide_True by done. eexists.
  split; [reflexivity|]. split.
  - by rewrite notify_all, recipients_of_mails.
  - apply notify_delivered.
Qed.

Lemma put_event_confirmed_notifies_all_witness :
  ∃ out,
    Events.put_event flaky_mailer [JS.Str "fan@band.rw"; JS.Str "bob@band.rw"] 0
      sample_event_confirmed one_event =
      (mk_reply 200
         (Events.EventJson 0
            (Event.mk (JS.Str "Kigali Live") (JS.Str "2025-12-31") (JS.Str "BK Arena")
               (JS.Str "confirmed"))),
       <[0%N := Event.mk (JS.Str "Kigali Live") (JS.Str "2025-12-31") (JS.Str "BK Arena")
                  (JS.Str "confirmed")]> one_event,
       out) ∧
    Events.to <$> (Events.delivered out ++ Events.failed out)
      ≡ₚ [JS.Str "fan@band.rw"; JS.Str "bob@band.rw"] ∧
    ∀ m, m ∈ Events.delivered out ↔
         m ∈ Events.event_mail (Events.name sample_event_confirmed)
               (Events.date sample_event_confirmed) (Events.venue sample_event_confirmed)
             <$> [JS.Str "fan@band.rw"; JS.Str "bob@band.rw"] ∧
         flaky_mailer m = true.
Proof.
  apply (put_event_confirmed_notifies_all flaky_mailer
           [JS.Str "fan@band.rw"; JS.Str "bob@band.rw"] 0 sample_event_confirmed one_event).
  - eexists. reflexivity.
  - reflexivity.
Defined.

Example flaky_fan_out :
  Events.to <$> Events.failed
    (Events.put_event flaky_mailer [JS.Str "fan@band.rw"; JS.Str "bob@band.rw"] 0
       sample_event_confirmed one_event).2 = [JS.Str "fan@band.rw"] ∧
  Events.to <$> Events.delivered
    (Events.put_event flaky_mailer [JS.Str "fan@band.rw"; JS.Str "bob@band.rw"] 0
       sample_event_confirmed one_event).2 = [JS.Str "bob@band.rw"].
Proof. split; reflexivity. Qed.

(** X19: no mail is sent unless the status of the request is exactly the
    text confirmed. *)
Theorem put_event_silent (sendMail : Events.mail → bool) (subs : list JS.value) (id : N) (b : Events.event_body) (t : gmap N Event.row) :
  Events.status b ≠ JS.Str "confirmed" →
  (Events.put_event sendMail subs id b t).2 = Events.mk_fan_out [] [].
Proof.
  unfold Events.put_event. intros H.
  destruct (t !! id); [|done]. by rewrite decide_False.
Qed.

Lemma put_event_silent_witness :
  (Events.put_event flaky_mailer [JS.Str "fan@band.rw"] 0
     (Events.mk_body (JS.Str "Kigali Live") (JS.Str "2025-12-31") (JS.Str "BK Arena")
        (JS.Str "Confirmed")) one_event).2 = Events.mk_fan_out [] [].
Proof.
  apply (put_event_silent flaky_mailer [JS.Str "fan@band.rw"] 0
           (Events.mk_body (JS.Str "Kigali Live") (JS.Str "2025-12-31") (JS.Str "BK Arena")
              (JS.Str "Confirmed")) one_event).
  discriminate.
Defined.

(** Putting an event that does not exist is answered with 404,
    changes nothing and sends no mail, confirmed or not. *)
Theorem put_event_missing (sendMail : Events.mail → bool) (subs : list JS.value) (id : N) (b : Events.event_body) (t : gmap N Event.row) :
  t !! id = None →
  Events.put_event sendMail subs id b t =
  (mk_reply 404 (Events.Error "Event not found"), t, Events.mk_fan_out [] []).
Proof. unfold Events.put_event. by intros ->. Qed.

Lemma put_event_missing_witness :
  Events.put_event flaky_mailer [JS.Str "fan@band.rw"] 5 sample_event_confirmed one_event =
  (mk_reply 404 (Events.Error "Event not found"), one_event, Events.mk_fan_out [] []).
Proof.
  apply (put_event_missing flaky_mailer [JS.Str "fan@band.rw"] 5 sample_event_confirmed
           one_event).
  reflexivity.
Defined.

(** X20: [PUT /:id] replaces the whole row: read back, the event has the
    fields the request holds and [null] in each field the request leaves
    out, whatever the row held before; no other event has moved. *)
Theorem put_event_then_get (sendMail : Events.mail → bool) (subs : list JS.value) (id : N) (b : Events.event_body) (t : gmap N Event.row) :
  is_Some (t !! id) →
  ∃ r,
    Events.get_event id (Events.put_event sendMail subs id b t).1.2 =
      mk_reply 200 (Events.EventJson id r) ∧
    Event.name r = (if decide (Events.name b = JS.Undefined) then JS.Null else Events.name b) ∧
    Event.date r = (if decide (Events.date b = JS.Undefined) then JS.Null else Events.date b) ∧
    Event.venue r =
      (if decide (Events.venue b = JS.Undefined) then JS.Null else Events.venue b) ∧
    Event.status r =
      (if decide (Events.status b = JS.Undefined) then JS.Null else Events.status b) ∧
    ∀ j, j ≠ id →
         Events.get_event j (Events.put_event sendMail subs id b t).1.2 =
         Events.get_event j t.
Proof.
  intros [r0 Hr0]. unfold Events.put_event, Events.get_event. rewrite Hr0. simpl.
  rewrite lookup_insert_eq. eexists. split; [reflexivity|]. simpl.
  split; [by destruct (Events.name b)|]. split; [by destruct (Events.date b)|].
  split; [by destruct (Events.venue b)|]. split; [by destruct (Events.status b)|].
  intros j Hj. by rewrite lookup_insert_ne.
Qed.

Lemma put_event_then_get_witness :
  ∃ r,
    Events.get_event 0 (Events.put_event flaky_mailer [] 0 rename_event one_event).1.2 =
      mk_reply 200 (Events.EventJson 0 r) ∧
    Event.name r = JS.Str "Renamed" ∧
    Event.date r = JS.Null ∧
    Event.venue r = JS.Null ∧
    Event.status r = JS.Null ∧
    ∀ j, j ≠ 0%N →
         Events.get_event j (Events.put_event flaky_mailer [] 0 rename_event one_event).1.2 =
         Events.get_event j one_event.
Proof.
  apply (put_event_then_get flaky_mailer [] 0 rename_event one_event).
  eexists. reflexivity.
Defined.

Example rename_event_read_back :
  Events.get_event 0 one_event =
    mk_reply 200
      (Events.EventJson 0
         (Event.mk (JS.Str "Kigali Live") (JS.Str "2025-12-31") (JS.Str "BK Arena")
            (JS.Str "scheduled"))) ∧
  Events.get_event 0 (Events.put_event flaky_mailer [] 0 rename_event one_event).1.2 =
    mk_reply 200 (Events.EventJson 0 (Event.mk (JS.Str "Renamed") JS.Null JS.Null JS.Null)).
Proof. split; reflexivity. Qed.

(** X21: deleting an event that exists is answered with 200, after which
    reading it is answered with 404 and every other event is as before;
    deleting one that does not exist is answered with 404 and changes
    nothing. *)
Theorem delete_event_outcome (id : N) (t : gmap N Event.row) :
  (is_Some (t !! id) →
   (Events.delete_event id t).1 = mk_reply 200 (Events.Message "Event deleted successfully") ∧
   Events.get_event id (Events.delete_event id t).2 =
     mk_reply 404 (Events.Error "Event not found") ∧
   ∀ j, j ≠ id → (Events.delete_event id t).2 !! j = t !! j) ∧
  (t !! id = None →
   Events.delete_event id t = (mk_reply 404 (Events.Error "Event not found"), t)).
Proof.
  unfold Events.delete_event, Events.get_event. split.
  - intros [r Hr]. rewrite Hr. simpl. rewrite lookup_delete_eq.
    split; [done|]. split; [done|]. intros j Hj. by rewrite lookup_delete_ne.
  - by intros ->.
Qed.

Lemma delete_event_outcome_witness :
  (Events.delete_event 0 one_event).1 =
    mk_reply 200 (Events.Message "Event deleted successfully") ∧
  Events.delete_event 5 one_event =
    (mk_reply 404 (Events.Error "Event not found"), one_event).
Proof.
  split.
  - apply (delete_event_outcome 0 one_event). eexists. reflexivity.
  - apply (delete_event_outcome 5 one_event). reflexivity.
Defined.

(** Posting an event and deleting it under the id that was answered
    leaves the table as it was. *)
Theorem post_then_delete_event (b : Events.event_body) (t : gmap N Event.row) (id : N) (r : Event.row) :
  (Events.post_event b t).1 = mk_reply 201 (Events.EventJson id r) →
  Events.delete_event id (Events.post_event b t).2 =
  (mk_reply 200 (Events.Message "Event deleted successfully"), t).
Proof.
  unfold Events.post_event. destruct (_ || _); [discriminate|].
  simpl. intros [= <- _]. unfold Events.delete_event.
  rewrite lookup_insert_eq. f_equal.
  apply delete_insert_id, not_elem_of_dom, is_fresh.
Qed.

Lemma post_then_delete_event_witness :
  Events.delete_event 0 (Events.post_event sample_event ∅).2 =
  (mk_reply 200 (Events.Message "Event deleted successfully"), ∅).
Proof.
  apply (post_then_delete_event sample_event ∅ 0
           (Event.mk (JS.Str "Kigali Live") (JS.Str "2025-12-31") (JS.Str "BK Arena")
              (JS.Str "scheduled"))).
  reflexivity.
Defined.

Lemma subscriber_emails_spec (s : store) (v : JS.value) :
  v ∈ Events.subscriber_emails s ↔ ∃ i, subscribers s !! i = Some v.
Proof.
  unfold Events.subscriber_emails. rewrite list_elem_of_fmap. split.
  - intros ([i x] & -> & H). apply elem_of_map_to_list in H. eauto.
  - intros (i & H). exists (i, v). by rewrite elem_of_map_to_list.
Qed.

(** The rows the loop runs over hold every subscriber of a store the
    API has reached, and each address once: a confirmation writes to no
    address twice. *)
Theorem reachable_subscriber_emails (isFloat_gt0 : JS.value → bool) (s : store) :
  reachable isFloat_gt0 s →
  NoDup (Events.subscriber_emails s) ∧
  ∀ v, v ∈ Events.subscriber_emails s ↔ ∃ i, subscribers s !! i = Some v.
Proof.
  intros Hr. split; [|apply subscriber_emails_spec].
  assert (emails_unique s) as Hs.
  { induction Hr as [|rq s Hr IH]; [|by apply serve_emails_unique].
    intros i j v H. simpl in H. by rewrite lookup_empty in H. }
  unfold Events.subscriber_emails. apply NoDup_fmap_2_strong.
  - intros [i x] [j y] Hi Hj. simpl. intros <-.
    apply elem_of_map_to_list in Hi, Hj. by rewrite (Hs _ _ _ Hi Hj).
  - apply NoDup_map_to_list.
Qed.

Lemma reachable_subscriber_emails_witness :
  NoDup (Events.subscriber_emails store_with_fan) ∧
  ∀ v, v ∈ Events.subscriber_emails store_with_fan ↔
       ∃ i, subscribers store_with_fan !! i = Some v.
Proof.
  apply (reachable_subscriber_emails isFloat_gt0_on_integers store_with_fan).
  apply reachable_serve, reachable_empty.
Defined.

(** ** Blogs *)

Lemma set_likes_set_likes (n m : Z) (r : Blog.row) :
  Blogs.set_likes n (Blogs.set_likes m r) = Blogs.set_likes n r.
Proof. reflexivity. Qed.

Lemma like_blog_existing (id : N) (t : gmap N Blog.row) (r : Blog.row) :
  t !! id = Some r →
  Blogs.like_blog id t =
  (mk_reply 200 (Blogs.Likes (Blogs.likes_or_0 r + 1)),
   <[id := Blogs.set_likes (Blogs.likes_or_0 r + 1) r]> t).
Proof. unfold Blogs.like_blog. by intros ->. Qed.

Lemma likes_in_a_row (k : nat) (id : N) (t : gmap N Blog.row) (r : Blog.row) :
  t !! id = Some r →
  Nat.iter (S k) (λ u, (Blogs.like_blog id u).2) t =
  <[id := Blogs.set_likes (Blogs.likes_or_0 r + Z.of_nat (S k)) r]> t.
Proof.
  intros Hr. induction k as [|k IH].
  - simpl. by rewrite (like_blog_existing _ _ _ Hr).
  - rewrite Nat.iter_succ, IH.
    rewrite (like_blog_existing _ _ (Blogs.set_likes (Blogs.likes_or_0 r + Z.of_nat (S k)) r))
      by apply lookup_insert_eq.
    simpl. rewrite insert_insert_eq. f_equal.
    unfold Blogs.set_likes, Blogs.likes_or_0. simpl. do 2 f_equal. lia.
Qed.

(** X22: a like on a blog that exists adds exactly one to its count, NULL
    counting as 0, and answers the new count; after [k] likes and one more
    the answer is the old count plus [k] plus one, and nothing but the
    count of that blog has changed. *)
Theorem like_blog_counts (k : nat) (id : N) (t : gmap N Blog.row) (r : Blog.row) :
  t !! id = Some r →
  Blogs.like_blog id (Nat.iter k (λ u, (Blogs.like_blog id u).2) t) =
  (mk_reply 200 (Blogs.Likes (Blogs.likes_or_0 r + Z.of_nat k + 1)),
   <[id := Blogs.set_likes (Blogs.likes_or_0 r + Z.of_nat k + 1) r]> t).
Proof.
  intros Hr. destruct k as [|k].
  - simpl. rewrite (like_blog_existing _ _ _ Hr). by rewrite Z.add_0_r.
  - rewrite (likes_in_a_row _ _ _ _ Hr).
    rewrite (like_blog_existing _ _ (Blogs.set_likes (Blogs.likes_or_0 r + Z.of_nat (S k)) r))
      by apply lookup_insert_eq.
    by rewrite insert_insert_eq.
Qed.

Lemma like_blog_counts_witness :
  Blogs.like_blog 0 (Nat.iter 2 (λ u, (Blogs.like_blog 0 u).2) one_blog) =
  (mk_reply 200 (Blogs.Likes (Blogs.likes_or_0 sample_blog_row + Z.of_nat 2 + 1)),
   <[0%N := Blogs.set_likes (Blogs.likes_or_0 sample_blog_row + Z.of_nat 2 + 1)
              sample_blog_row]> one_blog).
Proof.
  apply (like_blog_counts 2 0 one_blog sample_blog_row).
  reflexivity.
Defined.

Example three_likes :
  (Blogs.like_blog 0 (Nat.iter 2 (λ u, (Blogs.like_blog 0 u).2) one_blog)).1 =
  mk_reply 200 (Blogs.Likes 3).
Proof. reflexivity. Qed.

(** X23: an update keeps what the request leaves out: a title, a content or
    a category that is absent or empty, and the image when no file comes,
    stay as they were; the likes and the time of creation stay whatever
    the request holds; no other blog moves. *)
Theorem put_blog_keeps_what_is_left_out (c : Blogs.clocks) (id : N) (b : Blogs.blog_body) (t : gmap N Blog.row) (r : Blog.row) :
  t !! id = Some r →
  ∃ r',
    (Blogs.put_blog c id b t).2 = <[id := r']> t ∧
    Blog.likes r' = Blog.likes r ∧
    Blog.created_at r' = Blog.created_at r ∧
    Blog.updated_at r' = Blogs.db_now c ∧
    (JS.truthy (Blogs.b_title b) = false → Blog.title r' = Blog.title r) ∧
    (JS.truthy (Blogs.b_content b) = false → Blog.content r' = Blog.content r) ∧
    (JS.truthy (Blogs.b_category b) = false → Blog.category r' = Blog.category r) ∧
    (Blogs.file b = None → Blog.image_url r' = Blog.image_url r) ∧
    (JS.truthy (Blogs.b_title b) = true → Blog.title r' = Blogs.b_title b) ∧
    (JS.truthy (Blogs.b_content b) = true → Blog.content r' = Blogs.b_content b) ∧
    (JS.truthy (Blogs.b_category b) = true → Blog.category r' = Blogs.b_category b) ∧
    (∀ f, Blogs.file b = Some f → Blog.image_url r' = Some f).
Proof.
  intros Hr. unfold Blogs.put_blog. rewrite Hr. simpl.
  eexists. split; [reflexivity|]. simpl. unfold JS.or.
  repeat split; try (by intros ->); by intros f ->.
Qed.

Lemma put_blog_keeps_what_is_left_out_witness :
  ∃ r',
    (Blogs.put_blog sample_clocks 0 retitle one_blog).2 = <[0%N := r']> one_blog ∧
    Blog.likes r' = Blog.likes sample_blog_row ∧
    Blog.created_at r' = Blog.created_at sample_blog_row ∧
    Blog.updated_at r' = Blogs.db_now sample_clocks ∧
    (JS.truthy (Blogs.b_title retitle) = false → Blog.title r' = Blog.title sample_blog_row) ∧
    (JS.truthy (Blogs.b_content retitle) = false →
     Blog.content r' = Blog.content sample_blog_row) ∧
    (JS.truthy (Blogs.b_category retitle) = false →
     Blog.category r' = Blog.category sample_blog_row) ∧
    (Blogs.file retitle = None → Blog.image_url r' = Blog.image_url sample_blog_row) ∧
    (JS.truthy (Blogs.b_title retitle) = true → Blog.title r' = Blogs.b_title retitle) ∧
    (JS.truthy (Blogs.b_content retitle) = true → Blog.content r' = Blogs.b_content retitle) ∧
    (JS.truthy (Blogs.b_category retitle) = true →
     Blog.category r' = Blogs.b_category retitle) ∧
    (∀ f, Blogs.file retitle = Some f → Blog.image_url r' = Some f).
Proof.
  apply (put_blog_keeps_what_is_left_out sample_clocks 0 retitle one_blog sample_blog_row).
  reflexivity.
Defined.

(** X24: a like and an update of the same blog do not undo each other:
    in either order the blog ends with the fields of the update and one
    like more. *)
Theorem like_and_put_commute (c : Blogs.clocks) (id : N) (b : Blogs.blog_body) (t : gmap N Blog.row) :
  (Blogs.like_blog id (Blogs.put_blog c id b t).2).2 =
  (Blogs.put_blog c id b (Blogs.like_blog id t).2).2.
Proof.
  unfold Blogs.like_blog, Blogs.put_blog.
  destruct (t !! id) as [r|] eqn:Hr; simpl.
  - rewrite !lookup_insert_eq. simpl. by rewrite !insert_insert_eq.
  - by rewrite Hr.
Qed.

(** X25: a blog posted with a title and a content is stored under an id no
    blog had, with no likes, with the category general when the request
    names none, and answered with 201 and that id; a first like on it is
    answered with 1. *)
Theorem post_blog_then_like (c : Blogs.clocks) (b : Blogs.blog_body) (t : gmap N Blog.row) :
  JS.truthy (Blogs.b_title b) = true →
  JS.truthy (Blogs.b_content b) = true →
  ∃ id json r,
    t !! id = None ∧
    Blogs.post_blog c b t = (mk_reply 201 (Blogs.Data json), <[id := r]> t) ∧
    Blogs.id json = id ∧
    Blog.title r = Blogs.b_title b ∧ Blog.content r = Blogs.b_content b ∧
    Blog.category r =
      (if JS.truthy (Blogs.b_category b) then Blogs.b_category b else JS.Str "general") ∧
    Blog.likes r = Some 0%Z ∧ Blogs.likes json = Some 0%Z ∧
    (Blogs.like_blog id (Blogs.post_blog c b t).2).1 = mk_reply 200 (Blogs.Likes 1).
Proof.
  intros Ht Hc. unfold Blogs.post_blog, JS.not. rewrite Ht, Hc. simpl.
  eexists _, _, _. split; [apply not_elem_of_dom, is_fresh|].
  split; [reflexivity|]. do 6 (split; [reflexivity|]).
  unfold Blogs.like_blog. by rewrite lookup_insert_eq.
Qed.

Lemma post_blog_then_like_witness :
  ∃ id json r,
    (∅ : gmap N Blog.row) !! id = None ∧
    Blogs.post_blog sample_clocks sample_blog ∅ =
      (mk_reply 201 (Blogs.Data json), <[id := r]> ∅) ∧
    Blogs.id json = id ∧
    Blog.title r = Blogs.b_title sample_blog ∧ Blog.content r = Blogs.b_content sample_blog ∧
    Blog.category r =
      (if JS.truthy (Blogs.b_category sample_blog) then Blogs.b_category sample_blog
       else JS.Str "general") ∧
    Blog.likes r = Some 0%Z ∧ Blogs.likes json = Some 0%Z ∧
    (Blogs.like_blog id (Blogs.post_blog sample_clocks sample_blog ∅).2).1 =
      mk_reply 200 (Blogs.Likes 1).
Proof.
  apply (post_blog_then_like sample_clocks sample_blog ∅); reflexivity.
Defined.

(** A blog posted without a title or without a content, or with an
    empty one, is answered with 400 and not stored; a like, an update or a
    deletion of a blog that does not exist is answered with 404 and
    changes nothing. *)
Theorem blog_edge_answers (c : Blogs.clocks) (id : N) (b : Blogs.blog_body) (t : gmap N Blog.row) :
  (JS.truthy (Blogs.b_title b) = false ∨ JS.truthy (Blogs.b_content b) = false →
   Blogs.post_blog c b t = (mk_reply 400 (Blogs.Message "Title and content required"), t)) ∧
  (t !! id = None →
   Blogs.like_blog id t = (mk_reply 404 (Blogs.Message "Blog not found"), t) ∧
   Blogs.put_blog c id b t = (mk_reply 404 (Blogs.Message "Blog not found"), t) ∧
   Blogs.delete_blog id t = (mk_reply 404 (Blogs.Message "Blog not found"), t)).
Proof.
  split.
  - unfold Blogs.post_blog, JS.not. intros [-> | ->]; simpl; by rewrite ?orb_true_r.
  - unfold Blogs.like_blog, Blogs.put_blog, Blogs.delete_blog. by intros ->.
Qed.

Lemma blog_edge_answers_witness :
  Blogs.post_blog sample_clocks retitle one_blog =
    (mk_reply 400 (Blogs.Message "Title and content required"), one_blog) ∧
  Blogs.like_blog 9 one_blog = (mk_reply 404 (Blogs.Message "Blog not found"), one_blog).
Proof.
  split.
  - apply (blog_edge_answers sample_clocks 9 retitle one_blog). right. reflexivity.
  - apply (blog_edge_answers sample_clocks 9 retitle one_blog). reflexivity.
Defined.

(** ** Contact messages *)

Section ContactFacts.

Variable isEmail : JS.value → bool.

Lemma contact_validation (b : Messages.message_body) :
  Messages.validationResult (Messages.chains isEmail) b =
  (if Validator.notEmpty (Messages.name b) then []
   else [Validator.mk_error "name" (Messages.name b) "Name is required"]) ++
  (if isEmail (Messages.email b) then []
   else [Validator.mk_error "email" (Messages.email b) "Valid email is required"]) ++
  (if Validator.notEmpty (Messages.message b) then []
   else [Validator.mk_error "message" (Messages.message b) "Message is required"]).
Proof.
  unfold Messages.validationResult, Messages.run_chain. simpl.
  by destruct (Validator.notEmpty (Messages.name b)), (isEmail (Messages.email b)),
       (Validator.notEmpty (Messages.message b)).
Qed.

End ContactFacts.

(** X26: a contact message is stored, under an id no message had, and
    answered with 201, exactly when its name and message are not empty and
    its email passes [isEmail]; otherwise nothing is stored and the answer
    is 400 with, for each field at fault and for no other, the error of
    that field under its own message. *)
Theorem post_contact_message_outcome (isEmail : JS.value → bool) (b : Messages.message_body) (t : gmap N ContactMessage.row) :
  (Validator.notEmpty (Messages.name b) = true →
   isEmail (Messages.email b) = true →
   Validator.notEmpty (Messages.message b) = true →
   ∃ id, t !! id = None ∧
         Messages.post_contact_message isEmail b t =
         (Http.mk_response 201 (Http.Message "Message sent successfully!"),
          <[id := ContactMessage.mk (Messages.name b) (Messages.email b)
                    (Messages.message b)]> t)) ∧
  (Validator.notEmpty (Messages.name b) = false ∨
   isEmail (Messages.email b) = false ∨
   Validator.notEmpty (Messages.message b) = false →
   ∃ errs,
     Messages.post_contact_message isEmail b t = (Http.mk_response 400 (Http.Errors errs), t) ∧
     (Validator.mk_error "name" (Messages.name b) "Name is required" ∈ errs ↔
      Validator.notEmpty (Messages.name b) = false) ∧
     (Validator.mk_error "email" (Messages.email b) "Valid email is required" ∈ errs ↔
      isEmail (Messages.email b) = false) ∧
     (Validator.mk_error "message" (Messages.message b) "Message is required" ∈ errs ↔
      Validator.notEmpty (Messages.message b) = false)).
Proof.
  unfold Messages.post_contact_message. rewrite contact_validation. split.
  - intros -> -> ->. simpl. eexists. split; [apply not_elem_of_dom, is_fresh|done].
  - intros H.
    match goal with |- context [Validator.isEmpty ?l] => set (errs := l) end.
    exists errs. split.
    + assert (Validator.isEmpty errs = false) as ->; [|done].
      unfold errs.
      destruct (Validator.notEmpty (Messages.name b)), (isEmail (Messages.email b)),
        (Validator.notEmpty (Messages.message b)); simpl; try reflexivity.
      by destruct H as [?|[?|?]].
    + unfold errs.
      destruct (Validator.notEmpty (Messages.name b)), (isEmail (Messages.email b)),
        (Validator.notEmpty (Messages.message b)); simpl;
        rewrite ?elem_of_cons, ?elem_of_nil; intuition discriminate.
Qed.

Lemma post_contact_message_outcome_witness :
  (∃ id, (∅ : gmap N ContactMessage.row) !! id = None ∧
         Messages.post_contact_message sample_isEmail hello ∅ =
         (Http.mk_response 201 (Http.Message "Message sent successfully!"),
          <[id := ContactMessage.mk (Messages.name hello) (Messages.email hello)
                    (Messages.message hello)]> ∅)) ∧
  ∃ errs,
    Messages.post_contact_message sample_isEmail nameless_hello ∅ =
      (Http.mk_response 400 (Http.Errors errs), ∅) ∧
    (Validator.mk_error "name" (Messages.name nameless_hello) "Name is required" ∈ errs ↔
     Validator.notEmpty (Messages.name nameless_hello) = false) ∧
    (Validator.mk_error "email" (Messages.email nameless_hello) "Valid email is required"
       ∈ errs ↔ sample_isEmail (Messages.email nameless_hello) = false) ∧
    (Validator.mk_error "message" (Messages.message nameless_hello) "Message is required"
       ∈ errs ↔ Validator.notEmpty (Messages.message nameless_hello) = false).
Proof.
  split.
  - apply (post_contact_message_outcome sample_isEmail hello ∅); reflexivity.
  - apply (post_contact_message_outcome sample_isEmail nameless_hello ∅).
    left. reflexivity.
Defined.

(** Deleting a contact message needs a token that verifies, else the
    answer is 401 and nothing is deleted; with one, a message that exists
    is removed and no other, and one that does not exist is answered with
    404; a message just posted and deleted leaves the table as it was. *)
Theorem delete_contact_message_outcome (isEmail : JS.value → bool) (c : credentials) (id : N) (b : Messages.message_body) (t : gmap N ContactMessage.row) :
  (c ≠ GoodToken →
   Http.code (Messages.delete_contact_message c id t).1 = 401%N ∧
   (Messages.delete_contact_message c id t).2 = t) ∧
  (t !! id = None →
   Messages.delete_contact_message GoodToken id t =
   (Http.mk_response 404 (Http.Message "Message not found"), t)) ∧
  (is_Some (t !! id) →
   Messages.delete_contact_message GoodToken id t =
   (Http.mk_response 200 (Http.Message "Message deleted successfully"), delete id t)) ∧
  (Http.code (Messages.post_contact_message isEmail b t).1 = 201%N →
   ∃ new, (Messages.post_contact_message isEmail b t).2 !! new ≠ t !! new ∧
          (Messages.delete_contact_message GoodToken new
             (Messages.post_contact_message isEmail b t).2).2 = t).
Proof.
  unfold Messages.delete_contact_message. repeat split.
  - by destruct c.
  - by destruct c.
  - simpl. by intros ->.
  - simpl. by intros [r ->].
  - unfold Messages.post_contact_message.
    destruct (negb _); simpl; [discriminate|]. intros _.
    assert (t !! fresh (dom t) = None) as Hf by apply not_elem_of_dom, is_fresh.
    exists (fresh (dom t)). rewrite lookup_insert_eq, Hf. split; [done|].
    simpl. by apply delete_insert_id.
Qed.

Lemma delete_contact_message_outcome_witness :
  (Http.code (Messages.delete_contact_message NoToken 0 ∅).1 = 401%N ∧
   (Messages.delete_contact_message NoToken 0 ∅).2 = ∅) ∧
  Messages.delete_contact_message GoodToken 0 ∅ =
    (Http.mk_response 404 (Http.Message "Message not found"), ∅) ∧
  ∃ new, (Messages.post_contact_message sample_isEmail hello ∅).2 !! new ≠
         (∅ : gmap N ContactMessage.row) !! new ∧
         (Messages.delete_contact_message GoodToken new
            (Messages.post_contact_message sample_isEmail hello ∅).2).2 = ∅.
Proof.
  split; [|split].
  - apply (delete_contact_message_outcome sample_isEmail NoToken 0 hello ∅). discriminate.
  - apply (delete_contact_message_outcome sample_isEmail NoToken 0 hello ∅). reflexivity.
  - apply (delete_contact_message_outcome sample_isEmail NoToken 0 hello ∅). reflexivity.
Defined.

(** ** Administrators *)

Lemma list_filter_perm {A} (P : A → bool) (l l' : list A) :
  l ≡ₚ l' → List.filter P l ≡ₚ List.filter P l'.
Proof.
  induction 1 as [|x l l' H IH|x y l|l l' l'' H1 IH1 H2 IH2]; simpl.
  - done.
  - destruct (P x); by rewrite IH.
  - destruct (P x), (P y); try done. apply perm_swap.
  - by rewrite IH1.
Qed.

Lemma list_filter_none {A} (P : A → bool) (l : list A) :
  (∀ x, x ∈ l → P x = false) → List.filter P l = [].
Proof.
  induction l as [|x l IH]; simpl; [done|]. intros H.
  rewrite (H x) by left. apply IH. intros y Hy. apply H. by right.
Qed.

Section AdminFacts.

Variable isEmail : JS.value → bool.
Variable isLength_min6 : JS.value → bool.
Variable bcrypt_hash : string → string → string.
Variable bcrypt_compare : string → string → bool.
Variable jwt_sign : N → JS.value → JS.value → string.

Lemma login_validation (i p : string) :
  i ≠ "" → p ≠ "" →
  Validator.validationResult Admin.login_chains (Admin.mk_login (JS.Str i) (JS.Str p)) = [].
Proof.
  intros Hi Hp. unfold Validator.validationResult, Validator.run_chain. simpl.
  unfold Validator.notEmpty. simpl.
  apply String.eqb_neq in Hi, Hp. by rewrite Hi, Hp.
Qed.

Lemma select_admin_elem (i : string) (t : gmap N Admin.row) (id : N) (r : Admin.row) :
  (id, r) ∈ Admin.select_admin i t ↔ t !! id = Some r ∧ Admin.selected i r = true.
Proof.
  unfold Admin.select_admin.
  by rewrite list_elem_of_In, filter_In, <- list_elem_of_In, elem_of_map_to_list.
Qed.

(** The login when every row the query returns has another password. *)
Lemma login_refused (i p : string) (t : gmap N Admin.row) :
  i ≠ "" → p ≠ "" →
  (∀ id r, t !! id = Some r → Admin.selected i r = true →
           bcrypt_compare p (Admin.password r) = false) →
  Admin.post_login bcrypt_compare jwt_sign (Admin.mk_login (JS.Str i) (JS.Str p)) t =
  Admin.mk_answer 401 (Admin.Message "Invalid credentials") None.
Proof.
  intros Hi Hp H. unfold Admin.post_login. rewrite login_validation by done. simpl.
  destruct (Admin.select_admin i t) as [|[id r] rest] eqn:E; [done|].
  assert ((id, r) ∈ Admin.select_admin i t) as Hin by (rewrite E; left).
  apply select_admin_elem in Hin as [Hr Hs]. by rewrite (H _ _ Hr Hs).
Qed.

(** The query returns the one row that is selected, when there is one
    only. *)
Lemma select_admin_inserted (i : string) (t : gmap N Admin.row) (id : N) (r : Admin.row) :
  t !! id = None →
  Admin.selected i r = true →
  (∀ j r', t !! j = Some r' → Admin.selected i r' = false) →
  Admin.select_admin i (<[id := r]> t) = [(id, r)].
Proof.
  intros Hid Hr Hothers. apply Permutation_singleton_r.
  unfold Admin.select_admin.
  rewrite (list_filter_perm _ _ _ (map_to_list_insert t id r Hid)). simpl.
  rewrite Hr. rewrite list_filter_none; [done|].
  intros [j r'] Hj. apply elem_of_map_to_list in Hj. simpl. eauto.
Qed.

Lemma admin_exists_false (email username : JS.value) (t : gmap N Admin.row) :
  Admin.admin_exists email username t = false ↔
  ∀ j r, t !! j = Some r → Admin.email r ≠ email ∧ Admin.username r ≠ username.
Proof.
  unfold Admin.admin_exists. rewrite bool_decide_eq_false. unfold map_Exists. split.
  - intros Hn j r Hr. split; intros E; apply Hn; eauto.
  - intros Hu (j & r & Hr & [E|E]); by destruct (Hu _ _ Hr).
Qed.

Lemma register_accepts (salt u p : string) (email : JS.value) (t : gmap N Admin.row) :
  u ≠ "" → isEmail email = true → isLength_min6 (JS.Str p) = true →
  Admin.admin_exists email (JS.Str u) t = false →
  Admin.post_register isEmail isLength_min6 bcrypt_hash salt
    (Admin.mk_register (JS.Str u) email (JS.Str p)) t =
  (Admin.mk_answer 200 (Admin.Message "Admin created successfully") None,
   <[fresh (dom t) := Admin.mk (JS.Str u) email (bcrypt_hash salt p)]> t).
Proof.
  intros Hu He Hp Hex. unfold Admin.post_register.
  unfold Validator.validationResult, Validator.run_chain. simpl.
  unfold Validator.notEmpty. simpl.
  apply String.eqb_neq in Hu. rewrite Hu, He, Hp. simpl. by rewrite Hex.
Qed.

End AdminFacts.

(** X27: a login fails in one way only: when no administrator is found
    under the identifier, and when the one found has another password,
    the answer is the same 401 with [{message: "Invalid credentials"}] and
    no cookie. *)
Theorem login_failures_alike (bcrypt_compare : string → string → bool) (jwt_sign : N → JS.value → JS.value → string) (i p : string) (t : gmap N Admin.row) :
  i ≠ "" → p ≠ "" →
  (∀ id r, t !! id = Some r → Admin.selected i r = true →
           bcrypt_compare p (Admin.password r) = false) →
  Admin.post_login bcrypt_compare jwt_sign (Admin.mk_login (JS.Str i) (JS.Str p)) t =
  Admin.mk_answer 401 (Admin.Message "Invalid credentials") None.
Proof.
  intros Hi Hp H. unfold Admin.post_login. rewrite login_validation by done. simpl.
  destruct (Admin.select_admin i t) as [|[id r] rest] eqn:E.
  - (* nobody under the identifier *)
    done.
  - (* somebody, with another password *)
    assert ((id, r) ∈ Admin.select_admin i t) as Hin by (rewrite E; left).
    apply select_admin_elem in Hin as [Hr Hs]. by rewrite (H _ _ Hr Hs).
Qed.

Lemma login_failures_alike_witness :
  toy_login (Admin.mk_login (JS.Str "frank") (JS.Str "guess")) admins_with_frank =
  Admin.mk_answer 401 (Admin.Message "Invalid credentials") None.
Proof.
  apply (login_failures_alike toy_compare toy_sign "frank" "guess" admins_with_frank).
  - discriminate.
  - discriminate.
  - intros id r Hr _.
    assert (admins_with_frank = <[0%N := Admin.mk (JS.Str "frank") (JS.Str "frank@band.rw")
                                           "salt$s3cret!"]> ∅) as E by reflexivity.
    rewrite E in Hr. rewrite lookup_insert in Hr. case_decide.
    + injection Hr as <-. reflexivity.
    + rewrite lookup_empty in Hr. discriminate Hr.
Defined.

(** X28: an identifier that contains an at sign is looked up among the
    emails only: when it is nobody's email the login is refused, even for
    an administrator who has it as user name and gives the right
    password. *)
Theorem login_at_sign_is_email (bcrypt_compare : string → string → bool) (jwt_sign : N → JS.value → JS.value → string) (i p : string) (t : gmap N Admin.row) :
  JS.includes i "@" = true → p ≠ "" →
  (∀ id r, t !! id = Some r → Admin.email r ≠ JS.Str i) →
  Admin.post_login bcrypt_compare jwt_sign (Admin.mk_login (JS.Str i) (JS.Str p)) t =
  Admin.mk_answer 401 (Admin.Message "Invalid credentials") None.
Proof.
  intros Hat Hp He. apply login_refused; [by intros ->|done|].
  intros id r Hr. unfold Admin.selected. rewrite Hat.
  rewrite bool_decide_eq_false_2; [done|]. by eapply He.
Qed.

Lemma login_at_sign_is_email_witness :
  toy_login (Admin.mk_login (JS.Str "frank@home") (JS.Str "s3cret!")) admins_with_at_frank =
  Admin.mk_answer 401 (Admin.Message "Invalid credentials") None.
Proof.
  apply (login_at_sign_is_email toy_compare toy_sign "frank@home" "s3cret!"
           admins_with_at_frank).
  - reflexivity.
  - discriminate.
  - intros id r Hr.
    assert (admins_with_at_frank =
            <[0%N := Admin.mk (JS.Str "frank@home") (JS.Str "frank@band.rw")
                       "salt$s3cret!"]> ∅) as E by reflexivity.
    rewrite E in Hr. rewrite lookup_insert in Hr. case_decide.
    + injection Hr as <-. discriminate.
    + rewrite lookup_empty in Hr. discriminate Hr.
Defined.

Example at_frank_is_registered :
  (toy_register "salt" at_frank ∅).1 =
  Admin.mk_answer 200 (Admin.Message "Admin created successfully") None.
Proof. reflexivity. Qed.

(** X29: an administrator registered under a user name without an at
    sign, with an email and a user name nobody had, can log in with that
    user name and password, provided [bcrypt.compare] accepts what
    [bcrypt.hash] made: the answer is 200, and its token, also set as
    cookie, is signed for the new row.  The table holds the hash, and one
    row more. *)
Theorem register_then_login (isEmail isLength_min6 : JS.value → bool) (bcrypt_hash : string → string → string) (bcrypt_compare : string → string → bool) (jwt_sign : N → JS.value → JS.value → string) (salt u p : string) (email : JS.value) (t : gmap N Admin.row) :
  u ≠ "" → JS.includes u "@" = false → p ≠ "" →
  isEmail email = true → isLength_min6 (JS.Str p) = true →
  Admin.admin_exists email (JS.Str u) t = false →
  bcrypt_compare p (bcrypt_hash salt p) = true →
  ∃ id,
    t !! id = None ∧
    Admin.post_register isEmail isLength_min6 bcrypt_hash salt
      (Admin.mk_register (JS.Str u) email (JS.Str p)) t =
    (Admin.mk_answer 200 (Admin.Message "Admin created successfully") None,
     <[id := Admin.mk (JS.Str u) email (bcrypt_hash salt p)]> t) ∧
    Admin.post_login bcrypt_compare jwt_sign (Admin.mk_login (JS.Str u) (JS.Str p))
      (<[id := Admin.mk (JS.Str u) email (bcrypt_hash salt p)]> t) =
    Admin.mk_answer 200 (Admin.LoggedIn "Logged in" (jwt_sign id (JS.Str u) email))
      (Some (jwt_sign id (JS.Str u) email)).
Proof.
  intros Hu Hat Hp He Hl Hex Hcmp.
  exists (fresh (dom t)).
  assert (t !! fresh (dom t) = None) as Hf by apply not_elem_of_dom, is_fresh.
  split; [done|]. split; [by apply register_accepts|].
  unfold Admin.post_login. rewrite login_validation by done. simpl.
  rewrite select_admin_inserted; [simpl; by rewrite Hcmp|done|..].
  - unfold Admin.selected. rewrite Hat. by apply bool_decide_eq_true.
  - intros j r' Hj. unfold Admin.selected. rewrite Hat.
    apply bool_decide_eq_false. by apply (proj1 (admin_exists_false _ _ _) Hex j r').
Qed.

Lemma register_then_login_witness :
  ∃ id,
    (∅ : gmap N Admin.row) !! id = None ∧
    Admin.post_register sample_isEmail sample_isLength toy_hash "salt"
      (Admin.mk_register (JS.Str "frank") (JS.Str "frank@band.rw") (JS.Str "s3cret!")) ∅ =
    (Admin.mk_answer 200 (Admin.Message "Admin created successfully") None,
     <[id := Admin.mk (JS.Str "frank") (JS.Str "frank@band.rw")
               (toy_hash "salt" "s3cret!")]> ∅) ∧
    Admin.post_login toy_compare toy_sign
      (Admin.mk_login (JS.Str "frank") (JS.Str "s3cret!"))
      (<[id := Admin.mk (JS.Str "frank") (JS.Str "frank@band.rw")
                 (toy_hash "salt" "s3cret!")]> ∅) =
    Admin.mk_answer 200
      (Admin.LoggedIn "Logged in" (toy_sign id (JS.Str "frank") (JS.Str "frank@band.rw")))
      (Some (toy_sign id (JS.Str "frank") (JS.Str "frank@band.rw"))).
Proof.
  apply (register_then_login sample_isEmail sample_isLength toy_hash toy_compare toy_sign
           "salt" "frank" "s3cret!" (JS.Str "frank@band.rw") ∅);
    try reflexivity; discriminate.
Defined.

(** X30: a registration whose email or whose user name an administrator
    already has is answered with 400 and [{message: "Admin already
    exists"}], and stores nothing: so is a second registration with the
    user name or the email of a first one. *)
Theorem register_again (isEmail isLength_min6 : JS.value → bool) (bcrypt_hash : string → string → string) (salt : string) (b : Admin.register_body) (t : gmap N Admin.row) (id : N) (r : Admin.row) :
  Validator.validationResult (Admin.register_chains isEmail isLength_min6) b = [] →
  t !! id = Some r →
  Admin.email r = Admin.r_email b ∨ Admin.username r = Admin.r_username b →
  Admin.post_register isEmail isLength_min6 bcrypt_hash salt b t =
  (Admin.mk_answer 400 (Admin.Message "Admin already exists") None, t).
Proof.
  intros Hv Hr Hsame. unfold Admin.post_register. rewrite Hv. simpl.
  unfold Admin.admin_exists. rewrite bool_decide_eq_true_2; [done|].
  exists id, r. done.
Qed.

Lemma register_again_witness :
  toy_register "pepper"
    (Admin.mk_register (JS.Str "franky") (JS.Str "frank@band.rw") (JS.Str "another1"))
    admins_with_frank =
  (Admin.mk_answer 400 (Admin.Message "Admin already exists") None, admins_with_frank).
Proof.
  apply (register_again sample_isEmail sample_isLength toy_hash "pepper"
           (Admin.mk_register (JS.Str "franky") (JS.Str "frank@band.rw") (JS.Str "another1"))
           admins_with_frank 0
           (Admin.mk (JS.Str "frank") (JS.Str "frank@band.rw") "salt$s3cret!")).
  - reflexivity.
  - reflexivity.
  - left. reflexivity.
Defined.
